(** * git-bug: snapshot accessors and the bridge importers

    A shallow embedding of
      - [bug/snapshot.go]            (module [bug]),
      - the import result type of [bridge/core] (module [core]),
      - [bridge/github/import.go]    (module [github]),
      - [bridge/gitlab/import.go]    (module [gitlab]),
      - [bridge/launchpad/import.go] (module [launchpad]),
    over a model of the repository cache (module [cache]).

    Go values are modelled as follows: [string] as [string], [int] and
    [int64] as [Z], [map[string]string] as [gmap string string], slices as
    lists, a nil-able pointer as [option], an [error] as [option error]
    ([None] is nil), a run-time panic as the outcome [Panic]. *)

From Stdlib Require Import ZArith.
From stdpp Require Import base option list strings gmap pretty.

Local Open Scope Z_scope.
Local Open Scope string_scope.
Local Open Scope list_scope.

(** ** Go errors *)

(** The error values the importers compare against, plus opaque ones. *)
Inductive error : Type :=
| ErrBugNotExist                          (* bug.ErrBugNotExist *)
| ErrNoMatchingOp                         (* cache.ErrNoMatchingOp *)
| ErrIdentityNotExist                     (* identity.ErrIdentityNotExist *)
| ErrMultipleMatch (matching : list string)  (* identity.ErrMultipleMatch *)
| ErrContext (cause : string)             (* ctx.Err() *)
| ErrOther (msg : string)                 (* any other error value *)
| Errorf (format : string) (e : error).   (* fmt.Errorf(format, e) *)

Global Instance error_eq_dec : EqDecision error.
Proof. solve_decision. Defined.

(** [err.(identity.ErrMultipleMatch)] *)
Definition isErrMultipleMatch (e : error) : bool :=
  match e with ErrMultipleMatch _ => true | _ => false end.

(** ** git.Hash *)
Definition Hash := string.

(** ** Package identity *)
Module identity.

(** What the importers and the snapshot see of an identity
    ([identity.Interface], [cache.IdentityCache]). *)
Record Interface : Type := mkIdentity {
  Id : string;
  Name : string;
  Email : string;
  Login : string;
  AvatarUrl : string;
  ImmutableMetadata : gmap string string
}.

End identity.

(** ** Package bug *)
Module bug.

Inductive Status : Type := OpenStatus | ClosedStatus.

(** The typed payload of an operation. *)
Inductive Payload : Type :=
| CreateOp (title message : string)
| AddCommentOp (message : string)
| EditCommentOp (target : Hash) (message : string)
| SetTitleOp (title : string)
| SetStatusOp (status : Status)
| LabelChangeOp (added removed : list string).

Record Operation : Type := mkOperation {
  opAuthor : string;
  UnixTime : Z;
  payload : Payload;
  Metadata : gmap string string
}.

(** Modelled from the spec: [GetMetadata] of an operation (bug, not in
    the sources) reads the operation's string-keyed metadata map; the
    result is the value and the comma-ok flag of a Go map read. *)
Definition GetMetadata (op : Operation) (key : string) : string * bool :=
  match Metadata op !! key with
  | Some v => (v, true)
  | None => ("", false)
  end.

(** Modelled from the spec: [GetUnixTime] of an operation (bug, not in
    the sources) is its logical timestamp, in Unix seconds. *)
Definition GetUnixTime (op : Operation) : Z := UnixTime op.

(** [time.Time] as (seconds, nanoseconds) since the epoch. *)
Definition Time : Type := (Z * Z)%type.
Definition time_Unix (sec nsec : Z) : Time := (sec, nsec).

(** Modelled from the spec: [Time] of an operation (bug, not in the
    sources) is the same timestamp as a [time.Time]. *)
Definition OpTime (op : Operation) : Time := time_Unix (UnixTime op) 0.

Record Comment : Type := mkComment {
  commentId : string;
  Message : string
}.

Record TimelineItem : Type := mkTimelineItem {
  itemHash : Hash
}.

Record Snapshot : Type := mkSnapshot {
  id : string;
  Status_ : Status;
  Title : string;
  Comments : list Comment;
  Labels : list string;
  Author : option identity.Interface;
  Actors : list identity.Interface;
  Participants : list identity.Interface;
  CreatedAt : Time;
  Timeline : list TimelineItem;
  Operations : list Operation
}.

Definition Id (snap : Snapshot) : string := id snap.

(** [snap.Operations[len(snap.Operations)-1]] after the length guard. *)
Definition LastEditTime (snap : Snapshot) : Time :=
  if bool_decide (length (Operations snap) = 0%nat) then time_Unix 0 0
  else match Operations snap !! (length (Operations snap) - 1)%nat with
       | Some op => OpTime op
       | None => time_Unix 0 0
       end.

Definition LastEditUnix (snap : Snapshot) : Z :=
  if bool_decide (length (Operations snap) = 0%nat) then 0
  else match Operations snap !! (length (Operations snap) - 1)%nat with
       | Some op => GetUnixTime op
       | None => 0
       end.

(** [snap.Operations[0].GetMetadata(key)]: the index is not guarded, so
    the call panics on an empty list; [None] is that panic. *)
Definition GetCreateMetadata (snap : Snapshot) (key : string)
  : option (string * bool) :=
  match Operations snap !! 0%nat with
  | Some op => Some (GetMetadata op key)
  | None => None
  end.

(** [SearchTimelineItem]: first item with the given hash, or the error. *)
Fixpoint searchTimeline (items : list TimelineItem) (hash : Hash)
  : error + TimelineItem :=
  match items with
  | [] => inl (ErrOther "timeline item not found")
  | it :: rest =>
      if String.eqb (itemHash it) hash then inr it
      else searchTimeline rest hash
  end.

Definition SearchTimelineItem (snap : Snapshot) (hash : Hash)
  : error + TimelineItem :=
  searchTimeline (Timeline snap) hash.

(** The [for ... range] loop shared by [addActor], [addParticipant] and
    [HasParticipant]: does some element of the list have this id? *)
Fixpoint hasId (l : list identity.Interface) (i : string) : bool :=
  match l with
  | [] => false
  | a :: rest => if String.eqb i (identity.Id a) then true else hasId rest i
  end.

Definition setActors (snap : Snapshot) (l : list identity.Interface) : Snapshot :=
  mkSnapshot (id snap) (Status_ snap) (Title snap) (Comments snap) (Labels snap)
             (Author snap) l (Participants snap) (CreatedAt snap)
             (Timeline snap) (Operations snap).

Definition setParticipants (snap : Snapshot) (l : list identity.Interface) : Snapshot :=
  mkSnapshot (id snap) (Status_ snap) (Title snap) (Comments snap) (Labels snap)
             (Author snap) (Actors snap) l (CreatedAt snap)
             (Timeline snap) (Operations snap).

Definition addActor (snap : Snapshot) (actor : identity.Interface) : Snapshot :=
  if hasId (Actors snap) (identity.Id actor) then snap
  else setActors snap (Actors snap ++ [actor]).

Definition addParticipant (snap : Snapshot) (participant : identity.Interface)
  : Snapshot :=
  if hasId (Participants snap) (identity.Id participant) then snap
  else setParticipants snap (Participants snap ++ [participant]).

Fixpoint HasParticipant_loop (l : list identity.Interface) (i : string) : bool :=
  match l with
  | [] => false
  | p :: rest => if String.eqb (identity.Id p) i then true
                 else HasParticipant_loop rest i
  end.

Definition HasParticipant (snap : Snapshot) (i : string) : bool :=
  HasParticipant_loop (Participants snap) i.

Fixpoint HasAnyParticipant_loop (snap : Snapshot) (ids : list string) : bool :=
  match ids with
  | [] => false
  | i :: rest => if HasParticipant snap i then true
                 else HasAnyParticipant_loop snap rest
  end.

Definition HasAnyParticipant (snap : Snapshot) (ids : list string) : bool :=
  if bool_decide (length ids = 0%nat) then false
  else HasAnyParticipant_loop snap ids.

(** A sequence of calls of the two adders, as the replay of a log issues. *)
Inductive Call : Type :=
| CallAddActor (actor : identity.Interface)
| CallAddParticipant (participant : identity.Interface).

Definition call (snap : Snapshot) (c : Call) : Snapshot :=
  match c with
  | CallAddActor a => addActor snap a
  | CallAddParticipant p => addParticipant snap p
  end.

Definition calls (snap : Snapshot) (cs : list Call) : Snapshot :=
  fold_left call cs snap.

Definition ids (l : list identity.Interface) : list string :=
  map identity.Id l.

End bug.


(** ** Package context *)
Module context.

(** A [context.Context] as an importer sees it: [Done n] tells whether
    the cancellation signal is observed at the [n]-th poll of the run
    (polls are counted from 0), [Err] is [ctx.Err()] once it is. *)
Record Context : Type := mkContext {
  Done : nat → bool;
  Err : error
}.

End context.

(** ** Package bridge/core: the results streamed by an importer *)
Module core.

(** [const ( _ ImportEvent = iota; ImportEventBug; ... )]: the blank
    first entry is the zero value, written [ImportEventUnset] here. *)
Inductive ImportEvent : Type :=
| ImportEventUnset
| ImportEventBug
| ImportEventComment
| ImportEventCommentEdition
| ImportEventStatusChange
| ImportEventTitleEdition
| ImportEventLabelChange
| ImportEventIdentity
| ImportEventNothing.

Global Instance ImportEvent_eq_dec : EqDecision ImportEvent.
Proof. solve_decision. Defined.

Record ImportResult : Type := mkImportResult {
  Err : option error;
  Event : ImportEvent;
  ID : string;
  Reason : string
}.

(** [String()] panics on the zero event; [None] is that panic. *)
Definition String (er : ImportResult) : option string :=
  match Event er with
  | ImportEventBug => Some "new issue"
  | ImportEventComment => Some "new comment"
  | ImportEventCommentEdition => Some "updated comment"
  | ImportEventStatusChange => Some "changed status"
  | ImportEventTitleEdition => Some "changed title"
  | ImportEventLabelChange => Some "changed label"
  | ImportEventIdentity => Some "new identity"
  | ImportEventNothing => Some ("no event: " +:+ Reason er)
  | ImportEventUnset => None
  end.

Definition NewImportError (err : option error) (reason : string) : ImportResult :=
  {| Err := err; Event := ImportEventUnset; ID := ""; Reason := reason |}.

Definition NewImportNothing (id reason : string) : ImportResult :=
  {| Err := None; Event := ImportEventNothing; ID := id; Reason := reason |}.

Definition NewImportBug (id : string) : ImportResult :=
  {| Err := None; Event := ImportEventBug; ID := id; Reason := "" |}.

Definition NewImportComment (id : string) : ImportResult :=
  {| Err := None; Event := ImportEventComment; ID := id; Reason := "" |}.

Definition NewImportCommentEdition (id : string) : ImportResult :=
  {| Err := None; Event := ImportEventCommentEdition; ID := id; Reason := "" |}.

Definition NewImportStatusChange (id : string) : ImportResult :=
  {| Err := None; Event := ImportEventStatusChange; ID := id; Reason := "" |}.

Definition NewImportLabelChange (id : string) : ImportResult :=
  {| Err := None; Event := ImportEventLabelChange; ID := id; Reason := "" |}.

Definition NewImportTitleEdition (id : string) : ImportResult :=
  {| Err := None; Event := ImportEventTitleEdition; ID := id; Reason := "" |}.

Definition NewImportIdentity (id : string) : ImportResult :=
  {| Err := None; Event := ImportEventIdentity; ID := id; Reason := "" |}.

Definition KeyOrigin : string := "origin".

End core.

(** ** Package cache: the repository the importers write to *)
Module cache.

(** The parts of the surrounding system the importers only call: the
    content hash of an operation, the validation done when an operation
    or an identity is created, the storage write of a commit, and
    [text.Cleanup].  They are not in the sources under study and are
    taken as parameters. *)
Class Externals : Type := mkExternals {
  opHash : bug.Operation → Hash;
  opValidate : bug.Operation → option error;
  identityId : string → string → string → string → gmap string string → string;
  identityValidate : string → string → string → string → option error;
  commitError : list bug.Operation → option error;
  text_Cleanup : string → error + string
}.

(** One bug: its identifier and its operation log, oldest first. *)
Record Bug : Type := mkBug {
  bugId : string;
  ops : list bug.Operation
}.

Record RepoCache : Type := mkRepoCache {
  identities : list identity.Interface;
  bugs : list Bug
}.

(** A [*cache.BugCache]: [None] is the nil pointer, [Some i] points to
    the [i]-th bug of the repository. *)
Definition BugCache : Type := option nat.

Definition setBugs (r : RepoCache) (l : list Bug) : RepoCache :=
  mkRepoCache (identities r) l.

Definition setIdentities (r : RepoCache) (l : list identity.Interface) : RepoCache :=
  mkRepoCache l (bugs r).

Definition holds (key value : string) (m : gmap string string) : Prop :=
  m !! key = Some value.

Global Instance holds_dec key value m : Decision (holds key value m).
Proof. unfold holds. apply _. Defined.

Definition createHolds (key value : string) (b : Bug) : Prop :=
  match ops b with
  | op :: _ => holds key value (bug.Metadata op)
  | [] => False
  end.

Global Instance createHolds_dec key value b : Decision (createHolds key value b).
Proof. unfold createHolds. destruct (ops b); apply _. Defined.

Section WithExternals.
Context `{Externals}.

(** Modelled from the spec: [ResolveCreateByMetadata] (cache, not in
    the sources) returns the entity whose creation operation carries
    the metadata, or the distinguished [NotExist] outcome. *)
Definition ResolveBugCreateMetadata (r : RepoCache) (key value : string)
  : BugCache * option error :=
  match list_find (createHolds key value) (bugs r) with
  | Some (i, _) => (Some i, None)
  | None => (None, Some ErrBugNotExist)
  end.

(** Modelled from the spec: [ResolveOperationByMetadata] (cache, not in
    the sources) returns the hash of the operation of this log that
    carries the metadata, or [NoMatchingOp]; the hash is empty on
    failure, as a Go zero value. *)
Definition resolveOperation (l : list bug.Operation) (key value : string)
  : Hash * option error :=
  match list_find (λ op, holds key value (bug.Metadata op)) l with
  | Some (_, op) => (opHash op, None)
  | None => ("", Some ErrNoMatchingOp)
  end.

(** Modelled from the spec: [ResolveByMetadata] of the identity registry
    (cache, not in the sources): the identity holding (key, value),
    [NotFound] if there is none, [AmbiguousMatch] if several do. *)
Definition ResolveIdentityImmutableMetadata (r : RepoCache) (key value : string)
  : error + identity.Interface :=
  match filter (λ i, holds key value (identity.ImmutableMetadata i)) (identities r) with
  | [] => inl ErrIdentityNotExist
  | [i] => inr i
  | l => inl (ErrMultipleMatch (map identity.Id l))
  end.

(** Modelled from the spec: [EnsureIdentity]'s creation half (cache, not
    in the sources): a new identity with the metadata attached at
    creation. *)
Definition NewIdentityRaw (r : RepoCache)
    (name email login avatarUrl : string) (metadata : gmap string string)
  : RepoCache * (error + identity.Interface) :=
  match identityValidate name email login avatarUrl with
  | Some e => (r, inl e)
  | None =>
      let i := identity.mkIdentity
                 (identityId name email login avatarUrl metadata)
                 name email login avatarUrl metadata in
      (setIdentities r (identities r ++ [i]), inr i)
  end.

(** Modelled from the spec: [CreateEntity] (cache, not in the sources)
    appends the creation operation of a new log, or fails with
    [InvalidInput]; the entity's identity is the hash of that
    operation.  The result points to the new bug. *)
Definition NewBugRaw (r : RepoCache) (author : identity.Interface)
    (unixTime : Z) (title message : string) (metadata : gmap string string)
  : RepoCache * (error + nat) :=
  let op := bug.mkOperation (identity.Id author) unixTime
              (bug.CreateOp title message) metadata in
  match opValidate op with
  | Some e => (r, inl e)
  | None =>
      (setBugs r (bugs r ++ [mkBug (opHash op) [op]]), inr (length (bugs r)))
  end.

(** Modelled from the spec: [Append] (cache, not in the sources) appends
    exactly one operation to the log, or fails and appends nothing. *)
Definition appendOp (op : bug.Operation) (r : RepoCache) (i : nat) (b : Bug)
  : RepoCache * (error + bug.Operation) :=
  match opValidate op with
  | Some e => (r, inl e)
  | None =>
      (setBugs r (<[i := mkBug (bugId b) (ops b ++ [op])]> (bugs r)), inr op)
  end.

(** Modelled from the spec: [Hash(operation)] (bug, not in the sources)
    is a total function of the operation's content. *)
Definition Operation_Hash (op : bug.Operation) : error + Hash :=
  inr (opHash op).

(** Modelled from the spec: the comments of the snapshot replayed from a
    log (bug, not in the sources): one comment per creation or
    add-comment operation, named by the operation's hash; an edit
    replaces the message of its target. *)
Definition applyComment (cs : list bug.Comment) (op : bug.Operation)
  : list bug.Comment :=
  match bug.payload op with
  | bug.CreateOp _ m => cs ++ [bug.mkComment (opHash op) m]
  | bug.AddCommentOp m => cs ++ [bug.mkComment (opHash op) m]
  | bug.EditCommentOp target m =>
      map (λ c, if String.eqb (bug.commentId c) target
                then bug.mkComment (bug.commentId c) m else c) cs
  | _ => cs
  end.

Definition SnapshotComments (b : Bug) : list bug.Comment :=
  fold_left applyComment (ops b) [].

(** Modelled from the spec: [SearchComment] of a snapshot (bug, not in
    the sources): the comment with this id, or an error. *)
Fixpoint SearchComment (cs : list bug.Comment) (hash : Hash)
  : option bug.Comment * option error :=
  match cs with
  | [] => (None, Some (ErrOther "comment item not found"))
  | c :: rest =>
      if String.eqb (bug.commentId c) hash then (Some c, None)
      else SearchComment rest hash
  end.

End WithExternals.

End cache.


(** ** The importer's goroutine as a state and error monad *)

(** How a Go call ends: a normal return, a returned error, or a panic. *)
Inductive Outcome (A : Type) : Type :=
| Ok (a : A)
| Fail (e : error)
| Panic (msg : string).
Arguments Ok {A} a.
Arguments Fail {A} e.
Arguments Panic {A} msg.

(** What a run changes: the repository, the results sent on the [out]
    channel so far (oldest first), and the importer's two counters. *)
Record World : Type := mkWorld {
  repo : cache.RepoCache;
  out : list core.ImportResult;
  importedIssues : Z;
  importedIdentities : Z
}.

Definition setRepo (w : World) (r : cache.RepoCache) : World :=
  mkWorld r (out w) (importedIssues w) (importedIdentities w).

Definition M (A : Type) : Type := World → Outcome A * World.

Definition ret {A} (a : A) : M A := λ w, (Ok a, w).

Definition bind {A B} (m : M A) (k : A → M B) : M B :=
  λ w, match m w with
       | (Ok a, w') => k a w'
       | (Fail e, w') => (Fail e, w')
       | (Panic msg, w') => (Panic msg, w')
       end.

Notation "'let*' x ':=' m 'in' k" := (bind m (λ x, k))
  (at level 10, x pattern, m at level 100, k at level 200).
Notation "m ;; k" := (bind m (λ _, k))
  (at level 100, k at level 200, right associativity).

(** [return err] with a non-nil error. *)
Definition fail {A} (e : error) : M A := λ w, (Fail e, w).

Definition panic {A} (msg : string) : M A := λ w, (Panic msg, w).

(** [v, err := f(...)] seen from the caller of a function of the sources. *)
Definition try {A} (m : M A) : M (error + A) :=
  λ w, match m w with
       | (Ok a, w') => (Ok (inr a), w')
       | (Fail e, w') => (Ok (inl e), w')
       | (Panic msg, w') => (Panic msg, w')
       end.

(** [out <- r] *)
Definition emit (r : core.ImportResult) : M unit :=
  λ w, (Ok tt, mkWorld (repo w) (out w ++ [r]) (importedIssues w) (importedIdentities w)).

(** [gi.importedIssues++] and [gi.importedIdentities++] *)
Definition incrImportedIssues : M unit :=
  λ w, (Ok tt, mkWorld (repo w) (out w) (importedIssues w + 1) (importedIdentities w)).

Definition incrImportedIdentities : M unit :=
  λ w, (Ok tt, mkWorld (repo w) (out w) (importedIssues w) (importedIdentities w + 1)).

(** A call that reads the repository, and one that may also write it. *)
Definition readRepo {A} (f : cache.RepoCache → A) : M A :=
  λ w, (Ok (f (repo w)), w).

Definition onRepo {A} (f : cache.RepoCache → cache.RepoCache * A) : M A :=
  λ w, let '(r, a) := f (repo w) in (Ok a, setRepo w r).

(** Modelled from the spec: a method of an entity handle
    ([*cache.BugCache], not in the sources) acts on the entity behind the
    handle; on a nil handle there is none to read, which is a
    nil-pointer panic. *)
Definition onBug {A} (b : cache.BugCache)
    (f : cache.RepoCache → nat → cache.Bug → cache.RepoCache * A) : M A :=
  λ w, match b with
       | None => (Panic "nil pointer dereference", w)
       | Some i =>
           match cache.bugs (repo w) !! i with
           | None => (Panic "dangling bug pointer", w)
           | Some bg => let '(r, a) := f (repo w) i bg in (Ok a, setRepo w r)
           end
       end.

(** [return err] in a function whose only result is an error: a nil
    [err] is the normal return. *)
Definition returnErr (err : option error) : M unit :=
  match err with
  | Some e => fail e
  | None => ret tt
  end.

(** Where the goroutine stands after a statement: it goes on, or it has
    executed [return]. *)
Inductive Flow : Type := Continue | Return.

Section CacheCalls.
Context `{cache.Externals}.

Definition ResolveBugCreateMetadata (key value : string)
  : M (cache.BugCache * option error) :=
  readRepo (λ r, cache.ResolveBugCreateMetadata r key value).

Definition ResolveIdentityImmutableMetadata (key value : string)
  : M (error + identity.Interface) :=
  readRepo (λ r, cache.ResolveIdentityImmutableMetadata r key value).

Definition NewIdentityRaw (name email login avatarUrl : string)
    (metadata : gmap string string) : M (error + identity.Interface) :=
  onRepo (λ r, cache.NewIdentityRaw r name email login avatarUrl metadata).

(** The [files] argument is nil at every call and is left out. *)
Definition NewBugRaw (author : identity.Interface) (unixTime : Z)
    (title message : string) (metadata : gmap string string)
  : M (error + nat) :=
  onRepo (λ r, cache.NewBugRaw r author unixTime title message metadata).

(** Modelled from the spec: [Id] of an entity handle (cache, not in the
    sources) is the identity of the entity. *)
Definition BugCache_Id (b : cache.BugCache) : M string :=
  onBug b (λ r _ bg, (r, cache.bugId bg)).

Definition ResolveOperationWithMetadata (b : cache.BugCache) (key value : string)
  : M (Hash * option error) :=
  onBug b (λ r _ bg, (r, cache.resolveOperation (cache.ops bg) key value)).

Definition rawOp (b : cache.BugCache) (author : identity.Interface)
    (unixTime : Z) (p : bug.Payload) (metadata : gmap string string)
  : M (error + bug.Operation) :=
  onBug b (cache.appendOp (bug.mkOperation (identity.Id author) unixTime p metadata)).

Definition AddCommentRaw b author unixTime (message : string) metadata :=
  rawOp b author unixTime (bug.AddCommentOp message) metadata.

Definition EditCommentRaw b author unixTime (target : Hash) (message : string) metadata :=
  rawOp b author unixTime (bug.EditCommentOp target message) metadata.

Definition CloseRaw b author unixTime metadata :=
  rawOp b author unixTime (bug.SetStatusOp bug.ClosedStatus) metadata.

Definition OpenRaw b author unixTime metadata :=
  rawOp b author unixTime (bug.SetStatusOp bug.OpenStatus) metadata.

Definition SetTitleRaw b author unixTime (title : string) metadata :=
  rawOp b author unixTime (bug.SetTitleOp title) metadata.

Definition ForceChangeLabelsRaw b author unixTime (added removed : list string) metadata :=
  rawOp b author unixTime (bug.LabelChangeOp added removed) metadata.

(** [b.Snapshot().Comments] *)
Definition Snapshot_Comments (b : cache.BugCache) : M (list bug.Comment) :=
  onBug b (λ r _ bg, (r, cache.SnapshotComments bg)).

(** Modelled from the spec: [FlushIfDirty] (cache, not in the sources)
    writes the pending operations of the log; the appended operations
    are already part of the log, a storage failure is reported. *)
Definition CommitAsNeeded (b : cache.BugCache) : M (option error) :=
  onBug b (λ r _ bg, (r, cache.commitError (cache.ops bg))).

(** [text.Cleanup(s)] followed by [if err != nil { return err }] *)
Definition Cleanup (s : string) : M string :=
  match cache.text_Cleanup s with
  | inl e => fail e
  | inr clean => ret clean
  end.

(** [op.Hash()] followed by [if err != nil { return err }] *)
Definition HashOf (op : bug.Operation) : M Hash :=
  match cache.Operation_Hash op with
  | inl e => fail e
  | inr h => ret h
  end.

(** [*p] for a pointer to a string. *)
Definition deref (p : option string) : M string :=
  match p with
  | Some s => ret s
  | None => panic "nil pointer dereference"
  end.

End CacheCalls.


(** ** Package bridge/github *)
Module github.

Definition keyOrigin : string := "origin".
Definition keyGithubId : string := "github-id".
Definition keyGithubUrl : string := "github-url".
Definition keyGithubLogin : string := "github-login".

(** The bridge's target name; the constant is declared outside the
    sources under study. *)
Definition target : string := "github".

(** The records of the GraphQL answers, as [import.go] reads them.  A
    [githubv4.DateTime] is kept as its [Unix()] value, a [githubv4.ID]
    as the string that [parseId] prints. *)
Record actor : Type := mkActor {
  Typename : string;
  Login : string;
  AvatarUrl : string;
  UserName : option string;
  UserEmail : string;
  OrganizationName : option string;
  OrganizationEmail : option string
}.

Record userContentEdit : Type := mkEdit {
  edit_Id : string;
  edit_CreatedAt : Z;
  Editor : option actor;
  DeletedAt : option Z;
  Diff : option string
}.

Record issueComment : Type := mkIssueComment {
  comment_Id : string;
  comment_CreatedAt : Z;
  comment_Author : option actor;
  comment_Body : string;
  comment_Url : string;
  comment_Edits : list userContentEdit
}.

Record actorEvent : Type := mkActorEvent {
  event_Id : string;
  event_CreatedAt : Z;
  Actor : option actor
}.

Record labelEvent : Type := mkLabelEvent {
  label_Event : actorEvent;
  Label_Name : string
}.

Record renamedTitleEvent : Type := mkRenamedTitleEvent {
  renamed_Event : actorEvent;
  CurrentTitle : string;
  PreviousTitle : string
}.

(** One struct with a type tag and one field per kind of event, as in
    the source; only the field named by the tag is meaningful. *)
Record timelineItem : Type := mkTimelineItem {
  item_Typename : string;
  IssueComment : issueComment;
  LabeledEvent : labelEvent;
  UnlabeledEvent : labelEvent;
  ClosedEvent : actorEvent;
  ReopenedEvent : actorEvent;
  RenamedTitleEvent : renamedTitleEvent
}.

Record issueTimeline : Type := mkIssueTimeline {
  issue_Id : string;
  issue_CreatedAt : Z;
  issue_Author : option actor;
  issue_Title : string;
  issue_Body : string;
  issue_Url : string;
  Timeline : list timelineItem;
  issue_Edits : list userContentEdit
}.

(** What the iterator yields during one run: the issues in order (each
    with its timeline items and edits, which the nested [Next...] calls
    walk), and the value of [Error()] once [NextIssue] has returned
    false. *)
Record iterator : Type := mkIterator {
  Issues : list issueTimeline;
  Error : option error
}.

(** The answer to the query for the "ghost" user. *)
Record ghostUser : Type := mkGhostUser {
  ghost_Name : option string;
  ghost_Login : string;
  ghost_AvatarUrl : string
}.

(** Go zero values, for the fields of a timeline item its tag does not
    name. *)
Definition noActorEvent : actorEvent := mkActorEvent "" 0 None.
Definition noLabelEvent : labelEvent := mkLabelEvent noActorEvent "".
Definition noRenamedTitleEvent : renamedTitleEvent :=
  mkRenamedTitleEvent noActorEvent "" "".
Definition noIssueComment : issueComment := mkIssueComment "" 0 None "" "" [].

(** [fmt.Sprintf("%v", id)] *)
Definition parseId (id : string) : string := id.

Definition newline : string := String (Ascii.ascii_of_nat 10) EmptyString.

Section Importer.
Context `{cache.Externals}.
(** [gc.Query(ctx, &q, variables)] for the ghost user. *)
Variable queryGhost : error + ghostUser.

Definition getGhost : M identity.Interface :=
  let* r := ResolveIdentityImmutableMetadata keyGithubLogin "ghost" in
  match r with
  | inr i => ret i
  | inl err =>
      if isErrMultipleMatch err then fail err
      else
        match queryGhost with
        | inl err => fail err
        | inr q =>
            let name := match ghost_Name q with Some n => n | None => "" end in
            let* r := NewIdentityRaw name "" (ghost_Login q) (ghost_AvatarUrl q)
                        {[ keyGithubLogin := ghost_Login q ]} in
            match r with
            | inl err => fail err
            | inr i => ret i
            end
        end
  end.

(** [ensurePerson] create a bug.Person from the Github data *)
Definition ensurePerson (a : option actor) : M identity.Interface :=
  match a with
  | None => getGhost
  | Some actor =>
      let* r := ResolveIdentityImmutableMetadata keyGithubLogin (Login actor) in
      match r with
      | inr i => ret i
      | inl err =>
          if isErrMultipleMatch err then fail err
          else
            incrImportedIdentities ;;
            let (name, email) :=
              if String.eqb (Typename actor) "User" then
                (match UserName actor with Some n => n | None => "" end,
                 UserEmail actor)
              else if String.eqb (Typename actor) "Organization" then
                (match OrganizationName actor with Some n => n | None => "" end,
                 match OrganizationEmail actor with Some e => e | None => "" end)
              else ("", "") in
            let* r := NewIdentityRaw name email (Login actor) (AvatarUrl actor)
                        {[ keyGithubLogin := Login actor ]} in
            match r with
            | inl err => fail err
            | inr i => emit (core.NewImportIdentity (identity.Id i)) ;; ret i
            end
      end
  end.

Definition ensureCommentEdit (b : cache.BugCache) (target : Hash)
    (edit : userContentEdit) : M unit :=
  let* (_, err) := ResolveOperationWithMetadata b keyGithubId (parseId (edit_Id edit)) in
  match err with
  | None => emit (core.NewImportNothing "" "edition already imported") ;; ret tt
  | Some e =>
      if bool_decide (e ≠ ErrNoMatchingOp) then fail e
      else
        let* editor := ensurePerson (Editor edit) in
        match DeletedAt edit with
        | Some _ =>
            emit (core.NewImportNothing ""
                    ("comment deletion is not supported yet" +:+ newline)) ;;
            ret tt
        | None =>
            let* diff := deref (Diff edit) in
            let* cleanText := Cleanup diff in
            let* r := EditCommentRaw b editor (edit_CreatedAt edit) target cleanText
                        {[ keyGithubId := parseId (edit_Id edit) ]} in
            match r with
            | inl err => fail err
            | inr op =>
                let* target := HashOf op in
                emit (core.NewImportCommentEdition target) ;; ret tt
            end
        end
  end.

(** The [else] branch of [ensureIssue]: the loop over the issue's edits,
    [i] the index of the edit at the head, [b] the bug variable. *)
Fixpoint ensureIssue_edits (issue : issueTimeline) (author : identity.Interface)
    (i : nat) (issueEdits : list userContentEdit) (b : cache.BugCache)
  : M cache.BugCache :=
  match issueEdits with
  | [] => ret b
  | edit :: rest =>
      if bool_decide (i = 0%nat) && bool_decide (b ≠ None) then
        emit (core.NewImportNothing "" "bug already imported") ;;
        ensureIssue_edits issue author (S i) rest b
      else
        let* diff := deref (Diff edit) in
        let* cleanText := Cleanup diff in
        if bool_decide (b = None) then
          let* r := NewBugRaw author (issue_CreatedAt issue) (issue_Title issue)
                      cleanText
                      (<[ keyOrigin := target ]>
                         (<[ keyGithubId := parseId (issue_Id issue) ]>
                            {[ keyGithubUrl := issue_Url issue ]})) in
          match r with
          | inl err => fail err
          | inr i' =>
              let b := Some i' in
              incrImportedIssues ;;
              let* id := BugCache_Id b in
              emit (core.NewImportBug id) ;;
              ensureIssue_edits issue author (S i) rest b
          end
        else
          let* (target, err) :=
            ResolveOperationWithMetadata b keyGithubUrl (issue_Url issue) in
          match err with
          | Some e => fail e
          | None =>
              ensureCommentEdit b target edit ;;
              emit (core.NewImportCommentEdition target) ;;
              ensureIssue_edits issue author (S i) rest b
          end
  end.

Definition ensureIssue (issue : issueTimeline) : M cache.BugCache :=
  let* author := ensurePerson (issue_Author issue) in
  let* (b, err) := ResolveBugCreateMetadata keyGithubUrl (issue_Url issue) in
  if bool_decide (err ≠ None) && bool_decide (err ≠ Some ErrBugNotExist) then
    match err with Some e => fail e | None => ret None end
  else
    let issueEdits := issue_Edits issue in
    if bool_decide (length issueEdits = 0%nat) then
      if bool_decide (err = Some ErrBugNotExist) then
        let* cleanText := Cleanup (issue_Body issue) in
        let* r := NewBugRaw author (issue_CreatedAt issue) (issue_Title issue)
                    cleanText
                    (<[ keyOrigin := target ]>
                       (<[ keyGithubId := parseId (issue_Id issue) ]>
                          {[ keyGithubUrl := issue_Url issue ]})) in
        match r with
        | inl err => fail err
        | inr i =>
            let b := Some i in
            let* id := BugCache_Id b in
            emit (core.NewImportBug id) ;;
            incrImportedIssues ;;
            ret b
        end
      else
        emit (core.NewImportNothing "" "bug already imported") ;;
        ret b
    else
      ensureIssue_edits issue author 0 issueEdits b.

(** The [else] branch of [ensureTimelineComment]: the loop over the
    comment's edits, [target] the hash variable. *)
Fixpoint ensureTimelineComment_edits (b : cache.BugCache) (item : issueComment)
    (i : nat) (edits : list userContentEdit) (target : Hash) : M unit :=
  match edits with
  | [] => ret tt
  | edit :: rest =>
      if bool_decide (i = 0%nat) && bool_decide (target ≠ "") then
        emit (core.NewImportNothing "" "comment already imported") ;;
        ensureTimelineComment_edits b item (S i) rest target
      else
        let* editor := ensurePerson (Editor edit) in
        if bool_decide (target = "") then
          let* diff := deref (Diff edit) in
          let* cleanText := Cleanup diff in
          let* r := AddCommentRaw b editor (edit_CreatedAt edit) cleanText
                      (<[ keyGithubId := parseId (comment_Id item) ]>
                         {[ keyGithubUrl := comment_Url item ]}) in
          match r with
          | inl err => fail err
          | inr op =>
              let* target := HashOf op in
              emit (core.NewImportComment target) ;;
              ensureTimelineComment_edits b item (S i) rest target
          end
        else
          ensureCommentEdit b target edit ;;
          ensureTimelineComment_edits b item (S i) rest target
  end.

Definition ensureTimelineComment (b : cache.BugCache) (item : issueComment)
    (edits : list userContentEdit) : M unit :=
  let* author := ensurePerson (comment_Author item) in
  let* (target, err) :=
    ResolveOperationWithMetadata b keyGithubId (parseId (comment_Id item)) in
  (if bool_decide (err = None)
   then emit (core.NewImportNothing "" "comment already imported")
   else ret tt) ;;
  if bool_decide (err ≠ None) && bool_decide (err ≠ Some ErrNoMatchingOp) then
    match err with Some e => fail e | None => ret tt end
  else
    if bool_decide (length edits = 0%nat) then
      if bool_decide (err = Some ErrNoMatchingOp) then
        let* cleanText := Cleanup (comment_Body item) in
        let* r := AddCommentRaw b author (comment_CreatedAt item) cleanText
                    (<[ keyGithubId := parseId (comment_Id item) ]>
                       {[ keyGithubUrl := parseId (comment_Url item) ]}) in
        match r with
        | inl err => fail err
        | inr op =>
            let* hash := HashOf op in
            emit (core.NewImportComment hash) ;; ret tt
        end
      else
        emit (core.NewImportNothing "" "comment already imported") ;; ret tt
    else
      ensureTimelineComment_edits b item 0 edits target.

Definition ensureTimelineItem (b : cache.BugCache) (item : timelineItem) : M unit :=
  if String.eqb (item_Typename item) "IssueComment" then
    let commentEdits := comment_Edits (IssueComment item) in
    let* r := try (ensureTimelineComment b (IssueComment item) commentEdits) in
    match r with
    | inl err => fail (Errorf "timeline comment creation: %v" err)
    | inr _ => ret tt
    end

  else if String.eqb (item_Typename item) "LabeledEvent" then
    let ev := LabeledEvent item in
    let id := parseId (event_Id (label_Event ev)) in
    let* (_, err) := ResolveOperationWithMetadata b keyGithubId id in
    if bool_decide (err = None) then
      emit (core.NewImportNothing ""
              ("operation already imported: " +:+ item_Typename item)) ;;
      ret tt
    else if bool_decide (err ≠ Some ErrNoMatchingOp) then returnErr err
    else
      let* author := ensurePerson (Actor (label_Event ev)) in
      let* r := ForceChangeLabelsRaw b author (event_CreatedAt (label_Event ev))
                  [Label_Name ev] [] {[ keyGithubId := id ]} in
      match r with
      | inl err => fail err
      | inr op =>
          let* hash := HashOf op in
          emit (core.NewImportLabelChange hash) ;; ret tt
      end

  else if String.eqb (item_Typename item) "UnlabeledEvent" then
    let ev := UnlabeledEvent item in
    let id := parseId (event_Id (label_Event ev)) in
    let* (_, err) := ResolveOperationWithMetadata b keyGithubId id in
    if bool_decide (err = None) then
      emit (core.NewImportNothing ""
              ("operation already imported: " +:+ item_Typename item)) ;;
      ret tt
    else if bool_decide (err ≠ Some ErrNoMatchingOp) then returnErr err
    else
      let* author := ensurePerson (Actor (label_Event ev)) in
      let* r := ForceChangeLabelsRaw b author (event_CreatedAt (label_Event ev))
                  [] [Label_Name ev] {[ keyGithubId := id ]} in
      match r with
      | inl err => fail err
      | inr op =>
          let* hash := HashOf op in
          emit (core.NewImportLabelChange hash) ;; ret tt
      end

  else if String.eqb (item_Typename item) "ClosedEvent" then
    let ev := ClosedEvent item in
    let id := parseId (event_Id ev) in
    let* (_, err) := ResolveOperationWithMetadata b keyGithubId id in
    if bool_decide (err ≠ Some ErrNoMatchingOp) then returnErr err
    else if bool_decide (err = None) then
      emit (core.NewImportNothing ""
              ("operation already imported: " +:+ item_Typename item)) ;;
      ret tt
    else
      let* author := ensurePerson (Actor ev) in
      let* r := CloseRaw b author (event_CreatedAt ev) {[ keyGithubId := id ]} in
      match r with
      | inl err => fail err
      | inr op =>
          let* hash := HashOf op in
          emit (core.NewImportStatusChange hash) ;; ret tt
      end

  else if String.eqb (item_Typename item) "ReopenedEvent" then
    let ev := ReopenedEvent item in
    let id := parseId (event_Id ev) in
    let* (_, err) := ResolveOperationWithMetadata b keyGithubId id in
    if bool_decide (err ≠ Some ErrNoMatchingOp) then returnErr err
    else if bool_decide (err = None) then
      emit (core.NewImportNothing ""
              ("operation already imported: " +:+ item_Typename item)) ;;
      ret tt
    else
      let* author := ensurePerson (Actor ev) in
      let* r := OpenRaw b author (event_CreatedAt ev) {[ keyGithubId := id ]} in
      match r with
      | inl err => fail err
      | inr op =>
          let* hash := HashOf op in
          emit (core.NewImportStatusChange hash) ;; ret tt
      end

  else if String.eqb (item_Typename item) "RenamedTitleEvent" then
    let ev := RenamedTitleEvent item in
    let id := parseId (event_Id (renamed_Event ev)) in
    let* (_, err) := ResolveOperationWithMetadata b keyGithubId id in
    if bool_decide (err ≠ Some ErrNoMatchingOp) then returnErr err
    else if bool_decide (err = None) then
      emit (core.NewImportNothing ""
              ("operation already imported: " +:+ item_Typename item)) ;;
      ret tt
    else
      let* author := ensurePerson (Actor (renamed_Event ev)) in
      let* r := SetTitleRaw b author (event_CreatedAt (renamed_Event ev))
                  (CurrentTitle ev) {[ keyGithubId := id ]} in
      match r with
      | inl err => fail err
      | inr op =>
          let* hash := HashOf op in
          emit (core.NewImportTitleEdition hash) ;; ret tt
      end

  else
    emit (core.NewImportNothing ""
            ("ignoring timeline type: " +:+ item_Typename item)) ;;
    ret tt.

(** [for gi.iterator.NextTimelineItem() { ... }] inside [ImportAll] *)
Fixpoint timelineLoop (b : cache.BugCache) (items : list timelineItem) : M Flow :=
  match items with
  | [] => ret Continue
  | item :: rest =>
      let* r := try (ensureTimelineItem b item) in
      match r with
      | inl err =>
          emit (core.NewImportError
                  (Some (Errorf "timeline item creation: %v" err)) "") ;;
          ret Return
      | inr _ => timelineLoop b rest
      end
  end.

(** The [default:] clause of the [select]: one issue. *)
Definition importIssue (issue : issueTimeline) : M Flow :=
  let* r := try (ensureIssue issue) in
  match r with
  | inl err =>
      emit (core.NewImportError (Some (Errorf "issue creation: %v" err)) "") ;;
      ret Return
  | inr b =>
      let* f := timelineLoop b (Timeline issue) in
      match f with
      | Return => ret Return
      | Continue =>
          let* err := CommitAsNeeded b in
          match err with
          | Some err =>
              emit (core.NewImportError (Some (Errorf "bug commit: %v" err)) "") ;;
              ret Return
          | None => ret Continue
          end
      end
  end.

(** [for gi.iterator.NextIssue() { select { ... } }]; [n] counts the
    polls of [ctx.Done()] made so far. *)
Fixpoint issueLoop (ctx : context.Context) (n : nat) (issues : list issueTimeline)
  : M Flow :=
  match issues with
  | [] => ret Continue
  | issue :: rest =>
      if context.Done ctx n then
        emit (core.NewImportError (Some (context.Err ctx)) "") ;;
        ret Return
      else
        let* f := importIssue issue in
        match f with
        | Return => ret Return
        | Continue => issueLoop ctx (S n) rest
        end
  end.

(** The body of the goroutine started by [ImportAll]. *)
Definition goroutine (ctx : context.Context) (it : iterator) : M Flow :=
  let* f := issueLoop ctx 0 (Issues it) in
  match f with
  | Return => ret Return
  | Continue =>
      match Error it with
      | Some err =>
          emit (core.NewImportError (Some (Errorf "bug commit: %v" err)) "") ;;
          ret Return
      | None => ret Return
      end
  end.

(** [ImportAll]: the run of the goroutine on a fresh channel.  The
    result is how the goroutine ended and the world it leaves; the
    stream the caller reads is [out] of that world. *)
Definition ImportAll (ctx : context.Context) (r : cache.RepoCache) (it : iterator)
  : Outcome Flow * World :=
  goroutine ctx it (mkWorld r [] 0 0).

End Importer.

End github.


(** ** Package bridge/gitlab *)
Module gitlab.

(** The metadata and configuration keys and the bridge's target name are
    declared outside the sources under study; they are named after the
    GitHub bridge's. *)
Definition keyGitlabId : string := "gitlab-id".
Definition keyGitlabUrl : string := "gitlab-url".
Definition keyGitlabLogin : string := "gitlab-login".
Definition keyGitlabProject : string := "gitlab-project-id".
Definition keyProjectID : string := "project-id".
Definition target : string := "gitlab".

(** The note types [ensureNote] switches on; [NOTE_unlisted] stands for
    any value outside the named constants. *)
Inductive NoteType : Type :=
| NOTE_UNKNOWN
| NOTE_ASSIGNED
| NOTE_UNASSIGNED
| NOTE_CHANGED_MILESTONE
| NOTE_REMOVED_MILESTONE
| NOTE_CHANGED_DUEDATE
| NOTE_REMOVED_DUEDATE
| NOTE_LOCKED
| NOTE_UNLOCKED
| NOTE_CLOSED
| NOTE_REOPENED
| NOTE_DESCRIPTION_CHANGED
| NOTE_COMMENT
| NOTE_TITLE_CHANGED
| NOTE_unlisted.

(** The records of the go-gitlab client, as [import.go] reads them; a
    [*time.Time] is kept as its [Unix()] value. *)
Record Issue : Type := mkIssue {
  issue_ID : Z;
  issue_AuthorID : Z;
  WebURL : string;
  Description : string;
  Title : string;
  issue_CreatedAt : Z
}.

Record Note : Type := mkNote {
  note_ID : Z;
  note_AuthorID : Z;
  Body : string;
  note_CreatedAt : Z;
  note_UpdatedAt : Z
}.

Record LabelEvent : Type := mkLabelEvent {
  event_ID : Z;
  event_UserID : Z;
  Action : string;
  Label_Name : string;
  event_CreatedAt : Z
}.

Record User : Type := mkUser {
  Name : string;
  PublicEmail : string;
  Username : string;
  AvatarURL : string
}.

(** What the iterator yields for one issue: [IssueValue()], the notes
    and the label events that the nested [Next...] calls walk, and the
    value of [Error()] when the label events are exhausted. *)
Record issueCursor : Type := mkIssueCursor {
  IssueValue : Issue;
  Notes : list Note;
  LabelEvents : list LabelEvent;
  Error : option error
}.

Definition iterator : Type := list issueCursor.

(** [fmt.Sprintf("%d", id)], which is also [strconv.Itoa(id)] *)
Definition parseID (id : Z) : string := pretty id.

Section Importer.
Context `{cache.Externals}.
(** [gi.conf] *)
Variable conf : gmap string string.
(** [GetNoteType] and the printing of a note type by [%v], both
    declared outside the sources under study. *)
Variable GetNoteType : Note → NoteType * string.
Variable NoteType_String : NoteType → string.
(** [client.Users.GetUser(id)] *)
Variable GetUser : Z → error + User.

(** [gi.conf[key]]: a missing key reads as the empty string. *)
Definition confValue (key : string) : string :=
  match conf !! key with Some v => v | None => "" end.

Definition ensurePerson (id : Z) : M identity.Interface :=
  let* r := ResolveIdentityImmutableMetadata keyGitlabId (pretty id) in
  match r with
  | inr i => ret i
  | inl err =>
      if isErrMultipleMatch err then fail err
      else
        match GetUser id with
        | inl err => fail err
        | inr user =>
            let* r := NewIdentityRaw (Name user) (PublicEmail user) (Username user)
                        (AvatarURL user)
                        (<[ keyGitlabId := pretty id ]>
                           {[ keyGitlabLogin := Username user ]}) in
            match r with
            | inl err => fail err
            | inr i => emit (core.NewImportIdentity (identity.Id i)) ;; ret i
            end
        end
  end.

Definition ensureIssue (issue : Issue) : M cache.BugCache :=
  let* author := ensurePerson (issue_AuthorID issue) in
  let* (b, err) := ResolveBugCreateMetadata keyGitlabUrl (WebURL issue) in
  if bool_decide (err ≠ None) && bool_decide (err ≠ Some ErrBugNotExist) then
    match err with Some e => fail e | None => ret None end
  else if bool_decide (err = None) then
    emit (core.NewImportNothing "" "bug already imported") ;;
    ret b
  else
    let* cleanText := Cleanup (Description issue) in
    let* r := NewBugRaw author (issue_CreatedAt issue) (Title issue) cleanText
                (<[ core.KeyOrigin := target ]>
                   (<[ keyGitlabId := parseID (issue_ID issue) ]>
                      (<[ keyGitlabUrl := WebURL issue ]>
                         {[ keyGitlabProject := confValue keyProjectID ]}))) in
    match r with
    | inl err => fail err
    | inr i =>
        let b := Some i in
        incrImportedIssues ;;
        let* id := BugCache_Id b in
        emit (core.NewImportBug id) ;;
        ret b
    end.

(** [issue] is [gi.iterator.IssueValue()], the issue the iterator
    stands on while its notes are walked. *)
Definition ensureNote (issue : Issue) (b : cache.BugCache) (note : Note) : M unit :=
  let id := parseID (note_ID note) in
  let* author := ensurePerson (note_AuthorID note) in
  let (noteType, body) := GetNoteType note in
  match noteType with
  | NOTE_CLOSED =>
      let* r := CloseRaw b author (note_CreatedAt note) {[ keyGitlabId := id ]} in
      match r with
      | inl err => fail err
      | inr op =>
          let* hash := HashOf op in
          emit (core.NewImportStatusChange hash) ;; ret tt
      end

  | NOTE_REOPENED =>
      let* r := OpenRaw b author (note_CreatedAt note) {[ keyGitlabId := id ]} in
      match r with
      | inl err => fail err
      | inr op =>
          let* hash := HashOf op in
          emit (core.NewImportStatusChange hash) ;; ret tt
      end

  | NOTE_DESCRIPTION_CHANGED =>
      let* comments := Snapshot_Comments b in
      match comments with
      | [] => panic "index out of range"
      | firstComment :: _ =>
          if bool_decide (Description issue ≠ bug.Message firstComment) then
            let* r := EditCommentRaw b author (note_UpdatedAt note)
                        (bug.commentId firstComment) (Description issue)
                        {[ keyGitlabId := id ]} in
            match r with
            | inl err => fail err
            | inr op =>
                let* hash := HashOf op in
                emit (core.NewImportTitleEdition hash) ;; ret tt
            end
          else ret tt
      end

  | NOTE_COMMENT =>
      let* (hash, errResolve) := ResolveOperationWithMetadata b keyGitlabId id in
      match errResolve with
      | Some e => fail e
      | None =>
          let* cleanText := Cleanup body in
          if bool_decide (errResolve = Some ErrNoMatchingOp) then
            let* r := AddCommentRaw b author (note_CreatedAt note) cleanText
                        {[ keyGitlabId := id ]} in
            match r with
            | inl err => fail err
            | inr op =>
                let* hash := HashOf op in
                emit (core.NewImportComment hash) ;; ret tt
            end
          else
            let* comments := Snapshot_Comments b in
            match cache.SearchComment comments hash with
            | (_, Some err) => fail err
            | (None, None) => panic "nil pointer dereference"
            | (Some comment, None) =>
                if bool_decide (bug.Message comment ≠ cleanText) then
                  let* r := EditCommentRaw b author (note_UpdatedAt note)
                              (bug.commentId comment) cleanText ∅ in
                  match r with
                  | inl err => fail err
                  | inr op =>
                      let* hash := HashOf op in
                      emit (core.NewImportCommentEdition hash) ;; ret tt
                  end
                else ret tt
            end
      end

  | NOTE_TITLE_CHANGED =>
      let* r := SetTitleRaw b author (note_CreatedAt note) body
                  {[ keyGitlabId := id ]} in
      match r with
      | inl err => fail err
      | inr op =>
          let* hash := HashOf op in
          emit (core.NewImportTitleEdition hash) ;; ret tt
      end

  | NOTE_UNKNOWN
  | NOTE_ASSIGNED
  | NOTE_UNASSIGNED
  | NOTE_CHANGED_MILESTONE
  | NOTE_REMOVED_MILESTONE
  | NOTE_CHANGED_DUEDATE
  | NOTE_REMOVED_DUEDATE
  | NOTE_LOCKED
  | NOTE_UNLOCKED =>
      emit (core.NewImportNothing ""
              ("unsupported note type: " +:+ NoteType_String noteType)) ;;
      ret tt

  | NOTE_unlisted => panic "unhandled note type"
  end.

Definition ensureLabelEvent (b : cache.BugCache) (labelEvent : LabelEvent) : M unit :=
  let* (_, err) :=
    ResolveOperationWithMetadata b keyGitlabId (parseID (event_ID labelEvent)) in
  if bool_decide (err ≠ Some ErrNoMatchingOp) then returnErr err
  else
    let* author := ensurePerson (event_UserID labelEvent) in
    if String.eqb (Action labelEvent) "add" then
      let* r := ForceChangeLabelsRaw b author (event_CreatedAt labelEvent)
                  [Label_Name labelEvent] []
                  {[ keyGitlabId := parseID (event_ID labelEvent) ]} in
      returnErr (match r with inl err => Some err | inr _ => None end)
    else if String.eqb (Action labelEvent) "remove" then
      let* r := ForceChangeLabelsRaw b author (event_CreatedAt labelEvent)
                  [] [Label_Name labelEvent]
                  {[ keyGitlabId := parseID (event_ID labelEvent) ]} in
      returnErr (match r with inl err => Some err | inr _ => None end)
    else
      returnErr (Some (ErrOther "unexpected label event action")).

(** [for gi.iterator.NextNote() { ... }] inside [ImportAll] *)
Fixpoint noteLoop (issue : Issue) (b : cache.BugCache) (notes : list Note) : M Flow :=
  match notes with
  | [] => ret Continue
  | note :: rest =>
      let* r := try (ensureNote issue b note) in
      match r with
      | inl err =>
          emit (core.NewImportError (Some (Errorf "note creation: %v" err))
                  (pretty (note_ID note))) ;;
          ret Return
      | inr _ => noteLoop issue b rest
      end
  end.

(** [for gi.iterator.NextLabelEvent() { ... }] inside [ImportAll] *)
Fixpoint labelEventLoop (b : cache.BugCache) (events : list LabelEvent) : M Flow :=
  match events with
  | [] => ret Continue
  | labelEvent :: rest =>
      let* r := try (ensureLabelEvent b labelEvent) in
      match r with
      | inl err =>
          emit (core.NewImportError (Some (Errorf "label event creation: %v" err))
                  (pretty (event_ID labelEvent))) ;;
          ret Return
      | inr _ => labelEventLoop b rest
      end
  end.

(** The [default:] clause of the [select]: one issue.  When
    [ensureIssue] fails its bug result is nil, and the error result is
    built from [b.Id()]. *)
Definition importIssue (c : issueCursor) : M Flow :=
  let issue := IssueValue c in
  let* r := try (ensureIssue issue) in
  match r with
  | inl err =>
      let b : cache.BugCache := None in
      let* id := BugCache_Id b in
      emit (core.NewImportError (Some (Errorf "issue creation: %v" err)) id) ;;
      ret Return
  | inr b =>
      let* f := noteLoop issue b (Notes c) in
      match f with
      | Return => ret Return
      | Continue =>
          let* f := labelEventLoop b (LabelEvents c) in
          match f with
          | Return => ret Return
          | Continue =>
              match Error c with
              | Some err =>
                  emit (core.NewImportError
                          (Some (Errorf "import error: %v" err)) "") ;;
                  ret Return
              | None =>
                  let* err := CommitAsNeeded b in
                  match err with
                  | Some err =>
                      emit (core.NewImportError
                              (Some (Errorf "bug commit: %v" err)) "") ;;
                      ret Return
                  | None => ret Continue
                  end
              end
          end
      end
  end.

(** [for gi.iterator.NextIssue() { ... select { ... } }]; [n] counts
    the polls of [ctx.Done()] made so far. *)
Fixpoint issueLoop (ctx : context.Context) (n : nat) (issues : iterator) : M Flow :=
  match issues with
  | [] => ret Continue
  | c :: rest =>
      if context.Done ctx n then
        emit (core.NewImportError (Some (context.Err ctx)) "") ;;
        ret Return
      else
        let* f := importIssue c in
        match f with
        | Return => ret Return
        | Continue => issueLoop ctx (S n) rest
        end
  end.

(** [ImportAll]: the run of the goroutine on a fresh channel; the
    stream the caller reads is [out] of the resulting world. *)
Definition ImportAll (ctx : context.Context) (r : cache.RepoCache) (it : iterator)
  : Outcome Flow * World :=
  issueLoop ctx 0 it (mkWorld r [] 0 0).

End Importer.

End gitlab.

(** ** Package bridge/launchpad *)
Module launchpad.

Definition keyLaunchpadID : string := "launchpad-id".
Definition keyLaunchpadLogin : string := "launchpad-login".

(** The records of the Launchpad client, as [import.go] reads them. *)
Record LPPerson : Type := mkLPPerson {
  Name : string;
  Login : string
}.

Record LPMessage : Type := mkLPMessage {
  message_ID : string;
  Content : string;
  message_CreatedAt : string;
  message_Owner : LPPerson
}.

Record LPBug : Type := mkLPBug {
  ID : Z;
  Title : string;
  Description : string;
  Owner : LPPerson;
  CreatedAt : string;
  Messages : list LPMessage
}.

Section Importer.
Context `{cache.Externals}.
(** [li.conf] *)
Variable conf : gmap string string.
(** [lpAPI.Init()] and [lpAPI.SearchTasks(project)] *)
Variable lpAPI_Init : option error.
Variable SearchTasks : string → error + list LPBug.
(** [time.Parse(time.RFC3339, s)] followed by [Unix()]; the parse error
    is dropped by the source. *)
Variable parseUnix : string → Z.

Definition confValue (key : string) : string :=
  match conf !! key with Some v => v | None => "" end.

Definition ensurePerson (owner : LPPerson) : M identity.Interface :=
  let* r := ResolveIdentityImmutableMetadata keyLaunchpadLogin (Login owner) in
  match r with
  | inr i => ret i
  | inl err =>
      if isErrMultipleMatch err then fail err
      else
        let* r := NewIdentityRaw (Name owner) "" (Login owner) ""
                    {[ keyLaunchpadLogin := Login owner ]} in
        match r with
        | inl err => fail err
        | inr i => ret i
        end
  end.

(** [for _, lpMessage := range lpBug.Messages[1:] { ... }] *)
Fixpoint messageLoop (b : cache.BugCache) (lpBugID : string)
    (messages : list LPMessage) : M Flow :=
  match messages with
  | [] => ret Continue
  | lpMessage :: rest =>
      let* (_, err) :=
        ResolveOperationWithMetadata b keyLaunchpadID (message_ID lpMessage) in
      if bool_decide (err ≠ None) && bool_decide (err ≠ Some ErrNoMatchingOp) then
        emit (core.NewImportError err
                ("failed to fetch comments for bug #" +:+ lpBugID)) ;;
        ret Return
      else if bool_decide (err = None) then
        messageLoop b lpBugID rest
      else
        let* r := try (ensurePerson (message_Owner lpMessage)) in
        match r with
        | inl err => emit (core.NewImportError (Some err) "") ;; ret Return
        | inr owner =>
            let createdAt := parseUnix (message_CreatedAt lpMessage) in
            let* r := AddCommentRaw b owner createdAt (Content lpMessage)
                        {[ keyLaunchpadID := message_ID lpMessage ]} in
            match r with
            | inl err =>
                emit (core.NewImportError (Some err)
                        ("failed to add comment to bug #" +:+ lpBugID)) ;;
                ret Return
            | inr op =>
                match cache.Operation_Hash op with
                | inl err => emit (core.NewImportError (Some err) "") ;; ret Return
                | inr hash =>
                    emit (core.NewImportComment hash) ;;
                    messageLoop b lpBugID rest
                end
            end
        end
  end.

(** The part of the [default:] clause from the comment
    [/* Handle messages */] on; [err] is the value of the error
    variable when this part starts. *)
Definition handleMessages (lpBug : LPBug) (lpBugID : string)
    (b : cache.BugCache) (err : option error) : M Flow :=
  if bool_decide (length (Messages lpBug) = 0%nat) then
    emit (core.NewImportError err
            ("failed to fetch comments for bug #" +:+ lpBugID)) ;;
    ret Return
  else
    let* f := messageLoop b lpBugID (tail (Messages lpBug)) in
    match f with
    | Return => ret Return
    | Continue =>
        let* err := CommitAsNeeded b in
        match err with
        | Some err => emit (core.NewImportError (Some err) "") ;; ret Return
        | None => ret Continue
        end
    end.

(** The [default:] clause of the [select]: one bug.  After
    [owner, err := li.ensurePerson(...)] and its nil check, [err] is
    nil; the test [err == bug.ErrBugNotExist] that follows reads that
    value. *)
Definition importBug (lpBug : LPBug) : M Flow :=
  let lpBugID := pretty (ID lpBug) in
  let* (b, err) := ResolveBugCreateMetadata keyLaunchpadID lpBugID in
  if bool_decide (err ≠ None) && bool_decide (err ≠ Some ErrBugNotExist) then
    emit (core.NewImportError err lpBugID) ;;
    ret Return
  else
    let* r := try (ensurePerson (Owner lpBug)) in
    match r with
    | inl err => emit (core.NewImportError (Some err) lpBugID) ;; ret Return
    | inr owner =>
        let err : option error := None in
        if bool_decide (err = Some ErrBugNotExist) then
          let createdAt := parseUnix (CreatedAt lpBug) in
          let* r := NewBugRaw owner createdAt (Title lpBug) (Description lpBug)
                      {[ keyLaunchpadID := lpBugID ]} in
          match r with
          | inl err =>
              emit (core.NewImportError (Some err)
                      ("failed to add bug id #" +:+ lpBugID)) ;;
              ret Return
          | inr i =>
              let b : cache.BugCache := Some i in
              let* id := BugCache_Id b in
              emit (core.NewImportBug id) ;;
              handleMessages lpBug lpBugID b None
          end
        else
          handleMessages lpBug lpBugID b err
    end.

(** [for _, lpBug := range lpBugs { select { ... } }]; [n] counts the
    polls of [ctx.Done()] made so far. *)
Fixpoint bugLoop (ctx : context.Context) (n : nat) (lpBugs : list LPBug) : M Flow :=
  match lpBugs with
  | [] => ret Continue
  | lpBug :: rest =>
      if context.Done ctx n then ret Return
      else
        let* f := importBug lpBug in
        match f with
        | Return => ret Return
        | Continue => bugLoop ctx (S n) rest
        end
  end.

(** [ImportAll]: an error before the goroutine starts, or the run of the
    goroutine on a fresh channel. *)
Definition ImportAll (ctx : context.Context) (r : cache.RepoCache)
  : error + (Outcome Flow * World) :=
  match lpAPI_Init with
  | Some err => inl err
  | None =>
      match SearchTasks (confValue "project") with
      | inl err => inl err
      | inr lpBugs => inr (bugLoop ctx 0 lpBugs (mkWorld r [] 0 0))
      end
  end.

End Importer.

End launchpad.


(** ** Concrete surroundings and remote data used by the closed examples *)
Module scenario.

Definition payloadTag (p : bug.Payload) : string :=
  match p with
  | bug.CreateOp _ _ => "create"
  | bug.AddCommentOp _ => "comment"
  | bug.EditCommentOp _ _ => "edit"
  | bug.SetTitleOp _ => "title"
  | bug.SetStatusOp bug.ClosedStatus => "close"
  | bug.SetStatusOp bug.OpenStatus => "open"
  | bug.LabelChangeOp _ _ => "label"
  end.

(** A stand-in for the content hash: kind, author and time of the
    operation. *)
Definition hashOf (op : bug.Operation) : Hash :=
  payloadTag (bug.payload op) +:+ "/" +:+ bug.opAuthor op +:+ "/"
    +:+ pretty (bug.UnixTime op).

(** Surroundings in which nothing fails and [text.Cleanup] changes
    nothing. *)
Definition externals : cache.Externals :=
  cache.mkExternals hashOf (λ _, None) (λ _ _ login _ _, "id-" +:+ login)
                    (λ _ _ _ _, None) (λ _, None) inr.

Definition emptyRepo : cache.RepoCache := cache.mkRepoCache [] [].

(** A context that is never cancelled, and one already cancelled at the
    first poll. *)
Definition background : context.Context :=
  context.mkContext (λ _, false) (ErrContext "context canceled").
Definition cancelled : context.Context :=
  context.mkContext (λ _, true) (ErrContext "context canceled").

(** *** GitLab *)

Definition gitlabNoteType (n : gitlab.Note) : gitlab.NoteType * string :=
  if String.eqb (gitlab.Body n) "closed" then (gitlab.NOTE_CLOSED, "")
  else if String.eqb (gitlab.Body n) "changed the description"
  then (gitlab.NOTE_DESCRIPTION_CHANGED, "")
  else (gitlab.NOTE_COMMENT, gitlab.Body n).

Definition gitlabUser (id : Z) : error + gitlab.User :=
  inr (gitlab.mkUser "Alice" "alice@example.org" "alice" "").

Definition gitlabIssue : gitlab.Issue :=
  gitlab.mkIssue 42 7 "https://gitlab.example/p/issues/1" "desc" "Bug A" 1000.

Definition closedNote : gitlab.Note := gitlab.mkNote 501 7 "closed" 2000 2000.
Definition commentNote : gitlab.Note := gitlab.mkNote 502 7 "first!" 2100 2100.
Definition descriptionNote : gitlab.Note :=
  gitlab.mkNote 503 7 "changed the description" 2200 2300.

Definition gitlabRun (r : cache.RepoCache) (it : gitlab.iterator)
  : Outcome Flow * World :=
  @gitlab.ImportAll externals ∅ gitlabNoteType (λ _, "") gitlabUser background r it.

(** One issue whose only note closes it. *)
Definition closedIssue : gitlab.iterator :=
  [gitlab.mkIssueCursor gitlabIssue [closedNote] [] None].

(** One issue with one comment. *)
Definition commentedIssue : gitlab.iterator :=
  [gitlab.mkIssueCursor gitlabIssue [commentNote] [] None].

(** The same issue after its description was changed remotely. *)
Definition editedIssue : gitlab.iterator :=
  [gitlab.mkIssueCursor
     (gitlab.mkIssue 42 7 "https://gitlab.example/p/issues/1" "new desc" "Bug A" 1000)
     [descriptionNote] [] None].

(** The issue without any note. *)
Definition bareIssue : gitlab.iterator :=
  [gitlab.mkIssueCursor gitlabIssue [] [] None].

(** *** GitHub *)

Definition alice : github.actor :=
  github.mkActor "User" "alice" "" (Some "Alice") "alice@example.org" None None.

Definition closedEvent : github.timelineItem :=
  github.mkTimelineItem "ClosedEvent" github.noIssueComment github.noLabelEvent
    github.noLabelEvent (github.mkActorEvent "E1" 2000 (Some alice))
    github.noActorEvent github.noRenamedTitleEvent.

Definition labeledEvent : github.timelineItem :=
  github.mkTimelineItem "LabeledEvent" github.noIssueComment
    (github.mkLabelEvent (github.mkActorEvent "E2" 2100 (Some alice)) "bug")
    github.noLabelEvent github.noActorEvent
    github.noActorEvent github.noRenamedTitleEvent.

Definition githubIssue (timeline : list github.timelineItem)
    (edits : list github.userContentEdit) : github.issueTimeline :=
  github.mkIssueTimeline "I1" 1000 (Some alice) "Bug A" "desc"
    "https://github.example/p/issues/1" timeline edits.

Definition githubRun (ctx : context.Context) (r : cache.RepoCache) (it : github.iterator)
  : Outcome Flow * World :=
  @github.ImportAll externals (inl (ErrOther "no ghost")) ctx r it.

Definition closedGithubIssue : github.iterator :=
  github.mkIterator [githubIssue [closedEvent] []] None.

Definition labeledGithubIssue : github.iterator :=
  github.mkIterator [githubIssue [labeledEvent] []] None.

(** An issue whose body was edited once: the first edit is the creation
    itself, the second one the change. *)
Definition bodyEdits : list github.userContentEdit :=
  [github.mkEdit "X0" 1000 (Some alice) None (Some "desc");
   github.mkEdit "X1" 1500 (Some alice) None (Some "desc, improved")].

Definition editedGithubIssue : github.iterator :=
  github.mkIterator [githubIssue [] bodyEdits] None.

(** *** Launchpad *)

Definition bob : launchpad.LPPerson := launchpad.mkLPPerson "Bob" "bob".

Definition lpBugNoMessages : launchpad.LPBug :=
  launchpad.mkLPBug 9 "Bug L" "desc" bob "2019-01-01T00:00:00Z" [].

Definition launchpadRun (ctx : context.Context) (r : cache.RepoCache)
    (lpBugs : list launchpad.LPBug) : error + (Outcome Flow * World) :=
  @launchpad.ImportAll externals ∅ None (λ _, inr lpBugs) (λ _, 0) ctx r.

(** The operation logs of a world, one per bug. *)
Definition logs (w : World) : list (list bug.Operation) :=
  map cache.ops (cache.bugs (repo w)).

(** The operations the GitLab scenarios are expected to produce. *)
Definition gitlabCreateOp : bug.Operation :=
  bug.mkOperation "id-alice" 1000 (bug.CreateOp "Bug A" "desc")
    (<[ core.KeyOrigin := "gitlab" ]>
       (<[ gitlab.keyGitlabId := "42" ]>
          (<[ gitlab.keyGitlabUrl := "https://gitlab.example/p/issues/1" ]>
             {[ gitlab.keyGitlabProject := "" ]}))).

Definition gitlabCloseOp : bug.Operation :=
  bug.mkOperation "id-alice" 2000 (bug.SetStatusOp bug.ClosedStatus)
    {[ gitlab.keyGitlabId := "501" ]}.

Definition gitlabEditOp : bug.Operation :=
  bug.mkOperation "id-alice" 2300
    (bug.EditCommentOp "create/id-alice/1000" "new desc")
    {[ gitlab.keyGitlabId := "503" ]}.

(** The operations the GitHub scenarios are expected to produce. *)
Definition githubCreateOp : bug.Operation :=
  bug.mkOperation "id-alice" 1000 (bug.CreateOp "Bug A" "desc")
    (<[ github.keyOrigin := "github" ]>
       (<[ github.keyGithubId := "I1" ]>
          {[ github.keyGithubUrl := "https://github.example/p/issues/1" ]})).

Definition githubCloseOp : bug.Operation :=
  bug.mkOperation "id-alice" 2000 (bug.SetStatusOp bug.ClosedStatus)
    {[ github.keyGithubId := "E1" ]}.

Definition githubEditOp : bug.Operation :=
  bug.mkOperation "id-alice" 1500
    (bug.EditCommentOp "create/id-alice/1000" "desc, improved")
    {[ github.keyGithubId := "X1" ]}.

Definition githubLabelOp : bug.Operation :=
  bug.mkOperation "id-alice" 2100 (bug.LabelChangeOp ["bug"] [])
    {[ github.keyGithubId := "E2" ]}.

(** *** Snapshots *)

Definition createOp : bug.Operation :=
  bug.mkOperation "id-alice" 1000 (bug.CreateOp "Bug A" "desc")
    {[ github.keyGithubId := "I1" ]}.

Definition emptySnapshot : bug.Snapshot :=
  bug.mkSnapshot "" bug.OpenStatus "" [] [] None [] [] (bug.time_Unix 0 0) [] [].

Definition createdSnapshot : bug.Snapshot :=
  bug.mkSnapshot "b1" bug.OpenStatus "Bug A" [] [] None [] []
    (bug.time_Unix 1000 0) [] [createOp].

Definition aliceIdentity : identity.Interface :=
  identity.mkIdentity "id-alice" "Alice" "alice@example.org" "alice" ""
    {[ github.keyGithubLogin := "alice" ]}.

(** A second, independently created identity with the same login. *)
Definition otherAlice : identity.Interface :=
  identity.mkIdentity "id-alice-2" "Alice B." "" "alice" ""
    {[ github.keyGithubLogin := "alice" ]}.

Definition twoAlices : cache.RepoCache :=
  cache.mkRepoCache [aliceIdentity; otherAlice] [].

(** Two identities created independently for the GitLab user 7, and two
    for the user 8. *)
Definition sevenIdentity : identity.Interface :=
  identity.mkIdentity "id-alice" "Alice" "alice@example.org" "alice" ""
    (<[ gitlab.keyGitlabId := "7" ]> {[ gitlab.keyGitlabLogin := "alice" ]}).

Definition otherSeven : identity.Interface :=
  identity.mkIdentity "id-alice-2" "Alice B." "" "alice.b" ""
    (<[ gitlab.keyGitlabId := "7" ]> {[ gitlab.keyGitlabLogin := "alice.b" ]}).

Definition twoSevens : cache.RepoCache :=
  cache.mkRepoCache [sevenIdentity; otherSeven] [].

Definition eightIdentity : identity.Interface :=
  identity.mkIdentity "id-bob" "Bob" "" "bob" ""
    (<[ gitlab.keyGitlabId := "8" ]> {[ gitlab.keyGitlabLogin := "bob" ]}).

Definition otherEight : identity.Interface :=
  identity.mkIdentity "id-bob-2" "Bob B." "" "bob.b" ""
    (<[ gitlab.keyGitlabId := "8" ]> {[ gitlab.keyGitlabLogin := "bob.b" ]}).

Definition twoEights : cache.RepoCache :=
  cache.mkRepoCache [eightIdentity; otherEight] [].

(** The issue of user 7 with one comment written by user 8. *)
Definition foreignNote : gitlab.Note := gitlab.mkNote 504 8 "me too" 2400 2400.

Definition foreignIssue : gitlab.iterator :=
  [gitlab.mkIssueCursor gitlabIssue [foreignNote] [] None].

(** An issue of another author that alice closed. *)
Definition dave : github.actor :=
  github.mkActor "User" "dave" "" (Some "Dave") "dave@example.org" None None.

Definition daveIssue : github.iterator :=
  github.mkIterator
    [github.mkIssueTimeline "I4" 1300 (Some dave) "Bug D" "desc"
       "https://github.example/p/issues/4" [closedEvent] []]
    None.

(** Two identities created independently with the Launchpad login
    "bob", and a repository that holds the Launchpad bug 9 of carol and
    those two. *)
Definition firstBob : identity.Interface :=
  identity.mkIdentity "id-bob" "Bob" "" "bob" ""
    {[ launchpad.keyLaunchpadLogin := "bob" ]}.

Definition otherBob : identity.Interface :=
  identity.mkIdentity "id-bob-2" "Bob B." "" "bob" ""
    {[ launchpad.keyLaunchpadLogin := "bob" ]}.

Definition twoBobs : cache.RepoCache :=
  cache.mkRepoCache [firstBob; otherBob] [].

Definition carol : launchpad.LPPerson := launchpad.mkLPPerson "Carol" "carol".

Definition carolIdentity : identity.Interface :=
  identity.mkIdentity "id-carol" "Carol" "" "carol" ""
    {[ launchpad.keyLaunchpadLogin := "carol" ]}.

Definition carolRepo : cache.RepoCache :=
  cache.mkRepoCache [carolIdentity; firstBob; otherBob]
    [cache.mkBug "lp9"
       [bug.mkOperation "id-carol" 0 (bug.CreateOp "Bug L" "desc")
          {[ launchpad.keyLaunchpadID := "9" ]}]].

(** The bug 9 with its description and one comment written by bob. *)
Definition lpBugOfCarol : launchpad.LPBug :=
  launchpad.mkLPBug 9 "Bug L" "desc" carol "2019-01-01T00:00:00Z"
    [launchpad.mkLPMessage "c0" "desc" "2019-01-01T00:00:00Z" carol;
     launchpad.mkLPMessage "c1" "me too" "2019-01-02T00:00:00Z" bob].

End scenario.


(** ** Vocabulary of the statements *)

(** How a consumer recognises an error result: the commands test
    [result.Err != nil]; a result built by [NewImportError] also has no
    event.  Either mark makes the result an error result here. *)
Definition isError (r : core.ImportResult) : bool :=
  bool_decide (core.Err r ≠ None) || bool_decide (core.Event r = core.ImportEventUnset).

Definition nonError (r : core.ImportResult) : Prop := isError r = false.

(** [quiet m]: whatever [m] sends is appended to the stream and is not
    an error result. *)
Definition quiet {A} (m : M A) : Prop :=
  ∀ w, ∃ l, out (m w).2 = out w ++ l ∧ Forall nonError l.

(** How the results sent by a piece of the goroutine may look: no error
    result at all, or one last result after which the goroutine has
    returned. *)
Definition trace_ok (o : Outcome Flow) (l : list core.ImportResult) : Prop :=
  Forall nonError l ∨
  (o = Ok Return ∧ ∃ l' r, l = l' ++ [r] ∧ Forall nonError l').

Definition guarded (m : M Flow) : Prop :=
  ∀ w, ∃ l, out (m w).2 = out w ++ l ∧ trace_ok (m w).1 l.

(** The identities of the repository that hold (key, value). *)
Definition holders (r : cache.RepoCache) (key value : string)
  : list identity.Interface :=
  filter (λ i, cache.holds key value (identity.ImmutableMetadata i))
         (cache.identities r).

(** The operation [ensureNote] builds for a note that closes the issue. *)
Definition closeOperation (author : identity.Interface) (note : gitlab.Note)
  : bug.Operation :=
  bug.mkOperation (identity.Id author) (gitlab.note_CreatedAt note)
    (bug.SetStatusOp bug.ClosedStatus)
    {[ gitlab.keyGitlabId := gitlab.parseID (gitlab.note_ID note) ]}.

(** The operation [ensureNote] builds for a note that reports a changed
    description: an edit of the first comment. *)
Definition descriptionEdit (author : identity.Interface) (issue : gitlab.Issue)
    (note : gitlab.Note) (firstComment : bug.Comment) : bug.Operation :=
  bug.mkOperation (identity.Id author) (gitlab.note_UpdatedAt note)
    (bug.EditCommentOp (bug.commentId firstComment) (gitlab.Description issue))
    {[ gitlab.keyGitlabId := gitlab.parseID (gitlab.note_ID note) ]}.

(** The world after one more operation on the [i]-th bug and one more
    result on the stream. *)
Definition appended (w : World) (i : nat) (bg : cache.Bug) (op : bug.Operation)
    (r : core.ImportResult) : World :=
  mkWorld
    (cache.setBugs (repo w)
       (<[i := cache.mkBug (cache.bugId bg) (cache.ops bg ++ [op])]>
          (cache.bugs (repo w))))
    (out w ++ [r]) (importedIssues w) (importedIdentities w).

(** The world after one more result on the stream. *)
Definition sent (w : World) (r : core.ImportResult) : World :=
  mkWorld (repo w) (out w ++ [r]) (importedIssues w) (importedIdentities w).

(** ** Package commands: the loop that prints the results *)
Module commands.

(** What the loop prints for one result: [fmt.Println(result.Err,
    result.Reason)] or [fmt.Printf("%s: %s\n", result.String(),
    result.ID)]. *)
Inductive Line : Type :=
| ErrorLine (err : error) (reason : string)
| ResultLine (text id : string).

(** The body of [for result := range events] in [runBridgePull]; [None]
    is the panic of [String]. *)
Definition printResult (result : core.ImportResult) : option Line :=
  match core.Err result with
  | Some err => Some (ErrorLine err (core.Reason result))
  | None =>
      match core.String result with
      | Some text => Some (ResultLine text (core.ID result))
      | None => None
      end
  end.

(** The loop over the stream: the lines printed, and how the loop ends. *)
Fixpoint printResults (events : list core.ImportResult) : list Line * Outcome unit :=
  match events with
  | [] => ([], Ok tt)
  | result :: rest =>
      match printResult result with
      | None => ([], Panic "unknown import result")
      | Some line =>
          let (lines, o) := printResults rest in (line :: lines, o)
      end
  end.

End commands.

(** ** Vocabulary of the further statements *)

(** A result the printing loop can print. *)
Definition printable (r : core.ImportResult) : Prop :=
  is_Some (commands.printResult r).

(** [steps R m]: every call of [m] takes the world to one related to it
    by [R]. *)
Definition steps (R : relation World) {A} (m : M A) : Prop :=
  ∀ w, R w (m w).2.

(** A relation between worlds that the primitive moves of an importer
    respect: sending a result that satisfies [P], counting, adding an
    identity, appending an operation to a bug. *)
Class Discipline (R : relation World) (P : core.ImportResult → Prop) : Prop := {
  discipline_preorder : PreOrder R;
  discipline_sent : ∀ w r, P r → R w (sent w r);
  discipline_counters : ∀ w a b, R w (mkWorld (repo w) (out w) a b);
  discipline_identity : ∀ w i,
    R w (setRepo w (cache.setIdentities (repo w) (cache.identities (repo w) ++ [i])));
  discipline_append : ∀ w i bg op,
    cache.bugs (repo w) !! i = Some bg →
    R w (setRepo w
           (cache.setBugs (repo w)
              (<[i := cache.mkBug (cache.bugId bg) (cache.ops bg ++ [op])]>
                 (cache.bugs (repo w)))))
}.

(** A relation that also admits the creation of a bug. *)
Class CreatesBugs (R : relation World) : Prop :=
  creates_bug : ∀ w b,
    R w (setRepo w (cache.setBugs (repo w) (cache.bugs (repo w) ++ [b]))).

(** The second repository extends the first: the identities and the bugs
    of the first are still there, in place, and each log of the first is
    the beginning of the log now in its place. *)
Definition extends (r r' : cache.RepoCache) : Prop :=
  cache.identities r `prefix_of` cache.identities r' ∧
  ∀ i b, cache.bugs r !! i = Some b →
         ∃ b', cache.bugs r' !! i = Some b' ∧
               cache.bugId b' = cache.bugId b ∧
               cache.ops b `prefix_of` cache.ops b'.

Definition grows (w w' : World) : Prop := extends (repo w) (repo w').

(** The second world has received further results, all satisfying [P]. *)
Definition streams (P : core.ImportResult → Prop) (w w' : World) : Prop :=
  ∃ l, out w' = out w ++ l ∧ Forall P l.

Definition notBug (r : core.ImportResult) : Prop :=
  core.Event r ≠ core.ImportEventBug.

(** No bug was added, and no result announces one. *)
Definition keepsBugs (w w' : World) : Prop :=
  length (cache.bugs (repo w')) = length (cache.bugs (repo w)) ∧ streams notBug w w'.

(** The world differs from the first one by results sent only. *)
Definition sameRepo (w w' : World) : Prop := repo w' = repo w.

(** ** Further concrete data *)
Module fixtures.

Definition world (r : cache.RepoCache) : World := mkWorld r [] 0 0.

(** *** GitHub *)

Definition ensurePerson := @github.ensurePerson scenario.externals (inl (ErrOther "no ghost")).
Definition ensureIssue := @github.ensureIssue scenario.externals (inl (ErrOther "no ghost")).
Definition ensureTimelineItem :=
  @github.ensureTimelineItem scenario.externals (inl (ErrOther "no ghost")).

(** An issue without timeline items and without edits, and a second one. *)
Definition plainIssue : github.issueTimeline := scenario.githubIssue [] [].

Definition otherIssue : github.issueTimeline :=
  github.mkIssueTimeline "I2" 1100 (Some scenario.alice) "Bug B" "other"
    "https://github.example/p/issues/2" [] [].

(** The world after the import of [plainIssue] into an empty repository. *)
Definition importedWorld : World :=
  world (repo (scenario.githubRun scenario.background scenario.emptyRepo
                 (github.mkIterator [plainIssue] None)).2).

(** A comment without edits, and an edit of the issue's body. *)
Definition firstComment : github.issueComment :=
  github.mkIssueComment "C1" 1200 (Some scenario.alice) "first!"
    "https://github.example/p/issues/1#c1" [].

Definition bodyEdit : github.userContentEdit :=
  github.mkEdit "X1" 1500 (Some scenario.alice) None (Some "desc, improved").

Definition ensureTimelineComment :=
  @github.ensureTimelineComment scenario.externals (inl (ErrOther "no ghost")).
Definition ensureCommentEdit :=
  @github.ensureCommentEdit scenario.externals (inl (ErrOther "no ghost")).

(** The issue of a deleted user, and two answers to the query for the
    user "ghost": one under that login, one under another. *)
Definition ghostIssue : github.issueTimeline :=
  github.mkIssueTimeline "I3" 1200 None "Bug C" "gone"
    "https://github.example/p/issues/3" [] [].

Definition ghostAnswer : github.ghostUser :=
  github.mkGhostUser (Some "Deleted user") "ghost" "".

Definition strayAnswer : github.ghostUser :=
  github.mkGhostUser (Some "Deleted user") "deleted" "".

Definition getGhost (q : github.ghostUser) :=
  @github.ensurePerson scenario.externals (inr q) None.

Definition ensureGhostIssue (q : github.ghostUser) :=
  @github.ensureIssue scenario.externals (inr q) ghostIssue.

(** A context cancelled when the second item is reached. *)
Definition cancelledAtSecond : context.Context :=
  context.mkContext (λ n, bool_decide (n = 1%nat)) (ErrContext "context canceled").

(** *** GitLab *)

Definition gitlabEnsureIssue :=
  @gitlab.ensureIssue scenario.externals ∅ scenario.gitlabUser.
Definition gitlabEnsureLabelEvent :=
  @gitlab.ensureLabelEvent scenario.externals scenario.gitlabUser.

Definition addLabel : gitlab.LabelEvent := gitlab.mkLabelEvent 601 7 "add" "bug" 2500.

(** The world after the import of the bare GitLab issue. *)
Definition gitlabWorld : World :=
  world (repo (scenario.gitlabRun scenario.emptyRepo scenario.bareIssue).2).

(** *** Launchpad *)

Definition bobIdentity : identity.Interface :=
  identity.mkIdentity "id-bob" "Bob" "" "bob" ""
    {[ launchpad.keyLaunchpadLogin := "bob" ]}.

Definition lpCreateOp : bug.Operation :=
  bug.mkOperation "id-bob" 0 (bug.CreateOp "Bug L" "desc")
    {[ launchpad.keyLaunchpadID := "9" ]}.

Definition lpCommentOp : bug.Operation :=
  bug.mkOperation "id-bob" 0 (bug.AddCommentOp "me too")
    {[ launchpad.keyLaunchpadID := "c1" ]}.

(** A repository that holds the Launchpad bug 9, and the same after its
    comment "c1" was imported. *)
Definition lpRepo : cache.RepoCache :=
  cache.mkRepoCache [bobIdentity] [cache.mkBug "lp9" [lpCreateOp]].

Definition lpRepoCommented : cache.RepoCache :=
  cache.mkRepoCache [bobIdentity] [cache.mkBug "lp9" [lpCreateOp; lpCommentOp]].

Definition lpDescription : launchpad.LPMessage :=
  launchpad.mkLPMessage "c0" "desc" "2019-01-01T00:00:00Z" scenario.bob.

Definition lpComment : launchpad.LPMessage :=
  launchpad.mkLPMessage "c1" "me too" "2019-01-02T00:00:00Z" scenario.bob.

Definition lpBugCommented : launchpad.LPBug :=
  launchpad.mkLPBug 9 "Bug L" "desc" scenario.bob "2019-01-01T00:00:00Z"
    [lpDescription; lpComment].

Definition importBug := @launchpad.importBug scenario.externals (λ _, 0).

(** *** Snapshots *)

Definition timelineSnapshot : bug.Snapshot :=
  bug.mkSnapshot "b1" bug.OpenStatus "Bug A" [] [] None []
    [scenario.aliceIdentity] (bug.time_Unix 1000 0)
    [bug.mkTimelineItem "h1"; bug.mkTimelineItem "h2"]
    [scenario.createOp; lpCommentOp].

End fixtures.

(* ================================================================== *)
(** * Properties *)
(* ================================================================== *)

Section SnapshotFacts.
Import bug.

Lemma hasId_spec l i : hasId l i = true <-> i ∈ ids l.
Proof.
  induction l as [|a l IH]; simpl.
  - split; [discriminate | intros H; inversion H].
  - destruct (String.eqb_spec i (identity.Id a)) as [->|Hne].
    + split; [intros _; left | done].
    + rewrite IH. split; [by right | ].
      intros H. inversion H; subst; [done | done].
Qed.

Lemma HasParticipant_loop_spec l i :
  HasParticipant_loop l i = true <-> ∃ p, p ∈ l ∧ identity.Id p = i.
Proof.
  induction l as [|a l IH]; simpl.
  - split; [discriminate | intros (p & H & _); inversion H].
  - destruct (String.eqb_spec (identity.Id a) i) as [Heq|Hne].
    + split; [intros _; exists a; split; [left | done] | done].
    + rewrite IH. split.
      * intros (p & Hp & Hid). exists p. split; [by right | done].
      * intros (p & Hp & Hid). inversion Hp; subst; [done | by exists p].
Qed.

Lemma addActor_NoDup snap a :
  NoDup (ids (Actors snap)) -> NoDup (ids (Actors (addActor snap a))).
Proof.
  intros Hnd. unfold addActor.
  destruct (hasId (Actors snap) (identity.Id a)) eqn:E; [done |].
  simpl. unfold ids. rewrite map_app. simpl.
  apply NoDup_app. split; [done |]. split.
  - intros x Hx Hin. apply list_elem_of_singleton in Hin. subst x.
    apply hasId_spec in Hx. congruence.
  - apply NoDup_singleton.
Qed.

Lemma addParticipant_NoDup snap p :
  NoDup (ids (Participants snap)) ->
  NoDup (ids (Participants (addParticipant snap p))).
Proof.
  intros Hnd. unfold addParticipant.
  destruct (hasId (Participants snap) (identity.Id p)) eqn:E; [done |].
  simpl. unfold ids. rewrite map_app. simpl.
  apply NoDup_app. split; [done |]. split.
  - intros x Hx Hin. apply list_elem_of_singleton in Hin. subst x.
    apply hasId_spec in Hx. congruence.
  - apply NoDup_singleton.
Qed.

Lemma addActor_Participants snap a :
  Participants (addActor snap a) = Participants snap.
Proof. unfold addActor. by destruct (hasId _ _). Qed.

Lemma addParticipant_Actors snap p :
  Actors (addParticipant snap p) = Actors snap.
Proof. unfold addParticipant. by destruct (hasId _ _). Qed.

Lemma calls_NoDup cs : ∀ snap,
  NoDup (ids (Actors snap)) -> NoDup (ids (Participants snap)) ->
  NoDup (ids (Actors (calls snap cs))) ∧
  NoDup (ids (Participants (calls snap cs))).
Proof.
  induction cs as [|c cs IH]; intros snap HA HP; [done |].
  simpl. apply IH; destruct c; simpl.
  - by apply addActor_NoDup.
  - by rewrite addParticipant_Actors.
  - by rewrite addActor_Participants.
  - by apply addParticipant_NoDup.
Qed.

End SnapshotFacts.

(** ** What a computation sends on the channel *)

Section Streams.
Context `{cache.Externals}.

Lemma quiet_ret {A} (a : A) : quiet (ret a).
Proof. intros w. exists []. by rewrite app_nil_r. Qed.

Lemma quiet_fail {A} e : quiet (@fail A e).
Proof. intros w. exists []. by rewrite app_nil_r. Qed.

Lemma quiet_panic {A} msg : quiet (@panic A msg).
Proof. intros w. exists []. by rewrite app_nil_r. Qed.

Lemma quiet_emit r : nonError r → quiet (emit r).
Proof. intros Hr w. exists [r]. split; [done | by constructor]. Qed.

Lemma quiet_incrImportedIssues : quiet incrImportedIssues.
Proof. intros w. exists []. by rewrite app_nil_r. Qed.

Lemma quiet_incrImportedIdentities : quiet incrImportedIdentities.
Proof. intros w. exists []. by rewrite app_nil_r. Qed.

Lemma quiet_readRepo {A} (f : cache.RepoCache → A) : quiet (readRepo f).
Proof. intros w. exists []. by rewrite app_nil_r. Qed.

Lemma quiet_onRepo {A} (f : cache.RepoCache → cache.RepoCache * A) :
  quiet (onRepo f).
Proof.
  intros w. exists []. unfold onRepo.
  destruct (f (repo w)). by rewrite app_nil_r.
Qed.

Lemma quiet_onBug {A} b
    (f : cache.RepoCache → nat → cache.Bug → cache.RepoCache * A) :
  quiet (onBug b f).
Proof.
  intros w. exists []. unfold onBug. rewrite app_nil_r.
  destruct b as [i|]; [|done].
  destruct (cache.bugs (repo w) !! i); [|done].
  by destruct (f (repo w) i _).
Qed.

Lemma quiet_bind {A B} (m : M A) (k : A → M B) :
  quiet m → (∀ a, quiet (k a)) → quiet (bind m k).
Proof.
  intros Hm Hk w. destruct (Hm w) as (l1 & E1 & F1).
  unfold bind. destruct (m w) as [[a|e|msg] w1]; simpl in *.
  - destruct (Hk a w1) as (l2 & E2 & F2).
    exists (l1 ++ l2). rewrite E2, E1, app_assoc.
    split; [done | by apply Forall_app].
  - by exists l1.
  - by exists l1.
Qed.

Lemma quiet_try {A} (m : M A) : quiet m → quiet (try m).
Proof.
  intros Hm w. destruct (Hm w) as (l & E & F). exists l.
  unfold try. by destruct (m w) as [[a|e|msg] w1].
Qed.

Lemma quiet_returnErr err : quiet (returnErr err).
Proof. destruct err; [apply quiet_fail | apply quiet_ret]. Qed.

Lemma quiet_Cleanup s : quiet (Cleanup s).
Proof. unfold Cleanup. destruct (cache.text_Cleanup s); [apply quiet_fail | apply quiet_ret]. Qed.

Lemma quiet_HashOf op : quiet (HashOf op).
Proof. unfold HashOf. destruct (cache.Operation_Hash op); [apply quiet_fail | apply quiet_ret]. Qed.

Lemma quiet_deref p : quiet (deref p).
Proof. destruct p; [apply quiet_ret | apply quiet_panic]. Qed.

Lemma guarded_quiet (m : M Flow) : quiet m → guarded m.
Proof.
  intros Hm w. destruct (Hm w) as (l & E & F). exists l. split; [done | by left].
Qed.

Lemma guarded_ret f : guarded (ret f).
Proof. apply guarded_quiet, quiet_ret. Qed.

(** Sending any result and returning at once. *)
Lemma guarded_stop r : guarded (emit r ;; ret Return).
Proof.
  intros w. exists [r]. split; [done |].
  right. split; [done |]. by exists [], r.
Qed.

Lemma guarded_bind {A} (m : M A) (k : A → M Flow) :
  quiet m → (∀ a, guarded (k a)) → guarded (bind m k).
Proof.
  intros Hm Hk w. destruct (Hm w) as (l1 & E1 & F1).
  unfold bind. destruct (m w) as [[a|e|msg] w1]; simpl in *.
  - destruct (Hk a w1) as (l2 & E2 & T2).
    exists (l1 ++ l2). rewrite E2, E1, app_assoc. split; [done |].
    destruct T2 as [F2 | (Ho & l' & r & -> & F')].
    + left. by apply Forall_app.
    + right. split; [done |]. exists (l1 ++ l'), r.
      rewrite app_assoc. split; [done | by apply Forall_app].
  - exists l1. split; [done | by left].
  - exists l1. split; [done | by left].
Qed.

(** Two pieces of the goroutine in sequence: the second one runs only if
    the first one has not returned. *)
Lemma guarded_seq (m k : M Flow) :
  guarded m → guarded k →
  guarded (let* f := m in match f with Return => ret Return | Continue => k end).
Proof.
  intros Hm Hk w. destruct (Hm w) as (l1 & E1 & T1).
  unfold bind. destruct (m w) as [[f|e|msg] w1]; simpl in *.
  - destruct f.
    + destruct (Hk w1) as (l2 & E2 & T2).
      destruct T1 as [F1 | (Ho & _)]; [|done].
      exists (l1 ++ l2). rewrite E2, E1, app_assoc. split; [done |].
      destruct T2 as [F2 | (Ho & l' & r & -> & F')].
      * left. by apply Forall_app.
      * right. split; [done |]. exists (l1 ++ l'), r.
        rewrite app_assoc. split; [done | by apply Forall_app].
    + exists l1. split; [done |].
      destruct T1 as [F1 | (_ & l' & r & -> & F')]; [by left |].
      right. split; [done |]. by exists l', r.
  - exists l1. split; [done |]. destruct T1 as [F1 | (Ho & _)]; [by left | done].
  - exists l1. split; [done |]. destruct T1 as [F1 | (Ho & _)]; [by left | done].
Qed.

(** A stream made of non-error results and at most one last result has
    nothing after an error result. *)
Lemma trace_ok_error_last o l pre r post :
  trace_ok o l → l = pre ++ r :: post → isError r = true → post = [].
Proof.
  intros [F | (_ & l' & r' & -> & F)] E Hr.
  - subst l. apply Forall_app in F as [_ F]. inversion F; subst.
    unfold nonError in *. congruence.
  - destruct post as [|p post] using rev_ind; [done |].
    exfalso. clear IHpost.
    change (pre ++ r :: post ++ [p]) with (pre ++ (r :: post) ++ [p]) in E.
    rewrite app_assoc in E. apply app_inj_tail in E as [-> _].
    apply Forall_app in F as [_ F]. inversion F; subst.
    unfold nonError in *. congruence.
Qed.

Lemma guarded_error_last (m : M Flow) w pre r post :
  guarded m → out w = [] →
  out (m w).2 = pre ++ r :: post → isError r = true → post = [].
Proof.
  intros Hm Hw E Hr. destruct (Hm w) as (l & El & T).
  rewrite Hw in El. simpl in El. rewrite El in E.
  by eapply trace_ok_error_last.
Qed.

End Streams.

(** ** No helper of an importer sends an error result *)

Create HintDb quiet.

#[export] Hint Resolve quiet_ret quiet_fail quiet_panic quiet_incrImportedIssues
  quiet_incrImportedIdentities quiet_readRepo quiet_onRepo quiet_onBug
  quiet_returnErr quiet_Cleanup quiet_HashOf quiet_deref : quiet.

(** One step through a computation: a bind, a branch, or a leaf. *)
Ltac quiet_step :=
  match goal with
  | |- quiet (bind _ _) => apply quiet_bind; [| intros ?]
  | |- quiet (try _) => apply quiet_try
  | |- quiet (emit _) => apply quiet_emit; reflexivity
  | |- quiet (if ?c then _ else _) => destruct c
  | |- quiet (match ?x with _ => _ end) => destruct x
  | |- quiet _ => solve [auto with quiet]
  end.

Ltac quiet_auto := repeat quiet_step.

Section QuietCalls.
Context `{cache.Externals}.

Lemma quiet_ResolveBugCreateMetadata key value :
  quiet (ResolveBugCreateMetadata key value).
Proof. apply quiet_readRepo. Qed.

Lemma quiet_ResolveIdentityImmutableMetadata key value :
  quiet (ResolveIdentityImmutableMetadata key value).
Proof. apply quiet_readRepo. Qed.

Lemma quiet_NewIdentityRaw name email login avatarUrl metadata :
  quiet (NewIdentityRaw name email login avatarUrl metadata).
Proof. apply quiet_onRepo. Qed.

Lemma quiet_NewBugRaw author unixTime title message metadata :
  quiet (NewBugRaw author unixTime title message metadata).
Proof. apply quiet_onRepo. Qed.

Lemma quiet_BugCache_Id b : quiet (BugCache_Id b).
Proof. apply quiet_onBug. Qed.

Lemma quiet_ResolveOperationWithMetadata b key value :
  quiet (ResolveOperationWithMetadata b key value).
Proof. apply quiet_onBug. Qed.

Lemma quiet_rawOp b author unixTime p metadata :
  quiet (rawOp b author unixTime p metadata).
Proof. apply quiet_onBug. Qed.

Lemma quiet_AddCommentRaw b author unixTime message metadata :
  quiet (AddCommentRaw b author unixTime message metadata).
Proof. apply quiet_rawOp. Qed.

Lemma quiet_EditCommentRaw b author unixTime target message metadata :
  quiet (EditCommentRaw b author unixTime target message metadata).
Proof. apply quiet_rawOp. Qed.

Lemma quiet_CloseRaw b author unixTime metadata :
  quiet (CloseRaw b author unixTime metadata).
Proof. apply quiet_rawOp. Qed.

Lemma quiet_OpenRaw b author unixTime metadata :
  quiet (OpenRaw b author unixTime metadata).
Proof. apply quiet_rawOp. Qed.

Lemma quiet_SetTitleRaw b author unixTime title metadata :
  quiet (SetTitleRaw b author unixTime title metadata).
Proof. apply quiet_rawOp. Qed.

Lemma quiet_ForceChangeLabelsRaw b author unixTime added removed metadata :
  quiet (ForceChangeLabelsRaw b author unixTime added removed metadata).
Proof. apply quiet_rawOp. Qed.

Lemma quiet_Snapshot_Comments b : quiet (Snapshot_Comments b).
Proof. apply quiet_onBug. Qed.

Lemma quiet_CommitAsNeeded b : quiet (CommitAsNeeded b).
Proof. apply quiet_onBug. Qed.

End QuietCalls.

#[export] Hint Resolve quiet_ResolveBugCreateMetadata
  quiet_ResolveIdentityImmutableMetadata quiet_NewIdentityRaw quiet_NewBugRaw
  quiet_BugCache_Id quiet_ResolveOperationWithMetadata quiet_rawOp
  quiet_Snapshot_Comments quiet_CommitAsNeeded : quiet.

#[export] Hint Resolve quiet_AddCommentRaw quiet_EditCommentRaw quiet_CloseRaw
  quiet_OpenRaw quiet_SetTitleRaw quiet_ForceChangeLabelsRaw : quiet.

Section QuietGithub.
Context `{cache.Externals}.
Variable queryGhost : error + github.ghostUser.

Lemma quiet_github_getGhost : quiet (github.getGhost queryGhost).
Proof. unfold github.getGhost. quiet_auto. Qed.

Lemma quiet_github_ensurePerson a : quiet (github.ensurePerson queryGhost a).
Proof.
  unfold github.ensurePerson. destruct a; [| apply quiet_github_getGhost].
  quiet_auto.
Qed.
Hint Resolve quiet_github_ensurePerson : quiet.

Lemma quiet_github_ensureCommentEdit b target edit :
  quiet (github.ensureCommentEdit queryGhost b target edit).
Proof. unfold github.ensureCommentEdit. quiet_auto. Qed.
Hint Resolve quiet_github_ensureCommentEdit : quiet.

Lemma quiet_github_ensureIssue_edits issue author edits : ∀ i b,
  quiet (github.ensureIssue_edits queryGhost issue author i edits b).
Proof.
  induction edits as [|edit rest IH]; intros i b; simpl; quiet_auto.
Qed.
Hint Resolve quiet_github_ensureIssue_edits : quiet.

Lemma quiet_github_ensureIssue issue : quiet (github.ensureIssue queryGhost issue).
Proof. unfold github.ensureIssue. quiet_auto. Qed.

Lemma quiet_github_ensureTimelineComment_edits b item edits : ∀ i target,
  quiet (github.ensureTimelineComment_edits queryGhost b item i edits target).
Proof.
  induction edits as [|edit rest IH]; intros i target; simpl; quiet_auto.
Qed.
Hint Resolve quiet_github_ensureTimelineComment_edits : quiet.

Lemma quiet_github_ensureTimelineComment b item edits :
  quiet (github.ensureTimelineComment queryGhost b item edits).
Proof. unfold github.ensureTimelineComment. quiet_auto. Qed.
Hint Resolve quiet_github_ensureTimelineComment : quiet.

Lemma quiet_github_ensureTimelineItem b item :
  quiet (github.ensureTimelineItem queryGhost b item).
Proof. unfold github.ensureTimelineItem. quiet_auto. Qed.

End QuietGithub.

Section QuietGitlab.
Context `{cache.Externals}.
Variable conf : gmap string string.
Variable GetNoteType : gitlab.Note → gitlab.NoteType * string.
Variable NoteType_String : gitlab.NoteType → string.
Variable GetUser : Z → error + gitlab.User.

Lemma quiet_gitlab_ensurePerson id : quiet (gitlab.ensurePerson GetUser id).
Proof. unfold gitlab.ensurePerson. quiet_auto. Qed.
Hint Resolve quiet_gitlab_ensurePerson : quiet.

Lemma quiet_gitlab_ensureIssue issue :
  quiet (gitlab.ensureIssue conf GetUser issue).
Proof. unfold gitlab.ensureIssue. quiet_auto. Qed.

Lemma quiet_gitlab_ensureNote issue b note :
  quiet (gitlab.ensureNote GetNoteType NoteType_String GetUser issue b note).
Proof. unfold gitlab.ensureNote. quiet_auto. Qed.

Lemma quiet_gitlab_ensureLabelEvent b labelEvent :
  quiet (gitlab.ensureLabelEvent GetUser b labelEvent).
Proof. unfold gitlab.ensureLabelEvent. quiet_auto. Qed.

End QuietGitlab.

Section QuietLaunchpad.
Context `{cache.Externals}.

Lemma quiet_launchpad_ensurePerson owner : quiet (launchpad.ensurePerson owner).
Proof. unfold launchpad.ensurePerson. quiet_auto. Qed.

End QuietLaunchpad.

(** ** Every importer returns right after an error result *)

#[export] Hint Resolve quiet_github_ensureIssue quiet_github_ensureTimelineItem
  quiet_gitlab_ensureIssue quiet_gitlab_ensureNote quiet_gitlab_ensureLabelEvent
  quiet_launchpad_ensurePerson : quiet.

(** One step through a piece of the goroutine. *)
Ltac guarded_step :=
  match goal with
  | |- guarded (emit _ ;; ret Return) => apply guarded_stop
  | |- guarded (ret _) => apply guarded_ret
  | |- guarded (bind _ (λ f, match f with Continue => _ | Return => ret Return end)) =>
      apply guarded_seq
  | |- guarded (bind _ _) => apply guarded_bind; [quiet_auto | intros ?]
  | |- guarded (if ?c then _ else _) => destruct c
  | |- guarded (match ?x with _ => _ end) => destruct x
  end.

Ltac guarded_auto := repeat guarded_step.

Section GuardedRuns.
Context `{cache.Externals}.

Lemma guarded_github_timelineLoop queryGhost b items :
  guarded (github.timelineLoop queryGhost b items).
Proof. induction items as [|item rest IH]; simpl; guarded_auto; done. Qed.

Lemma guarded_github_importIssue queryGhost issue :
  guarded (github.importIssue queryGhost issue).
Proof.
  unfold github.importIssue. guarded_auto.
  apply guarded_github_timelineLoop.
Qed.

Lemma guarded_github_issueLoop queryGhost ctx issues : ∀ n,
  guarded (github.issueLoop queryGhost ctx n issues).
Proof.
  induction issues as [|issue rest IH]; intros n; simpl; guarded_auto.
  - apply guarded_github_importIssue.
  - apply IH.
Qed.

Lemma guarded_github_goroutine queryGhost ctx it :
  guarded (github.goroutine queryGhost ctx it).
Proof.
  unfold github.goroutine. guarded_auto.
  apply guarded_github_issueLoop.
Qed.

Lemma guarded_gitlab_noteLoop GetNoteType NoteType_String GetUser issue b notes :
  guarded (gitlab.noteLoop GetNoteType NoteType_String GetUser issue b notes).
Proof. induction notes as [|note rest IH]; simpl; guarded_auto; done. Qed.

Lemma guarded_gitlab_labelEventLoop GetUser b events :
  guarded (gitlab.labelEventLoop GetUser b events).
Proof. induction events as [|ev rest IH]; simpl; guarded_auto; done. Qed.

Lemma guarded_gitlab_importIssue conf GetNoteType NoteType_String GetUser c :
  guarded (gitlab.importIssue conf GetNoteType NoteType_String GetUser c).
Proof.
  unfold gitlab.importIssue. guarded_auto.
  - apply guarded_gitlab_noteLoop.
  - apply guarded_gitlab_labelEventLoop.
Qed.

Lemma guarded_gitlab_issueLoop conf GetNoteType NoteType_String GetUser ctx it :
  ∀ n, guarded (gitlab.issueLoop conf GetNoteType NoteType_String GetUser ctx n it).
Proof.
  induction it as [|c rest IH]; intros n; simpl; guarded_auto.
  - apply guarded_gitlab_importIssue.
  - apply IH.
Qed.

Lemma guarded_launchpad_messageLoop parseUnix b lpBugID messages :
  guarded (launchpad.messageLoop parseUnix b lpBugID messages).
Proof. induction messages as [|m rest IH]; simpl; guarded_auto; done. Qed.

Lemma guarded_launchpad_handleMessages parseUnix lpBug lpBugID b err :
  guarded (launchpad.handleMessages parseUnix lpBug lpBugID b err).
Proof.
  unfold launchpad.handleMessages. guarded_auto.
  apply guarded_launchpad_messageLoop.
Qed.

Lemma guarded_launchpad_importBug parseUnix lpBug :
  guarded (launchpad.importBug parseUnix lpBug).
Proof.
  unfold launchpad.importBug. guarded_auto;
    apply guarded_launchpad_handleMessages.
Qed.

Lemma guarded_launchpad_bugLoop parseUnix ctx lpBugs : ∀ n,
  guarded (launchpad.bugLoop parseUnix ctx n lpBugs).
Proof.
  induction lpBugs as [|lpBug rest IH]; intros n; simpl; guarded_auto.
  - apply guarded_launchpad_importBug.
  - apply IH.
Qed.

End GuardedRuns.

(** ** The stream of a run *)

(** C6. For every import run of the three importers, an error result on
    the stream (a result with a non-nil [Err], or one without an event, as
    [NewImportError] builds them) is the last result of the run: nothing
    follows it. *)
Theorem error_result_is_last `{cache.Externals}
    (ctx : context.Context) (r : cache.RepoCache) :
  (∀ queryGhost it pre e post,
      out (github.ImportAll queryGhost ctx r it).2 = pre ++ e :: post →
      isError e = true → post = []) ∧
  (∀ conf GetNoteType NoteType_String GetUser it pre e post,
      out (gitlab.ImportAll conf GetNoteType NoteType_String GetUser ctx r it).2
        = pre ++ e :: post →
      isError e = true → post = []) ∧
  (∀ conf lpAPI_Init SearchTasks parseUnix run pre e post,
      launchpad.ImportAll conf lpAPI_Init SearchTasks parseUnix ctx r = inr run →
      out run.2 = pre ++ e :: post →
      isError e = true → post = []).
Proof.
  split; [| split].
  - intros queryGhost it pre e post E He.
    eapply guarded_error_last; [apply guarded_github_goroutine | | exact E | exact He].
    reflexivity.
  - intros conf GetNoteType NoteType_String GetUser it pre e post E He.
    eapply guarded_error_last; [apply guarded_gitlab_issueLoop | | exact E | exact He].
    reflexivity.
  - intros conf lpAPI_Init SearchTasks parseUnix run pre e post Hrun E He.
    unfold launchpad.ImportAll in Hrun.
    destruct lpAPI_Init; [done |].
    destruct (SearchTasks _) as [|lpBugs]; [done |].
    injection Hrun as <-.
    eapply guarded_error_last; [apply guarded_launchpad_bugLoop | | exact E | exact He].
    reflexivity.
Qed.

(** The cancelled GitHub run of the scenarios: its stream is one error
    result, with nothing behind it. *)
Lemma error_result_is_last_witness :
  out (scenario.githubRun scenario.cancelled scenario.emptyRepo
         scenario.labeledGithubIssue).2
    = [] ++ core.NewImportError (Some (ErrContext "context canceled")) "" :: [] ∧
  isError (core.NewImportError (Some (ErrContext "context canceled")) "") = true ∧
  @nil core.ImportResult = [].
Proof.
  split; [vm_compute; reflexivity |].
  split; [vm_compute; reflexivity |].
  destruct (@error_result_is_last scenario.externals scenario.cancelled
              scenario.emptyRepo) as [Hgithub _].
  apply (Hgithub (inl (ErrOther "no ghost")) scenario.labeledGithubIssue []
           (core.NewImportError (Some (ErrContext "context canceled")) "") []).
  - vm_compute. reflexivity.
  - vm_compute. reflexivity.
Defined.

(** ** Identities that share a metadata pair *)

Section Ambiguity.
Context `{cache.Externals}.

Lemma ResolveBugCreateMetadata_cases r key value :
  (∃ i, cache.ResolveBugCreateMetadata r key value = (Some i, None)) ∨
  cache.ResolveBugCreateMetadata r key value = (None, Some ErrBugNotExist).
Proof.
  unfold cache.ResolveBugCreateMetadata.
  destruct (list_find _ _) as [[i b]|]; [left; by exists i | by right].
Qed.

Lemma resolve_ambiguous r key value :
  (1 < length (holders r key value))%nat →
  cache.ResolveIdentityImmutableMetadata r key value
    = inl (ErrMultipleMatch (map identity.Id (holders r key value))).
Proof.
  unfold cache.ResolveIdentityImmutableMetadata, holders.
  destruct (filter _ _) as [|a [|b l]]; simpl; intros Hlen; [lia | lia | done].
Qed.

Lemma github_ensurePerson_ambiguous queryGhost w actor :
  (1 < length (holders (repo w) github.keyGithubLogin (github.Login actor)))%nat →
  github.ensurePerson queryGhost (Some actor) w
    = (Fail (ErrMultipleMatch
               (map identity.Id
                  (holders (repo w) github.keyGithubLogin (github.Login actor)))),
       w).
Proof.
  intros Hlen. unfold github.ensurePerson, bind,
    ResolveIdentityImmutableMetadata, readRepo.
  by rewrite (resolve_ambiguous _ _ _ Hlen).
Qed.

Lemma github_getGhost_ambiguous queryGhost w :
  (1 < length (holders (repo w) github.keyGithubLogin "ghost"))%nat →
  github.ensurePerson queryGhost None w
    = (Fail (ErrMultipleMatch
               (map identity.Id (holders (repo w) github.keyGithubLogin "ghost"))),
       w).
Proof.
  intros Hlen. unfold github.ensurePerson, github.getGhost, bind,
    ResolveIdentityImmutableMetadata, readRepo.
  by rewrite (resolve_ambiguous _ _ _ Hlen).
Qed.

Lemma gitlab_ensurePerson_ambiguous GetUser w id :
  (1 < length (holders (repo w) gitlab.keyGitlabId (pretty id)))%nat →
  gitlab.ensurePerson GetUser id w
    = (Fail (ErrMultipleMatch
               (map identity.Id (holders (repo w) gitlab.keyGitlabId (pretty id)))),
       w).
Proof.
  intros Hlen. unfold gitlab.ensurePerson, bind,
    ResolveIdentityImmutableMetadata, readRepo.
  by rewrite (resolve_ambiguous _ _ _ Hlen).
Qed.

Lemma launchpad_ensurePerson_ambiguous w owner :
  (1 < length (holders (repo w) launchpad.keyLaunchpadLogin
                 (launchpad.Login owner)))%nat →
  launchpad.ensurePerson owner w
    = (Fail (ErrMultipleMatch
               (map identity.Id
                  (holders (repo w) launchpad.keyLaunchpadLogin
                     (launchpad.Login owner)))),
       w).
Proof.
  intros Hlen. unfold launchpad.ensurePerson, bind,
    ResolveIdentityImmutableMetadata, readRepo.
  by rewrite (resolve_ambiguous _ _ _ Hlen).
Qed.

(** A GitHub run whose first issue is written by an ambiguous login ends
    with that error as its only result and leaves the repository as it
    was. *)
Lemma github_run_ambiguous queryGhost ctx r issue rest iterErr actor :
  context.Done ctx 0 = false →
  github.issue_Author issue = Some actor →
  (1 < length (holders r github.keyGithubLogin (github.Login actor)))%nat →
  github.ImportAll queryGhost ctx r (github.mkIterator (issue :: rest) iterErr)
    = (Ok Return,
       mkWorld r
         [core.NewImportError
            (Some (Errorf "issue creation: %v"
                     (ErrMultipleMatch
                        (map identity.Id
                           (holders r github.keyGithubLogin (github.Login actor))))))
            ""] 0 0).
Proof.
  intros Hctx Hauthor Hlen.
  unfold github.ImportAll, github.goroutine. simpl.
  rewrite Hctx.
  unfold bind at 1. unfold bind at 1.
  unfold github.importIssue. unfold bind at 1.
  unfold try, github.ensureIssue. unfold bind at 1.
  rewrite Hauthor, github_ensurePerson_ambiguous by exact Hlen.
  reflexivity.
Qed.

(** A Launchpad run whose first bug is owned by an ambiguous login ends
    with that error as its only result. *)
Lemma launchpad_run_ambiguous conf SearchTasks parseUnix ctx r lpBug rest :
  context.Done ctx 0 = false →
  SearchTasks (launchpad.confValue conf "project") = inr (lpBug :: rest) →
  (1 < length (holders r launchpad.keyLaunchpadLogin
                 (launchpad.Login (launchpad.Owner lpBug))))%nat →
  launchpad.ImportAll conf None SearchTasks parseUnix ctx r
    = inr (Ok Return,
           mkWorld r
             [core.NewImportError
                (Some (ErrMultipleMatch
                         (map identity.Id
                            (holders r launchpad.keyLaunchpadLogin
                               (launchpad.Login (launchpad.Owner lpBug))))))
                (pretty (launchpad.ID lpBug))] 0 0).
Proof.
  intros Hctx Htasks Hlen.
  unfold launchpad.ImportAll. rewrite Htasks. f_equal.
  simpl. rewrite Hctx.
  unfold bind at 1. unfold launchpad.importBug.
  unfold bind at 1. unfold ResolveBugCreateMetadata, readRepo.
  destruct (ResolveBugCreateMetadata_cases r launchpad.keyLaunchpadID
              (pretty (launchpad.ID lpBug))) as [[i Hres] | Hres];
    simpl; rewrite Hres; simpl;
    unfold bind at 1; unfold try;
    rewrite launchpad_ensurePerson_ambiguous by exact Hlen;
    reflexivity.
Qed.

(** A GitLab run whose first issue is written by an ambiguous user:
    [ensureIssue] returns the error with a nil bug, and building the
    error result from [b.Id()] panics before anything is sent. *)
Lemma gitlab_run_ambiguous conf GetNoteType NoteType_String GetUser ctx r c rest :
  context.Done ctx 0 = false →
  (1 < length (holders r gitlab.keyGitlabId
                 (pretty (gitlab.issue_AuthorID (gitlab.IssueValue c)))))%nat →
  gitlab.ImportAll conf GetNoteType NoteType_String GetUser ctx r (c :: rest)
    = (Panic "nil pointer dereference", mkWorld r [] 0 0).
Proof.
  intros Hctx Hlen.
  unfold gitlab.ImportAll. simpl. rewrite Hctx.
  unfold bind at 1. unfold gitlab.importIssue.
  unfold bind at 1. unfold try, gitlab.ensureIssue. unfold bind at 1.
  rewrite gitlab_ensurePerson_ambiguous by exact Hlen.
  reflexivity.
Qed.

End Ambiguity.

(** C8. Two identities hold the pair (gitlab-id, 7): the lookup by
    immutable metadata fails with the multiple-match error, which names
    both and picks none, and GitLab's [ensureIssue] returns it with a nil
    bug and the world unchanged.  [ImportAll] then builds the error
    result from [b.Id()] on that nil bug: the run panics, and no result,
    hence no error, reaches the caller.  Where the same error comes from
    the author of a note, GitLab's run ends with it as its last result;
    so do the GitHub run, on the author of an issue and on the actor of
    an event, and the Launchpad run, on the owner of a bug and on the
    owner of a message. *)
Theorem gitlab_ambiguous_author_panics :
  @cache.ResolveIdentityImmutableMetadata scenario.twoSevens gitlab.keyGitlabId "7"
    = inl (ErrMultipleMatch ["id-alice"; "id-alice-2"]) ∧
  @gitlab.ensureIssue scenario.externals ∅ scenario.gitlabUser scenario.gitlabIssue
     (mkWorld scenario.twoSevens [] 0 0)
    = (Fail (ErrMultipleMatch ["id-alice"; "id-alice-2"]),
       mkWorld scenario.twoSevens [] 0 0) ∧
  scenario.gitlabRun scenario.twoSevens scenario.bareIssue
    = (Panic "nil pointer dereference", mkWorld scenario.twoSevens [] 0 0) ∧
  (scenario.gitlabRun scenario.twoEights scenario.foreignIssue).1 = Ok Return ∧
  last (out (scenario.gitlabRun scenario.twoEights scenario.foreignIssue).2)
    = Some (core.NewImportError
              (Some (Errorf "note creation: %v"
                       (ErrMultipleMatch ["id-bob"; "id-bob-2"])))
              "504") ∧
  scenario.githubRun scenario.background scenario.twoAlices
    (github.mkIterator [scenario.githubIssue [] []] None)
    = (Ok Return,
       mkWorld scenario.twoAlices
         [core.NewImportError
            (Some (Errorf "issue creation: %v"
                     (ErrMultipleMatch ["id-alice"; "id-alice-2"])))
            ""] 0 0) ∧
  (scenario.githubRun scenario.background scenario.twoAlices scenario.daveIssue).1
    = Ok Return ∧
  last (out (scenario.githubRun scenario.background scenario.twoAlices
               scenario.daveIssue).2)
    = Some (core.NewImportError
              (Some (Errorf "timeline item creation: %v"
                       (ErrMultipleMatch ["id-alice"; "id-alice-2"])))
              "") ∧
  scenario.launchpadRun scenario.background scenario.twoBobs [scenario.lpBugNoMessages]
    = inr (Ok Return,
           mkWorld scenario.twoBobs
             [core.NewImportError (Some (ErrMultipleMatch ["id-bob"; "id-bob-2"])) "9"]
             0 0) ∧
  scenario.launchpadRun scenario.background scenario.carolRepo [scenario.lpBugOfCarol]
    = inr (Ok Return,
           mkWorld scenario.carolRepo
             [core.NewImportError (Some (ErrMultipleMatch ["id-bob"; "id-bob-2"])) ""]
             0 0).
Proof. vm_compute. repeat split; reflexivity. Qed.

(** ** The snapshot accessors *)

(** C9. On a snapshot with a non-empty operation list,
    [GetCreateMetadata key] returns the metadata lookup of the first
    operation.  The precondition is needed: on an empty list the call
    panics, whereas [LastEditTime] and [LastEditUnix] guard that case and
    return the epoch. *)
Theorem GetCreateMetadata_first_operation (snap : bug.Snapshot) (key : string) :
  (bug.Operations snap ≠ [] →
   ∃ op, bug.Operations snap !! 0%nat = Some op ∧
         bug.GetCreateMetadata snap key = Some (bug.GetMetadata op key)) ∧
  (bug.Operations snap = [] →
   bug.GetCreateMetadata snap key = None ∧
   bug.LastEditUnix snap = 0 ∧
   bug.LastEditTime snap = bug.time_Unix 0 0).
Proof.
  unfold bug.GetCreateMetadata, bug.LastEditUnix, bug.LastEditTime.
  split.
  - intros Hne. destruct (bug.Operations snap) as [|op ops]; [done |].
    by exists op.
  - intros ->. done.
Qed.

Lemma GetCreateMetadata_first_operation_witness :
  bug.Operations scenario.createdSnapshot ≠ [] ∧
  bug.GetCreateMetadata scenario.createdSnapshot github.keyGithubId
    = Some ("I1", true) ∧
  bug.Operations scenario.emptySnapshot = [] ∧
  bug.GetCreateMetadata scenario.emptySnapshot github.keyGithubId = None.
Proof.
  assert (Hne : bug.Operations scenario.createdSnapshot ≠ []) by discriminate.
  destruct (GetCreateMetadata_first_operation scenario.createdSnapshot
              github.keyGithubId) as [Hfirst _].
  destruct (GetCreateMetadata_first_operation scenario.emptySnapshot
              github.keyGithubId) as [_ Hempty].
  destruct (Hfirst Hne) as (op & Hop & Hget).
  destruct (Hempty eq_refl) as (Hpanic & _).
  split; [exact Hne |]. split.
  - injection Hop as <-. exact Hget.
  - split; [reflexivity | exact Hpanic].
Defined.

(** C10. Starting from a snapshot in which no id occurs twice among the
    actors nor among the participants (the empty snapshot that a replay
    starts from is one), every sequence of [addActor] and
    [addParticipant] calls leaves each id at most once in each list;
    adding an identity whose id is already present changes nothing; and
    [HasParticipant id] is true exactly when some participant has that
    id. *)
Theorem actors_and_participants_unique (snap : bug.Snapshot) (cs : list bug.Call) :
  NoDup (bug.ids (bug.Actors snap)) →
  NoDup (bug.ids (bug.Participants snap)) →
  let snap' := bug.calls snap cs in
  NoDup (bug.ids (bug.Actors snap')) ∧
  NoDup (bug.ids (bug.Participants snap')) ∧
  (∀ a, identity.Id a ∈ bug.ids (bug.Actors snap') → bug.addActor snap' a = snap') ∧
  (∀ p, identity.Id p ∈ bug.ids (bug.Participants snap') →
        bug.addParticipant snap' p = snap') ∧
  (∀ i, bug.HasParticipant snap' i = true ↔
        ∃ p, p ∈ bug.Participants snap' ∧ identity.Id p = i).
Proof.
  intros HA HP snap'.
  destruct (calls_NoDup cs snap HA HP) as [HA' HP'].
  repeat split; try done.
  - intros a Hin. unfold bug.addActor.
    apply hasId_spec in Hin. by rewrite Hin.
  - intros p Hin. unfold bug.addParticipant.
    apply hasId_spec in Hin. by rewrite Hin.
  - by intros Hi; apply HasParticipant_loop_spec.
  - by intros Hi; apply HasParticipant_loop_spec.
Qed.

Lemma actors_and_participants_unique_witness :
  NoDup (bug.ids (bug.Actors scenario.emptySnapshot)) ∧
  NoDup (bug.ids (bug.Participants scenario.emptySnapshot)) ∧
  let snap' :=
    bug.calls scenario.emptySnapshot
      [bug.CallAddActor scenario.aliceIdentity;
       bug.CallAddParticipant scenario.aliceIdentity;
       bug.CallAddActor scenario.aliceIdentity;
       bug.CallAddActor scenario.otherAlice] in
  bug.ids (bug.Actors snap') = ["id-alice"; "id-alice-2"] ∧
  bug.ids (bug.Participants snap') = ["id-alice"] ∧
  NoDup (bug.ids (bug.Actors snap')) ∧
  NoDup (bug.ids (bug.Participants snap')) ∧
  bug.addActor snap' scenario.aliceIdentity = snap' ∧
  bug.HasParticipant snap' "id-alice" = true.
Proof.
  assert (HA : NoDup (bug.ids (bug.Actors scenario.emptySnapshot)))
    by apply NoDup_nil_2.
  assert (HP : NoDup (bug.ids (bug.Participants scenario.emptySnapshot)))
    by apply NoDup_nil_2.
  split; [exact HA |]. split; [exact HP |].
  intros snap'.
  destruct (actors_and_participants_unique scenario.emptySnapshot
              [bug.CallAddActor scenario.aliceIdentity;
               bug.CallAddParticipant scenario.aliceIdentity;
               bug.CallAddActor scenario.aliceIdentity;
               bug.CallAddActor scenario.otherAlice] HA HP)
    as (HA' & HP' & Hactor & _ & Hhas).
  split; [reflexivity |]. split; [reflexivity |].
  split; [exact HA' |]. split; [exact HP' |]. split.
  - apply Hactor. vm_compute. left.
  - apply Hhas. exists scenario.aliceIdentity. split; [| reflexivity].
    vm_compute. left.
Defined.

(** ** Runs on the scenarios *)

Section GitlabNotes.
Context `{cache.Externals}.
Variable GetNoteType : gitlab.Note → gitlab.NoteType * string.
Variable NoteType_String : gitlab.NoteType → string.
Variable GetUser : Z → error + gitlab.User.

(** A closing note is appended whatever the log already holds: the log
    is not searched for the note's id. *)
Lemma gitlab_closed_note_appends issue w i bg note body author :
  GetNoteType note = (gitlab.NOTE_CLOSED, body) →
  cache.bugs (repo w) !! i = Some bg →
  cache.ResolveIdentityImmutableMetadata (repo w) gitlab.keyGitlabId
    (pretty (gitlab.note_AuthorID note)) = inr author →
  cache.opValidate (closeOperation author note) = None →
  gitlab.ensureNote GetNoteType NoteType_String GetUser issue (Some i) note w
    = (Ok tt,
       appended w i bg (closeOperation author note)
         (core.NewImportStatusChange
            (cache.opHash (closeOperation author note)))).
Proof.
  intros Htype Hbug Hauthor Hvalid.
  unfold gitlab.ensureNote, gitlab.ensurePerson.
  unfold bind at 1. unfold bind at 1.
  unfold ResolveIdentityImmutableMetadata, readRepo. rewrite Hauthor. simpl.
  rewrite Htype.
  unfold bind at 1. unfold CloseRaw, rawOp, onBug. rewrite Hbug.
  unfold cache.appendOp. fold (closeOperation author note). rewrite Hvalid.
  reflexivity.
Qed.

(** A comment whose id no operation of the log carries makes
    [ensureNote] return [ErrNoMatchingOp]; nothing is appended or
    sent. *)
Lemma gitlab_new_comment_fails issue w i bg note body author :
  GetNoteType note = (gitlab.NOTE_COMMENT, body) →
  cache.bugs (repo w) !! i = Some bg →
  cache.ResolveIdentityImmutableMetadata (repo w) gitlab.keyGitlabId
    (pretty (gitlab.note_AuthorID note)) = inr author →
  Forall (λ op, ¬ cache.holds gitlab.keyGitlabId
                    (gitlab.parseID (gitlab.note_ID note)) (bug.Metadata op))
         (cache.ops bg) →
  gitlab.ensureNote GetNoteType NoteType_String GetUser issue (Some i) note w
    = (Fail ErrNoMatchingOp, w).
Proof.
  intros Htype Hbug Hauthor Hnone.
  unfold gitlab.ensureNote, gitlab.ensurePerson.
  unfold bind at 1. unfold bind at 1.
  unfold ResolveIdentityImmutableMetadata, readRepo. rewrite Hauthor. simpl.
  rewrite Htype.
  unfold bind at 1. unfold ResolveOperationWithMetadata, onBug. rewrite Hbug.
  unfold cache.resolveOperation.
  rewrite (proj2 (list_find_None _ _) Hnone).
  destruct w; reflexivity.
Qed.

(** A note that reports a changed description appends an edit of the
    first comment, and the result sent for it is a title edition. *)
Lemma gitlab_description_note_result issue w i bg note body author first rest :
  GetNoteType note = (gitlab.NOTE_DESCRIPTION_CHANGED, body) →
  cache.bugs (repo w) !! i = Some bg →
  cache.ResolveIdentityImmutableMetadata (repo w) gitlab.keyGitlabId
    (pretty (gitlab.note_AuthorID note)) = inr author →
  cache.SnapshotComments bg = first :: rest →
  gitlab.Description issue ≠ bug.Message first →
  cache.opValidate (descriptionEdit author issue note first) = None →
  gitlab.ensureNote GetNoteType NoteType_String GetUser issue (Some i) note w
    = (Ok tt,
       appended w i bg (descriptionEdit author issue note first)
         (core.NewImportTitleEdition
            (cache.opHash (descriptionEdit author issue note first)))).
Proof.
  intros Htype Hbug Hauthor Hcomments Hdiff Hvalid.
  unfold gitlab.ensureNote, gitlab.ensurePerson.
  unfold bind at 1. unfold bind at 1.
  unfold ResolveIdentityImmutableMetadata, readRepo. rewrite Hauthor. simpl.
  rewrite Htype.
  unfold bind at 1. unfold Snapshot_Comments, onBug at 1. rewrite Hbug.
  rewrite Hcomments.
  rewrite bool_decide_eq_true_2 by exact Hdiff.
  unfold bind at 1. unfold EditCommentRaw, rawOp, onBug. simpl.
  rewrite Hbug.
  unfold cache.appendOp. fold (descriptionEdit author issue note first).
  rewrite Hvalid.
  reflexivity.
Qed.

(** Cancellation seen at the poll before an issue: the error result
    carries [ctx.Err()] and the goroutine returns. *)
Lemma gitlab_cancelled conf ctx n c rest w :
  context.Done ctx n = true →
  gitlab.issueLoop conf GetNoteType NoteType_String GetUser ctx n (c :: rest) w
    = (Ok Return, sent w (core.NewImportError (Some (context.Err ctx)) "")).
Proof. intros Hdone. simpl. by rewrite Hdone. Qed.

End GitlabNotes.

Section GithubEvents.
Context `{cache.Externals}.
Variable queryGhost : error + github.ghostUser.

(** A closed, reopened or renamed-title event whose id an operation of
    the log already carries: [ensureTimelineItem] returns nil at the
    first test of [err] and sends nothing. *)
Lemma github_closed_event_known w i bg item h :
  github.item_Typename item = "ClosedEvent" →
  cache.bugs (repo w) !! i = Some bg →
  cache.resolveOperation (cache.ops bg) github.keyGithubId
    (github.parseId (github.event_Id (github.ClosedEvent item))) = (h, None) →
  github.ensureTimelineItem queryGhost (Some i) item w = (Ok tt, w).
Proof.
  intros Htype Hbug Hop.
  unfold github.ensureTimelineItem. rewrite Htype. simpl.
  unfold bind, ResolveOperationWithMetadata, onBug. rewrite Hbug, Hop.
  destruct w; reflexivity.
Qed.

Lemma github_reopened_event_known w i bg item h :
  github.item_Typename item = "ReopenedEvent" →
  cache.bugs (repo w) !! i = Some bg →
  cache.resolveOperation (cache.ops bg) github.keyGithubId
    (github.parseId (github.event_Id (github.ReopenedEvent item))) = (h, None) →
  github.ensureTimelineItem queryGhost (Some i) item w = (Ok tt, w).
Proof.
  intros Htype Hbug Hop.
  unfold github.ensureTimelineItem. rewrite Htype. simpl.
  unfold bind, ResolveOperationWithMetadata, onBug. rewrite Hbug, Hop.
  destruct w; reflexivity.
Qed.

Lemma github_renamed_event_known w i bg item h :
  github.item_Typename item = "RenamedTitleEvent" →
  cache.bugs (repo w) !! i = Some bg →
  cache.resolveOperation (cache.ops bg) github.keyGithubId
    (github.parseId
       (github.event_Id (github.renamed_Event (github.RenamedTitleEvent item))))
    = (h, None) →
  github.ensureTimelineItem queryGhost (Some i) item w = (Ok tt, w).
Proof.
  intros Htype Hbug Hop.
  unfold github.ensureTimelineItem. rewrite Htype. simpl.
  unfold bind, ResolveOperationWithMetadata, onBug. rewrite Hbug, Hop.
  destruct w; reflexivity.
Qed.

(** The sibling path: a labeled event already imported sends a Nothing
    result. *)
Lemma github_labeled_event_known w i bg item h :
  github.item_Typename item = "LabeledEvent" →
  cache.bugs (repo w) !! i = Some bg →
  cache.resolveOperation (cache.ops bg) github.keyGithubId
    (github.parseId
       (github.event_Id (github.label_Event (github.LabeledEvent item))))
    = (h, None) →
  github.ensureTimelineItem queryGhost (Some i) item w
    = (Ok tt,
       sent w (core.NewImportNothing ""
                 "operation already imported: LabeledEvent")).
Proof.
  intros Htype Hbug Hop.
  unfold github.ensureTimelineItem. rewrite Htype. simpl.
  unfold bind, ResolveOperationWithMetadata, onBug. rewrite Hbug, Hop.
  destruct w; reflexivity.
Qed.

(** Cancellation seen at the poll before an issue: the error result
    carries [ctx.Err()] and the goroutine returns. *)
Lemma github_cancelled ctx n issue rest w :
  context.Done ctx n = true →
  github.issueLoop queryGhost ctx n (issue :: rest) w
    = (Ok Return, sent w (core.NewImportError (Some (context.Err ctx)) "")).
Proof. intros Hdone. simpl. by rewrite Hdone. Qed.

End GithubEvents.

Section LaunchpadRuns.
Context `{cache.Externals}.
Variable parseUnix : string → Z.

(** Cancellation seen at the poll before a bug: the goroutine returns
    and sends nothing. *)
Lemma launchpad_cancelled ctx n lpBug rest w :
  context.Done ctx n = true →
  launchpad.bugLoop parseUnix ctx n (lpBug :: rest) w = (Ok Return, w).
Proof. intros Hdone. simpl. by rewrite Hdone. Qed.

(** A bug without messages whose owner is resolved or created: the last
    result is built by [NewImportError] from a nil error. *)
Lemma launchpad_no_messages lpBug w owner w' :
  launchpad.Messages lpBug = [] →
  launchpad.ensurePerson (launchpad.Owner lpBug) w = (Ok owner, w') →
  launchpad.importBug parseUnix lpBug w
    = (Ok Return,
       sent w' (core.NewImportError None
                  ("failed to fetch comments for bug #"
                     +:+ pretty (launchpad.ID lpBug)))).
Proof.
  intros Hmsgs Howner.
  unfold launchpad.importBug.
  unfold bind at 1. unfold ResolveBugCreateMetadata, readRepo.
  destruct (ResolveBugCreateMetadata_cases (repo w) launchpad.keyLaunchpadID
              (pretty (launchpad.ID lpBug))) as [[i ->] | ->]; simpl;
    unfold bind at 1; unfold try; rewrite Howner; simpl;
    unfold launchpad.handleMessages; rewrite Hmsgs; reflexivity.
Qed.

End LaunchpadRuns.

(** C1, on the code. The GitLab importer run twice on the same remote
    data, an issue closed by one note: after the first run the log is
    creation and close, and the close operation carries the note's id as
    metadata; the second run appends a second close operation and sends a
    status-change result for it. *)
Theorem gitlab_second_run_appends_again :
  let first := scenario.gitlabRun scenario.emptyRepo scenario.closedIssue in
  let second := scenario.gitlabRun (repo first.2) scenario.closedIssue in
  first.1 = Ok Continue ∧
  scenario.logs first.2 = [[scenario.gitlabCreateOp; scenario.gitlabCloseOp]] ∧
  bug.GetMetadata scenario.gitlabCloseOp gitlab.keyGitlabId = ("501", true) ∧
  second.1 = Ok Continue ∧
  scenario.logs second.2
    = [[scenario.gitlabCreateOp; scenario.gitlabCloseOp; scenario.gitlabCloseOp]] ∧
  out second.2
    = [core.NewImportNothing "" "bug already imported";
       core.NewImportStatusChange "close/id-alice/2000"].
Proof. vm_compute. repeat split; reflexivity. Qed.

(** The GitHub importer run twice on an issue whose body was edited once:
    the second run appends nothing, yet its last result is a
    comment-edition result, sent by [ensureIssue] after
    [ensureCommentEdit] has found the edit already imported. *)
Lemma github_second_run_sends_edition :
  let first := scenario.githubRun scenario.background scenario.emptyRepo
                 scenario.editedGithubIssue in
  let second := scenario.githubRun scenario.background (repo first.2)
                  scenario.editedGithubIssue in
  scenario.logs first.2 = [[scenario.githubCreateOp; scenario.githubEditOp]] ∧
  scenario.logs second.2 = scenario.logs first.2 ∧
  out second.2
    = [core.NewImportNothing "" "bug already imported";
       core.NewImportNothing "" "edition already imported";
       core.NewImportCommentEdition "create/id-alice/1000"].
Proof. vm_compute. repeat split; reflexivity. Qed.

(** C2, on the code. The GitLab importer on an issue with one comment that
    was never imported: the lookup of the comment's id answers
    [ErrNoMatchingOp], [ensureNote] returns it, and the run ends with the
    error result "note creation" for note 502; the comment is not
    appended. *)
Theorem gitlab_new_comment_aborts_run :
  let run := scenario.gitlabRun scenario.emptyRepo scenario.commentedIssue in
  run.1 = Ok Return ∧
  out run.2
    = [core.NewImportIdentity "id-alice";
       core.NewImportBug "create/id-alice/1000";
       core.NewImportError (Some (Errorf "note creation: %v" ErrNoMatchingOp)) "502"] ∧
  scenario.logs run.2 = [[scenario.gitlabCreateOp]].
Proof. vm_compute. repeat split; reflexivity. Qed.

(** C3, on the code. The GitLab importer on an imported issue whose
    description changed remotely: the operation appended is an edit of the
    first comment, and the result sent for it is a title-edition result
    with that operation's hash. *)
Theorem gitlab_description_edit_sends_title_edition :
  let first := scenario.gitlabRun scenario.emptyRepo scenario.bareIssue in
  let run := scenario.gitlabRun (repo first.2) scenario.editedIssue in
  run.1 = Ok Continue ∧
  scenario.logs run.2 = [[scenario.gitlabCreateOp; scenario.gitlabEditOp]] ∧
  bug.payload scenario.gitlabEditOp
    = bug.EditCommentOp "create/id-alice/1000" "new desc" ∧
  out run.2
    = [core.NewImportNothing "" "bug already imported";
       core.NewImportTitleEdition (scenario.hashOf scenario.gitlabEditOp)].
Proof. vm_compute. repeat split; reflexivity. Qed.

(** C4, on the code. The GitHub importer run twice on an issue with one
    closed event: the second run finds the event's id in the log, skips
    the append, and sends no result for the event; the only result is the
    one for the issue.  The same two runs with a labeled event send a
    Nothing result for the event. *)
Theorem github_known_closed_event_sends_nothing :
  let first := scenario.githubRun scenario.background scenario.emptyRepo
                 scenario.closedGithubIssue in
  let second := scenario.githubRun scenario.background (repo first.2)
                  scenario.closedGithubIssue in
  let first' := scenario.githubRun scenario.background scenario.emptyRepo
                  scenario.labeledGithubIssue in
  let second' := scenario.githubRun scenario.background (repo first'.2)
                   scenario.labeledGithubIssue in
  scenario.logs first.2 = [[scenario.githubCreateOp; scenario.githubCloseOp]] ∧
  scenario.logs second.2 = scenario.logs first.2 ∧
  out second.2 = [core.NewImportNothing "" "bug already imported"] ∧
  scenario.logs second'.2 = scenario.logs first'.2 ∧
  out second'.2
    = [core.NewImportNothing "" "bug already imported";
       core.NewImportNothing "" "operation already imported: LabeledEvent"].
Proof. vm_compute. repeat split; reflexivity. Qed.

(** C5, on the code. With the context cancelled before the first item,
    the Launchpad importer returns without sending anything, whereas the
    GitHub and GitLab importers send one error result that carries
    [ctx.Err()]. *)
Theorem launchpad_cancellation_is_silent :
  scenario.launchpadRun scenario.cancelled scenario.emptyRepo
    [scenario.lpBugNoMessages]
    = inr (Ok Return, mkWorld scenario.emptyRepo [] 0 0) ∧
  out (scenario.githubRun scenario.cancelled scenario.emptyRepo
         scenario.closedGithubIssue).2
    = [core.NewImportError (Some (ErrContext "context canceled")) ""] ∧
  out (@gitlab.ImportAll scenario.externals ∅ scenario.gitlabNoteType (λ _, "")
         scenario.gitlabUser scenario.cancelled scenario.emptyRepo
         scenario.closedIssue).2
    = [core.NewImportError (Some (ErrContext "context canceled")) ""].
Proof. vm_compute. repeat split; reflexivity. Qed.

(** C7, on the code. The Launchpad importer on a bug without messages:
    the run stops on a result built by [NewImportError] whose [Err] is
    nil; a consumer that tests [Err] takes it for an ordinary result and
    [String] panics on it.  No bug is created. *)
Theorem launchpad_no_messages_error_is_nil :
  ∃ w,
    scenario.launchpadRun scenario.background scenario.emptyRepo
      [scenario.lpBugNoMessages] = inr (Ok Return, w) ∧
    out w = [core.NewImportError None "failed to fetch comments for bug #9"] ∧
    core.Err (core.NewImportError None "failed to fetch comments for bug #9") = None ∧
    core.String (core.NewImportError None "failed to fetch comments for bug #9") = None ∧
    cache.bugs (repo w) = [].
Proof. eexists. vm_compute. repeat split; reflexivity. Qed.

(* ================================================================== *)
(** * Further properties *)
(* ================================================================== *)

(** ** Relations every move of an importer respects *)

#[export] Existing Instance discipline_preorder.

Section Steps.
Context `{cache.Externals}.
Context (R : relation World) (P : core.ImportResult → Prop) `{!Discipline R P}.

Lemma setRepo_same w : setRepo w (repo w) = w.
Proof. by destruct w. Qed.

Lemma steps_ret {A} (a : A) : steps R (ret a).
Proof. intros w. reflexivity. Qed.

Lemma steps_fail {A} e : steps R (@fail A e).
Proof. intros w. reflexivity. Qed.

Lemma steps_panic {A} msg : steps R (@panic A msg).
Proof. intros w. reflexivity. Qed.

Lemma steps_bind {A B} (m : M A) (k : A → M B) :
  steps R m → (∀ a, steps R (k a)) → steps R (bind m k).
Proof.
  intros Hm Hk w. specialize (Hm w). unfold bind.
  destruct (m w) as [[a|e|msg] w1]; simpl in *; [| done | done].
  transitivity w1; [done | apply Hk].
Qed.

Lemma steps_try {A} (m : M A) : steps R m → steps R (try m).
Proof.
  intros Hm w. specialize (Hm w). unfold try.
  by destruct (m w) as [[a|e|msg] w1].
Qed.

Lemma steps_emit r : P r → steps R (emit r).
Proof. intros Hr w. by apply discipline_sent. Qed.

Lemma steps_incrImportedIssues : steps R incrImportedIssues.
Proof. intros w. apply discipline_counters. Qed.

Lemma steps_incrImportedIdentities : steps R incrImportedIdentities.
Proof. intros w. apply discipline_counters. Qed.

Lemma steps_readRepo {A} (f : cache.RepoCache → A) : steps R (readRepo f).
Proof. intros w. reflexivity. Qed.

Lemma steps_returnErr err : steps R (returnErr err).
Proof. destruct err; [apply steps_fail | apply steps_ret]. Qed.

Lemma steps_Cleanup s : steps R (Cleanup s).
Proof.
  unfold Cleanup. destruct (cache.text_Cleanup s); [apply steps_fail | apply steps_ret].
Qed.

Lemma steps_HashOf op : steps R (HashOf op).
Proof.
  unfold HashOf. destruct (cache.Operation_Hash op); [apply steps_fail | apply steps_ret].
Qed.

Lemma steps_deref p : steps R (deref p).
Proof. destruct p; [apply steps_ret | apply steps_panic]. Qed.

(** A method that only reads the bug. *)
Lemma steps_onBug_read {A} b (g : cache.RepoCache → nat → cache.Bug → A) :
  steps R (onBug b (λ r i bg, (r, g r i bg))).
Proof.
  intros w. unfold onBug. destruct b as [i|]; [| reflexivity].
  destruct (cache.bugs (repo w) !! i); [| reflexivity].
  simpl. rewrite setRepo_same. reflexivity.
Qed.

Lemma steps_ResolveBugCreateMetadata key value :
  steps R (ResolveBugCreateMetadata key value).
Proof. apply steps_readRepo. Qed.

Lemma steps_ResolveIdentityImmutableMetadata key value :
  steps R (ResolveIdentityImmutableMetadata key value).
Proof. apply steps_readRepo. Qed.

Lemma steps_BugCache_Id b : steps R (BugCache_Id b).
Proof. apply (steps_onBug_read b (λ _ _ bg, cache.bugId bg)). Qed.

Lemma steps_ResolveOperationWithMetadata b key value :
  steps R (ResolveOperationWithMetadata b key value).
Proof.
  apply (steps_onBug_read b (λ _ _ bg, cache.resolveOperation (cache.ops bg) key value)).
Qed.

Lemma steps_Snapshot_Comments b : steps R (Snapshot_Comments b).
Proof. apply (steps_onBug_read b (λ _ _ bg, cache.SnapshotComments bg)). Qed.

Lemma steps_CommitAsNeeded b : steps R (CommitAsNeeded b).
Proof. apply (steps_onBug_read b (λ _ _ bg, cache.commitError (cache.ops bg))). Qed.

Lemma steps_NewIdentityRaw name email login avatarUrl metadata :
  steps R (NewIdentityRaw name email login avatarUrl metadata).
Proof.
  intros w. unfold NewIdentityRaw, onRepo, cache.NewIdentityRaw.
  destruct (cache.identityValidate _ _ _ _); simpl.
  - rewrite setRepo_same. reflexivity.
  - apply discipline_identity.
Qed.

Lemma steps_NewBugRaw `{!CreatesBugs R} author unixTime title message metadata :
  steps R (NewBugRaw author unixTime title message metadata).
Proof.
  intros w. unfold NewBugRaw, onRepo, cache.NewBugRaw.
  destruct (cache.opValidate _); simpl.
  - rewrite setRepo_same. reflexivity.
  - apply creates_bug.
Qed.

Lemma steps_rawOp b author unixTime p metadata :
  steps R (rawOp b author unixTime p metadata).
Proof.
  intros w. unfold rawOp, onBug. destruct b as [i|]; [| reflexivity].
  destruct (cache.bugs (repo w) !! i) as [bg|] eqn:Hbug; [| reflexivity].
  unfold cache.appendOp. destruct (cache.opValidate _); simpl.
  - rewrite setRepo_same. reflexivity.
  - by apply discipline_append.
Qed.

Lemma steps_AddCommentRaw b author unixTime message metadata :
  steps R (AddCommentRaw b author unixTime message metadata).
Proof. apply steps_rawOp. Qed.

Lemma steps_EditCommentRaw b author unixTime target message metadata :
  steps R (EditCommentRaw b author unixTime target message metadata).
Proof. apply steps_rawOp. Qed.

Lemma steps_CloseRaw b author unixTime metadata :
  steps R (CloseRaw b author unixTime metadata).
Proof. apply steps_rawOp. Qed.

Lemma steps_OpenRaw b author unixTime metadata :
  steps R (OpenRaw b author unixTime metadata).
Proof. apply steps_rawOp. Qed.

Lemma steps_SetTitleRaw b author unixTime title metadata :
  steps R (SetTitleRaw b author unixTime title metadata).
Proof. apply steps_rawOp. Qed.

Lemma steps_ForceChangeLabelsRaw b author unixTime added removed metadata :
  steps R (ForceChangeLabelsRaw b author unixTime added removed metadata).
Proof. apply steps_rawOp. Qed.

End Steps.

Create HintDb steps.

#[export] Hint Resolve steps_ret steps_fail steps_panic steps_incrImportedIssues
  steps_incrImportedIdentities steps_readRepo steps_returnErr steps_Cleanup
  steps_HashOf steps_deref steps_ResolveBugCreateMetadata
  steps_ResolveIdentityImmutableMetadata steps_BugCache_Id
  steps_ResolveOperationWithMetadata steps_Snapshot_Comments steps_CommitAsNeeded
  steps_NewIdentityRaw steps_NewBugRaw steps_rawOp steps_AddCommentRaw
  steps_EditCommentRaw steps_CloseRaw steps_OpenRaw steps_SetTitleRaw
  steps_ForceChangeLabelsRaw : steps.

(** The condition on a result that is sent: it follows from one of the
    assumptions made on the results the relation admits. *)
Ltac steps_result :=
  match goal with
  | H : ∀ e reason, ?P (core.NewImportError (Some e) reason)
    |- ?P (core.NewImportError (Some _) _) => apply H
  | H : ∀ r, nonError r → ?P r |- ?P _ => apply H; reflexivity
  | H : ∀ r, notBug r → ?P r |- ?P _ => apply H; unfold notBug; simpl; discriminate
  end.

Ltac steps_step :=
  match goal with
  | |- steps _ (bind _ _) => eapply steps_bind; [tc_solve | | intros ?]
  | |- steps _ (try _) => apply steps_try
  | |- steps _ (emit _) => eapply steps_emit; [tc_solve | steps_result]
  | |- steps _ (if bool_decide (None = Some _) then _ else _) =>
      rewrite bool_decide_eq_false_2 by discriminate
  | |- steps _ (if ?c then _ else _) => destruct c
  | |- steps _ (match ?x with _ => _ end) => destruct x
  | |- steps _ _ => solve [eauto with steps typeclass_instances]
  end.

Ltac steps_auto := repeat steps_step.

Section StepsImporters.
Context `{cache.Externals}.
Context (R : relation World) (P : core.ImportResult → Prop).
Context `{!Discipline R P} `{!CreatesBugs R}.
(** The results the relation admits: every result that is not an error
    result, and every error result with a cause. *)
Hypothesis admits_plain : ∀ r, nonError r → P r.
Hypothesis admits_error : ∀ e reason, P (core.NewImportError (Some e) reason).

Lemma steps_github_ensurePerson queryGhost a :
  steps R (github.ensurePerson queryGhost a).
Proof.
  unfold github.ensurePerson. destruct a; [| unfold github.getGhost]; steps_auto.
Qed.
Hint Resolve steps_github_ensurePerson : steps.

Lemma steps_github_ensureCommentEdit queryGhost b target edit :
  steps R (github.ensureCommentEdit queryGhost b target edit).
Proof. unfold github.ensureCommentEdit. steps_auto. Qed.
Hint Resolve steps_github_ensureCommentEdit : steps.

Lemma steps_github_ensureIssue_edits queryGhost issue author edits : ∀ i b,
  steps R (github.ensureIssue_edits queryGhost issue author i edits b).
Proof. induction edits as [|edit rest IH]; intros i b; simpl; steps_auto. Qed.
Hint Resolve steps_github_ensureIssue_edits : steps.

Lemma steps_github_ensureIssue queryGhost issue :
  steps R (github.ensureIssue queryGhost issue).
Proof. unfold github.ensureIssue. steps_auto. Qed.
Hint Resolve steps_github_ensureIssue : steps.

Lemma steps_github_ensureTimelineComment_edits queryGhost b item edits : ∀ i target,
  steps R (github.ensureTimelineComment_edits queryGhost b item i edits target).
Proof. induction edits as [|edit rest IH]; intros i target; simpl; steps_auto. Qed.
Hint Resolve steps_github_ensureTimelineComment_edits : steps.

Lemma steps_github_ensureTimelineComment queryGhost b item edits :
  steps R (github.ensureTimelineComment queryGhost b item edits).
Proof. unfold github.ensureTimelineComment. steps_auto. Qed.
Hint Resolve steps_github_ensureTimelineComment : steps.

Lemma steps_github_ensureTimelineItem queryGhost b item :
  steps R (github.ensureTimelineItem queryGhost b item).
Proof. unfold github.ensureTimelineItem. steps_auto. Qed.
Hint Resolve steps_github_ensureTimelineItem : steps.

Lemma steps_github_timelineLoop queryGhost b items :
  steps R (github.timelineLoop queryGhost b items).
Proof. induction items as [|item rest IH]; simpl; steps_auto. Qed.
Hint Resolve steps_github_timelineLoop : steps.

Lemma steps_github_importIssue queryGhost issue :
  steps R (github.importIssue queryGhost issue).
Proof. unfold github.importIssue. steps_auto. Qed.
Hint Resolve steps_github_importIssue : steps.

Lemma steps_github_issueLoop queryGhost ctx issues : ∀ n,
  steps R (github.issueLoop queryGhost ctx n issues).
Proof. induction issues as [|issue rest IH]; intros n; simpl; steps_auto. Qed.
Hint Resolve steps_github_issueLoop : steps.

Lemma steps_github_goroutine queryGhost ctx it :
  steps R (github.goroutine queryGhost ctx it).
Proof. unfold github.goroutine. steps_auto. Qed.

Lemma steps_gitlab_ensurePerson GetUser id : steps R (gitlab.ensurePerson GetUser id).
Proof. unfold gitlab.ensurePerson. steps_auto. Qed.
Hint Resolve steps_gitlab_ensurePerson : steps.

Lemma steps_gitlab_ensureIssue conf GetUser issue :
  steps R (gitlab.ensureIssue conf GetUser issue).
Proof. unfold gitlab.ensureIssue. steps_auto. Qed.
Hint Resolve steps_gitlab_ensureIssue : steps.

Lemma steps_gitlab_ensureNote GetNoteType NoteType_String GetUser issue b note :
  steps R (gitlab.ensureNote GetNoteType NoteType_String GetUser issue b note).
Proof. unfold gitlab.ensureNote. steps_auto. Qed.
Hint Resolve steps_gitlab_ensureNote : steps.

Lemma steps_gitlab_ensureLabelEvent GetUser b labelEvent :
  steps R (gitlab.ensureLabelEvent GetUser b labelEvent).
Proof. unfold gitlab.ensureLabelEvent. steps_auto. Qed.
Hint Resolve steps_gitlab_ensureLabelEvent : steps.

Lemma steps_gitlab_noteLoop GetNoteType NoteType_String GetUser issue b notes :
  steps R (gitlab.noteLoop GetNoteType NoteType_String GetUser issue b notes).
Proof. induction notes as [|note rest IH]; simpl; steps_auto. Qed.
Hint Resolve steps_gitlab_noteLoop : steps.

Lemma steps_gitlab_labelEventLoop GetUser b events :
  steps R (gitlab.labelEventLoop GetUser b events).
Proof. induction events as [|ev rest IH]; simpl; steps_auto. Qed.
Hint Resolve steps_gitlab_labelEventLoop : steps.

Lemma steps_gitlab_importIssue conf GetNoteType NoteType_String GetUser c :
  steps R (gitlab.importIssue conf GetNoteType NoteType_String GetUser c).
Proof. unfold gitlab.importIssue. steps_auto. Qed.
Hint Resolve steps_gitlab_importIssue : steps.

Lemma steps_gitlab_issueLoop conf GetNoteType NoteType_String GetUser ctx it : ∀ n,
  steps R (gitlab.issueLoop conf GetNoteType NoteType_String GetUser ctx n it).
Proof. induction it as [|c rest IH]; intros n; simpl; steps_auto. Qed.

End StepsImporters.

Section StepsLaunchpad.
Context `{cache.Externals}.
Context (R : relation World) (P : core.ImportResult → Prop) `{!Discipline R P}.
(** The results the relation admits: every result but the announcement of
    a new bug. *)
Hypothesis admits_notBug : ∀ r, notBug r → P r.
Variable parseUnix : string → Z.

Lemma steps_launchpad_ensurePerson owner : steps R (launchpad.ensurePerson owner).
Proof. unfold launchpad.ensurePerson. steps_auto. Qed.
Hint Resolve steps_launchpad_ensurePerson : steps.

Lemma steps_launchpad_messageLoop b lpBugID messages :
  steps R (launchpad.messageLoop parseUnix b lpBugID messages).
Proof. induction messages as [|m rest IH]; simpl; steps_auto. Qed.
Hint Resolve steps_launchpad_messageLoop : steps.

Lemma steps_launchpad_handleMessages lpBug lpBugID b err :
  steps R (launchpad.handleMessages parseUnix lpBug lpBugID b err).
Proof. unfold launchpad.handleMessages. steps_auto. Qed.
Hint Resolve steps_launchpad_handleMessages : steps.

(** The branch that would create the bug is never taken: the error
    variable it tests is nil. *)
Lemma steps_launchpad_importBug lpBug :
  steps R (launchpad.importBug parseUnix lpBug).
Proof. unfold launchpad.importBug. cbv zeta. steps_auto. Qed.
Hint Resolve steps_launchpad_importBug : steps.

Lemma steps_launchpad_bugLoop ctx lpBugs : ∀ n,
  steps R (launchpad.bugLoop parseUnix ctx n lpBugs).
Proof. induction lpBugs as [|lpBug rest IH]; intros n; simpl; steps_auto. Qed.

End StepsLaunchpad.

(** ** Three such relations *)

Lemma extends_refl r : extends r r.
Proof. split; [done |]. intros i b Hb. by exists b. Qed.

Lemma extends_trans r1 r2 r3 : extends r1 r2 → extends r2 r3 → extends r1 r3.
Proof.
  intros [Hi12 Hb12] [Hi23 Hb23]. split; [by etrans |].
  intros i b Hb.
  destruct (Hb12 i b Hb) as (b2 & Hb2 & Hid2 & Hops2).
  destruct (Hb23 i b2 Hb2) as (b3 & Hb3 & Hid3 & Hops3).
  exists b3. split; [done |]. split; [congruence | by etrans].
Qed.

#[export] Instance grows_preorder : PreOrder grows.
Proof.
  split.
  - intros w. apply extends_refl.
  - intros w1 w2 w3. apply extends_trans.
Qed.

#[export] Instance grows_discipline : Discipline grows (λ _, True).
Proof.
  split.
  - apply _.
  - intros w r _. apply extends_refl.
  - intros w a b. apply extends_refl.
  - intros w i. split; simpl.
    + by apply prefix_app_r.
    + intros j b Hb. by exists b.
  - intros w i bg op Hbug. split; simpl; [done |].
    intros j b Hb. destruct (decide (i = j)) as [<- | Hne].
    + exists (cache.mkBug (cache.bugId bg) (cache.ops bg ++ [op])).
      assert (b = bg) as -> by congruence.
      split; [| split; [done | by apply prefix_app_r]].
      apply list_lookup_insert_eq. by eapply lookup_lt_Some.
    + exists b. by rewrite list_lookup_insert_ne.
Qed.

#[export] Instance grows_creates : CreatesBugs grows.
Proof.
  intros w b. split; simpl; [done |].
  intros j b' Hb. exists b'. split; [| done]. by apply lookup_app_l_Some.
Qed.

Lemma streams_same_out Q w w' : out w' = out w → streams Q w w'.
Proof. intros E. exists []. by rewrite app_nil_r. Qed.

Lemma streams_refl Q w : streams Q w w.
Proof. by apply streams_same_out. Qed.

#[export] Instance streams_preorder Q : PreOrder (streams Q).
Proof.
  split.
  - intros w. apply streams_refl.
  - intros w1 w2 w3 (l1 & E1 & F1) (l2 & E2 & F2).
    exists (l1 ++ l2). rewrite E2, E1, app_assoc. split; [done | by apply Forall_app].
Qed.

#[export] Instance streams_discipline Q : Discipline (streams Q) Q.
Proof.
  split.
  - apply _.
  - intros w r Hr. exists [r]. split; [done | by constructor].
  - intros w a b. by apply streams_same_out.
  - intros w i. by apply streams_same_out.
  - intros w i bg op _. by apply streams_same_out.
Qed.

#[export] Instance streams_creates Q : CreatesBugs (streams Q).
Proof. intros w b. by apply streams_same_out. Qed.

#[export] Instance keepsBugs_preorder : PreOrder keepsBugs.
Proof.
  split.
  - intros w. split; [done | apply streams_refl].
  - intros w1 w2 w3 [L12 S12] [L23 S23]. split; [congruence | by etrans].
Qed.

#[export] Instance keepsBugs_discipline : Discipline keepsBugs notBug.
Proof.
  split.
  - apply _.
  - intros w r Hr. split; [done |]. by apply (discipline_sent (R := streams notBug)).
  - intros w a b. split; [done | by apply streams_same_out].
  - intros w i. split; [done | by apply streams_same_out].
  - intros w i bg op _. split; [| by apply streams_same_out].
    simpl. by rewrite length_insert.
Qed.

(** ** What a run leaves behind *)

Lemma printResults_printable l :
  Forall printable l →
  ∃ lines, commands.printResults l = (lines, Ok tt) ∧ length lines = length l.
Proof.
  induction 1 as [|r l [line Hr] _ (lines & IH & Hlen)]; simpl.
  - by exists [].
  - rewrite Hr, IH. exists (line :: lines). simpl. by rewrite Hlen.
Qed.

Lemma nonError_printable r : nonError r → printable r.
Proof.
  unfold nonError, isError, printable, commands.printResult, core.String.
  destruct r as [[e|] [] i reason]; simpl; try done; by eexists.
Qed.

(** X1. The printing loop of the pull command never panics on the stream
    of a GitHub or GitLab run: every result these importers send either
    carries an error or has an event that [String] knows, so the loop
    prints one line per result and ends normally. *)
Theorem github_gitlab_streams_print `{cache.Externals}
    (ctx : context.Context) (r : cache.RepoCache) :
  (∀ queryGhost it,
     ∃ lines,
       commands.printResults (out (github.ImportAll queryGhost ctx r it).2)
         = (lines, Ok tt) ∧
       length lines = length (out (github.ImportAll queryGhost ctx r it).2)) ∧
  (∀ conf GetNoteType NoteType_String GetUser it,
     ∃ lines,
       commands.printResults
         (out (gitlab.ImportAll conf GetNoteType NoteType_String GetUser ctx r it).2)
         = (lines, Ok tt) ∧
       length lines
         = length (out (gitlab.ImportAll conf GetNoteType NoteType_String GetUser
                          ctx r it).2)).
Proof.
  assert (He : ∀ e reason, printable (core.NewImportError (Some e) reason))
    by (intros e reason; by eexists).
  split.
  - intros queryGhost it.
    destruct (steps_github_goroutine (streams printable) printable
                nonError_printable He queryGhost ctx it (mkWorld r [] 0 0))
      as (l & E & F).
    unfold github.ImportAll. rewrite E. by apply printResults_printable.
  - intros conf GetNoteType NoteType_String GetUser it.
    destruct (steps_gitlab_issueLoop (streams printable) printable
                nonError_printable He conf GetNoteType NoteType_String GetUser
                ctx it 0%nat (mkWorld r [] 0 0))
      as (l & E & F).
    unfold gitlab.ImportAll. rewrite E. by apply printResults_printable.
Qed.

(** X2. No run of an importer removes or rewrites anything: after a run
    of the GitHub, GitLab or Launchpad importer every identity and every
    bug of the repository is still in its place, every bug keeps its id,
    and its log before the run is the beginning of its log after it. *)
Theorem runs_only_append `{cache.Externals}
    (ctx : context.Context) (r : cache.RepoCache) :
  (∀ queryGhost it, extends r (repo (github.ImportAll queryGhost ctx r it).2)) ∧
  (∀ conf GetNoteType NoteType_String GetUser it,
     extends r
       (repo (gitlab.ImportAll conf GetNoteType NoteType_String GetUser ctx r it).2)) ∧
  (∀ conf lpAPI_Init SearchTasks parseUnix run,
     launchpad.ImportAll conf lpAPI_Init SearchTasks parseUnix ctx r = inr run →
     extends r (repo run.2)).
Proof.
  split; [| split].
  - intros queryGhost it.
    apply (steps_github_goroutine grows (λ _, True) (λ _ _, I) (λ _ _, I)
             queryGhost ctx it (mkWorld r [] 0 0)).
  - intros conf GetNoteType NoteType_String GetUser it.
    apply (steps_gitlab_issueLoop grows (λ _, True) (λ _ _, I) (λ _ _, I)
             conf GetNoteType NoteType_String GetUser ctx it 0%nat
             (mkWorld r [] 0 0)).
  - intros conf lpAPI_Init SearchTasks parseUnix run Hrun.
    unfold launchpad.ImportAll in Hrun.
    destruct lpAPI_Init; [done |].
    destruct (SearchTasks _) as [|lpBugs]; [done |].
    injection Hrun as <-.
    apply (steps_launchpad_bugLoop grows (λ _, True) (λ _ _, I) parseUnix
             ctx lpBugs 0%nat (mkWorld r [] 0 0)).
Qed.

(** X3. The Launchpad importer never creates a bug: whatever the remote
    data, a run leaves the number of bugs unchanged and sends no result
    that announces a new bug.  (The test [err == bug.ErrBugNotExist] that
    guards the creation reads an error variable that is nil.) *)
Theorem launchpad_never_creates_bug `{cache.Externals}
    (ctx : context.Context) (r : cache.RepoCache)
    conf lpAPI_Init SearchTasks parseUnix run :
  launchpad.ImportAll conf lpAPI_Init SearchTasks parseUnix ctx r = inr run →
  length (cache.bugs (repo run.2)) = length (cache.bugs r) ∧
  Forall (λ result, core.Event result ≠ core.ImportEventBug) (out run.2).
Proof.
  intros Hrun. unfold launchpad.ImportAll in Hrun.
  destruct lpAPI_Init; [done |].
  destruct (SearchTasks _) as [|lpBugs]; [done |].
  injection Hrun as <-.
  destruct (steps_launchpad_bugLoop keepsBugs notBug (λ _ Hr, Hr) parseUnix
              ctx lpBugs 0%nat (mkWorld r [] 0 0)) as (Hlen & l & E & F).
  split; [exact Hlen |]. by rewrite E.
Qed.

(** ** Looking an identity up after creating it *)

Section EnsurePerson.
Context `{cache.Externals}.

Lemma resolve_missing r key value e :
  cache.ResolveIdentityImmutableMetadata r key value = inl e →
  isErrMultipleMatch e = false →
  holders r key value = [].
Proof.
  unfold cache.ResolveIdentityImmutableMetadata, holders.
  destruct (filter _ _) as [|a [|b l]]; simpl; intros E He; by simplify_eq.
Qed.

Lemma resolve_single r key value i :
  holders r key value = [i] →
  cache.ResolveIdentityImmutableMetadata r key value = inr i.
Proof.
  unfold cache.ResolveIdentityImmutableMetadata, holders. by intros ->.
Qed.

Lemma holders_new r key value i :
  holders r key value = [] →
  identity.ImmutableMetadata i !! key = Some value →
  holders (cache.setIdentities r (cache.identities r ++ [i])) key value = [i].
Proof.
  unfold holders. simpl. intros Hnone Hi.
  rewrite filter_app, Hnone. simpl.
  rewrite filter_cons_True by exact Hi. done.
Qed.

Lemma resolve_same_identities r r' key value :
  cache.identities r' = cache.identities r →
  cache.ResolveIdentityImmutableMetadata r' key value
    = cache.ResolveIdentityImmutableMetadata r key value.
Proof. unfold cache.ResolveIdentityImmutableMetadata. by intros ->. Qed.

(** After a successful [ensurePerson] the lookup it starts with finds the
    identity it returned. *)
Lemma github_ensurePerson_resolves queryGhost actor w i w1 :
  github.ensurePerson queryGhost (Some actor) w = (Ok i, w1) →
  cache.ResolveIdentityImmutableMetadata (repo w1) github.keyGithubLogin
    (github.Login actor) = inr i.
Proof.
  unfold github.ensurePerson, bind, ResolveIdentityImmutableMetadata, readRepo.
  destruct (cache.ResolveIdentityImmutableMetadata (repo w) _ _) as [e|i0] eqn:E.
  - destruct (isErrMultipleMatch e) eqn:He; [done |].
    simpl.
    match goal with |- context [let (_, _) := ?x in _] => destruct x as [name email] end.
    unfold NewIdentityRaw, onRepo, cache.NewIdentityRaw. simpl.
    destruct (cache.identityValidate _ _ _ _); [done |].
    simpl. intros [= <- <-]. simpl.
    apply resolve_single, holders_new; [by eapply resolve_missing |].
    simpl. apply lookup_singleton_eq.
  - by intros [= <- <-].
Qed.

Lemma github_ensurePerson_found queryGhost actor w i :
  cache.ResolveIdentityImmutableMetadata (repo w) github.keyGithubLogin
    (github.Login actor) = inr i →
  github.ensurePerson queryGhost (Some actor) w = (Ok i, w).
Proof.
  intros E. unfold github.ensurePerson, bind, ResolveIdentityImmutableMetadata,
    readRepo. by rewrite E.
Qed.

Lemma gitlab_ensurePerson_resolves GetUser id w i w1 :
  gitlab.ensurePerson GetUser id w = (Ok i, w1) →
  cache.ResolveIdentityImmutableMetadata (repo w1) gitlab.keyGitlabId (pretty id)
    = inr i.
Proof.
  unfold gitlab.ensurePerson, bind, ResolveIdentityImmutableMetadata, readRepo.
  destruct (cache.ResolveIdentityImmutableMetadata (repo w) _ _) as [e|i0] eqn:E.
  - destruct (isErrMultipleMatch e) eqn:He; [done |].
    destruct (GetUser id) as [e'|user]; [done |].
    unfold NewIdentityRaw, onRepo, cache.NewIdentityRaw. simpl.
    destruct (cache.identityValidate _ _ _ _); [done |].
    simpl. intros [= <- <-]. simpl.
    apply resolve_single, holders_new; [by eapply resolve_missing |].
    simpl. apply lookup_insert_eq.
  - by intros [= <- <-].
Qed.

Lemma gitlab_ensurePerson_found GetUser id w i :
  cache.ResolveIdentityImmutableMetadata (repo w) gitlab.keyGitlabId (pretty id)
    = inr i →
  gitlab.ensurePerson GetUser id w = (Ok i, w).
Proof.
  intros E. unfold gitlab.ensurePerson, bind, ResolveIdentityImmutableMetadata,
    readRepo. by rewrite E.
Qed.


Lemma launchpad_ensurePerson_found owner w i :
  cache.ResolveIdentityImmutableMetadata (repo w) launchpad.keyLaunchpadLogin
    (launchpad.Login owner) = inr i →
  launchpad.ensurePerson owner w = (Ok i, w).
Proof.
  intros E. unfold launchpad.ensurePerson, bind, ResolveIdentityImmutableMetadata,
    readRepo. by rewrite E.
Qed.

(** [ensurePerson] reads and writes identities only. *)
Lemma github_ensurePerson_bugs queryGhost a w o w1 :
  github.ensurePerson queryGhost a w = (o, w1) →
  cache.bugs (repo w1) = cache.bugs (repo w).
Proof.
  unfold github.ensurePerson, github.getGhost, bind,
    ResolveIdentityImmutableMetadata, readRepo.
  destruct a as [actor|].
  - destruct (cache.ResolveIdentityImmutableMetadata (repo w) _ _) as [e|i0];
      [| by intros [= <- <-]].
    destruct (isErrMultipleMatch e); [by intros [= <- <-] |].
    simpl.
    match goal with |- context [let (_, _) := ?x in _] => destruct x as [name email] end.
    unfold NewIdentityRaw, onRepo, cache.NewIdentityRaw. simpl.
    destruct (cache.identityValidate _ _ _ _); simpl; by intros [= <- <-].
  - destruct (cache.ResolveIdentityImmutableMetadata (repo w) _ _) as [e|i0];
      [| by intros [= <- <-]].
    destruct (isErrMultipleMatch e); [by intros [= <- <-] |].
    destruct queryGhost as [e'|q]; [by intros [= <- <-] |].
    unfold NewIdentityRaw, onRepo, cache.NewIdentityRaw. simpl.
    destruct (cache.identityValidate _ _ _ _); simpl; by intros [= <- <-].
Qed.

Lemma gitlab_ensurePerson_bugs GetUser id w o w1 :
  gitlab.ensurePerson GetUser id w = (o, w1) →
  cache.bugs (repo w1) = cache.bugs (repo w).
Proof.
  unfold gitlab.ensurePerson, bind, ResolveIdentityImmutableMetadata, readRepo.
  destruct (cache.ResolveIdentityImmutableMetadata (repo w) _ _) as [e|i0];
    [| by intros [= <- <-]].
  destruct (isErrMultipleMatch e); [by intros [= <- <-] |].
  destruct (GetUser id) as [e'|user]; [by intros [= <- <-] |].
  unfold NewIdentityRaw, onRepo, cache.NewIdentityRaw. simpl.
  destruct (cache.identityValidate _ _ _ _); simpl; by intros [= <- <-].
Qed.

Lemma resolveOperation_appended l op key value :
  bug.Metadata op !! key = Some value →
  ∃ h, cache.resolveOperation (l ++ [op]) key value = (h, None).
Proof.
  intros Hop. unfold cache.resolveOperation.
  destruct (list_find_elem_of (λ o, cache.holds key value (bug.Metadata o))
              (l ++ [op]) op) as [[j x] E].
  - apply elem_of_app. right. by left.
  - exact Hop.
  - rewrite E. by eexists.
Qed.

End EnsurePerson.

(** ** The identity of a deleted user *)

Section Ghost.
Context `{cache.Externals}.
Variable queryGhost : error + github.ghostUser.

Lemma resolve_found_holds r key value i :
  cache.ResolveIdentityImmutableMetadata r key value = inr i →
  cache.holds key value (identity.ImmutableMetadata i).
Proof.
  unfold cache.ResolveIdentityImmutableMetadata.
  destruct (filter _ _) as [|a [|b l]] eqn:E; [done | | done].
  intros [= <-].
  assert (Hin : a ∈ filter (λ i, cache.holds key value (identity.ImmutableMetadata i))
                    (cache.identities r)) by (rewrite E; left).
  by apply list_elem_of_filter in Hin as [Hin _].
Qed.

Lemma holders_other r key value i :
  ¬ cache.holds key value (identity.ImmutableMetadata i) →
  holders (cache.setIdentities r (cache.identities r ++ [i])) key value
    = holders r key value.
Proof.
  unfold holders. simpl. intros Hi.
  rewrite filter_app, filter_cons_False by exact Hi.
  by rewrite filter_nil, app_nil_r.
Qed.

Lemma holders_same_identities r r' key value :
  cache.identities r' = cache.identities r →
  holders r' key value = holders r key value.
Proof. unfold holders. by intros ->. Qed.

Lemma resolve_none r key value :
  holders r key value = [] →
  cache.ResolveIdentityImmutableMetadata r key value = inl ErrIdentityNotExist.
Proof. unfold cache.ResolveIdentityImmutableMetadata, holders. by intros ->. Qed.

(** How a successful [getGhost] went: the identity was found, or nobody
    held the login "ghost" and the identity was made from the answer to
    the query. *)
Lemma github_getGhost_cases w i w1 :
  github.ensurePerson queryGhost None w = (Ok i, w1) →
  (cache.ResolveIdentityImmutableMetadata (repo w) github.keyGithubLogin "ghost"
     = inr i ∧ w1 = w) ∨
  (holders (repo w) github.keyGithubLogin "ghost" = [] ∧
   ∃ q, queryGhost = inr q ∧
        cache.identityValidate
          (match github.ghost_Name q with Some n => n | None => "" end)
          "" (github.ghost_Login q) (github.ghost_AvatarUrl q) = None ∧
        i = identity.mkIdentity
              (cache.identityId
                 (match github.ghost_Name q with Some n => n | None => "" end)
                 "" (github.ghost_Login q) (github.ghost_AvatarUrl q)
                 {[ github.keyGithubLogin := github.ghost_Login q ]})
              (match github.ghost_Name q with Some n => n | None => "" end)
              "" (github.ghost_Login q) (github.ghost_AvatarUrl q)
              {[ github.keyGithubLogin := github.ghost_Login q ]} ∧
        w1 = setRepo w (cache.setIdentities (repo w)
                          (cache.identities (repo w) ++ [i]))).
Proof.
  unfold github.ensurePerson, github.getGhost, bind,
    ResolveIdentityImmutableMetadata, readRepo.
  destruct (cache.ResolveIdentityImmutableMetadata (repo w) _ _) as [e|i0] eqn:E.
  - destruct (isErrMultipleMatch e) eqn:He; [done |].
    destruct queryGhost as [e'|q]; [done |].
    unfold NewIdentityRaw, onRepo, cache.NewIdentityRaw.
    destruct (cache.identityValidate _ _ _ _) eqn:Hvalid; [done |].
    simpl. intros [= <- <-]. right.
    split; [by eapply resolve_missing |]. by exists q.
  - intros [= <- <-]. by left.
Qed.

(** After a successful [getGhost] the lookup it starts with finds the
    identity it returned, when that identity holds the login "ghost". *)
Lemma github_getGhost_resolves w i w1 :
  github.ensurePerson queryGhost None w = (Ok i, w1) →
  cache.holds github.keyGithubLogin "ghost" (identity.ImmutableMetadata i) →
  cache.ResolveIdentityImmutableMetadata (repo w1) github.keyGithubLogin "ghost"
    = inr i.
Proof.
  intros Hfirst Hi.
  destruct (github_getGhost_cases _ _ _ Hfirst)
    as [[Hres ->] | (Hnone & q & _ & _ & _ & ->)]; [done |].
  simpl. by apply resolve_single, holders_new.
Qed.

Lemma github_getGhost_found w i :
  cache.ResolveIdentityImmutableMetadata (repo w) github.keyGithubLogin "ghost" = inr i →
  github.ensurePerson queryGhost None w = (Ok i, w).
Proof.
  intros E. unfold github.ensurePerson, github.getGhost, bind,
    ResolveIdentityImmutableMetadata, readRepo. by rewrite E.
Qed.

(** The identity [getGhost] returned holds the login "ghost" as soon as
    some identity of the world it left does. *)
Lemma github_getGhost_holds w i w1 :
  github.ensurePerson queryGhost None w = (Ok i, w1) →
  holders (repo w1) github.keyGithubLogin "ghost" ≠ [] →
  cache.holds github.keyGithubLogin "ghost" (identity.ImmutableMetadata i).
Proof.
  intros Hfirst Hsome.
  destruct (github_getGhost_cases _ _ _ Hfirst)
    as [[Hres ->] | (Hnone & q & _ & _ & _ & ->)].
  - by eapply resolve_found_holds.
  - destruct (decide (cache.holds github.keyGithubLogin "ghost"
                        (identity.ImmutableMetadata i))) as [|Hno]; [done |].
    exfalso. apply Hsome. simpl. by rewrite holders_other.
Qed.

(** With nobody holding the login "ghost", [getGhost] makes an identity
    from the answer to the query. *)
Lemma github_getGhost_missing w i w1 :
  github.ensurePerson queryGhost None w = (Ok i, w1) →
  holders (repo w1) github.keyGithubLogin "ghost" = [] →
  ∀ w2, cache.identities (repo w2) = cache.identities (repo w1) →
    github.ensurePerson queryGhost None w2
    = (Ok i, setRepo w2 (cache.setIdentities (repo w2)
                           (cache.identities (repo w2) ++ [i]))).
Proof.
  intros Hfirst Hnone w2 Hids.
  destruct (github_getGhost_cases _ _ _ Hfirst)
    as [[Hres ->] | (_ & q & Hq & Hvalid & Hi & _)].
  - apply resolve_found_holds in Hres as Hi.
    apply resolve_none in Hnone. by rewrite Hnone in Hres.
  - unfold github.ensurePerson, github.getGhost, bind,
      ResolveIdentityImmutableMetadata, readRepo.
    rewrite resolve_none by (by rewrite (holders_same_identities _ _ _ _ Hids)).
    simpl. rewrite Hq.
    unfold NewIdentityRaw, onRepo, cache.NewIdentityRaw.
    rewrite Hvalid. simpl. by rewrite <- Hi.
Qed.



End Ghost.


Section EventsTwice.
Context `{cache.Externals}.
Variable queryGhost : error + github.ghostUser.

(** The shape shared by the five kinds of event: after a successful
    append of an operation carrying the event's id, the lookup of that id
    succeeds. *)
Lemma lookup_after_rawOp w wa i bg author unixTime p key value op w1 :
  cache.bugs (repo w) !! i = Some bg →
  cache.bugs (repo wa) = cache.bugs (repo w) →
  rawOp (Some i) author unixTime p {[ key := value ]} wa = (Ok (inr op), w1) →
  ∃ h, ResolveOperationWithMetadata (Some i) key value w1 = (Ok (h, None), w1).
Proof.
  intros Hbug Hsame. unfold rawOp, ResolveOperationWithMetadata, onBug.
  rewrite Hsame, Hbug. unfold cache.appendOp.
  destruct (cache.opValidate _); [done |].
  simpl. intros [= <- <-]. simpl.
  rewrite list_lookup_insert_eq by (rewrite Hsame; by eapply lookup_lt_Some).
  simpl.
  edestruct resolveOperation_appended as [h' ->]; [apply lookup_singleton_eq |].
  exists h'. by rewrite setRepo_same.
Qed.

Lemma lookup_unchanged_by_emit b key value w r x :
  ResolveOperationWithMetadata b key value w = (Ok x, w) →
  ResolveOperationWithMetadata b key value (sent w r) = (Ok x, sent w r).
Proof.
  unfold ResolveOperationWithMetadata, onBug. destruct b as [i|]; [| done].
  destruct w as [rp o a b]. simpl.
  destruct (cache.bugs rp !! i); [| done].
  by intros [= ->].
Qed.

(** The lookup that opens the processing of an event, when it does not
    panic: it leaves the world as it is and the bug exists. *)
Lemma lookup_world b key value w x w0 :
  ResolveOperationWithMetadata b key value w = (Ok x, w0) →
  w0 = w ∧ ∃ i bg, b = Some i ∧ cache.bugs (repo w) !! i = Some bg.
Proof.
  unfold ResolveOperationWithMetadata, onBug. destruct b as [i|]; [| done].
  destruct (cache.bugs (repo w) !! i) as [bg|] eqn:Hbug; [| done].
  simpl. rewrite setRepo_same. intros [= _ <-]. eauto.
Qed.








End EventsTwice.

(** ** Importing an issue twice *)

Section IssuesTwice.
Context `{cache.Externals}.

(** The bug lookup after the creation of a bug whose creation operation
    holds the pair, when no bug held it before. *)
Lemma resolveBug_created r key value b e op id :
  cache.ResolveBugCreateMetadata r key value = (b, Some e) →
  bug.Metadata op !! key = Some value →
  cache.ResolveBugCreateMetadata
    (cache.setBugs r (cache.bugs r ++ [cache.mkBug id [op]])) key value
    = (Some (length (cache.bugs r)), None).
Proof.
  unfold cache.ResolveBugCreateMetadata. simpl.
  destruct (list_find _ (cache.bugs r)) as [[j x]|] eqn:E; [done |].
  intros _ Hop.
  assert (list_find (cache.createHolds key value)
            (cache.bugs r ++ [cache.mkBug id [op]])
          = Some (length (cache.bugs r), cache.mkBug id [op])) as ->; [| done].
  apply list_find_app_Some. right. split; [lia |]. split; [done |].
  rewrite Nat.sub_diag. simpl.
  rewrite decide_True; [done |]. exact Hop.
Qed.

Lemma gitlab_ensureIssue_twice conf GetUser issue w b w1 :
  gitlab.ensureIssue conf GetUser issue w = (Ok b, w1) →
  gitlab.ensureIssue conf GetUser issue w1
    = (Ok b, sent w1 (core.NewImportNothing "" "bug already imported")).
Proof.
  unfold gitlab.ensureIssue. intros Hfirst. unfold bind at 1 in Hfirst.
  destruct (gitlab.ensurePerson _ _ w) as [[author|?|?] wa] eqn:Hperson; [| done | done].
  apply gitlab_ensurePerson_resolves in Hperson.
  unfold bind at 1 in Hfirst. unfold ResolveBugCreateMetadata, readRepo in Hfirst.
  destruct (cache.ResolveBugCreateMetadata (repo wa) _ _) as [b0 err] eqn:Hbug.
  destruct (ResolveBugCreateMetadata_cases (repo wa) gitlab.keyGitlabUrl
              (gitlab.WebURL issue)) as [[j Hj] | Hj]; rewrite Hj in Hbug;
    injection Hbug as <- <-; simpl in Hfirst.
  - assert (b = Some j ∧ w1 = sent wa (core.NewImportNothing "" "bug already imported"))
      as [-> ->] by (revert Hfirst; unfold bind, emit, ret; by intros [= <- <-]).
    unfold bind at 1.
    rewrite (gitlab_ensurePerson_found GetUser _ _ author) by done.
    unfold bind at 1. unfold ResolveBugCreateMetadata, readRepo. simpl.
    by rewrite Hj.
  - unfold bind at 1 in Hfirst. unfold Cleanup in Hfirst.
    destruct (cache.text_Cleanup _) as [?|cleanText]; [done |].
    unfold ret at 1 in Hfirst. unfold bind at 1 in Hfirst.
    unfold NewBugRaw, onRepo, cache.NewBugRaw in Hfirst.
    destruct (cache.opValidate _) eqn:Hvalid; [done |].
    simpl in Hfirst. unfold bind at 1, incrImportedIssues in Hfirst.
    unfold bind at 1, BugCache_Id, onBug in Hfirst. simpl in Hfirst.
    rewrite lookup_app_r in Hfirst by done.
    rewrite Nat.sub_diag in Hfirst. simpl in Hfirst.
    unfold bind, emit, ret in Hfirst. simpl in Hfirst. injection Hfirst as <- <-.
    unfold bind at 1.
    rewrite (gitlab_ensurePerson_found GetUser _ _ author) by done.
    unfold bind at 1. unfold ResolveBugCreateMetadata, readRepo. simpl.
    erewrite resolveBug_created; [done | exact Hj |].
    simpl. rewrite !lookup_insert_ne by done. apply lookup_insert_eq.
Qed.

End IssuesTwice.

Section IssueAgain.
Context `{cache.Externals}.
Variable queryGhost : error + github.ghostUser.

(** What a successful [ensureIssue] on an issue without edits leaves:
    the author it resolved, no identity beyond that, and a repository in
    which the lookup of the issue's URL finds the bug it returned. *)
Lemma github_ensureIssue_shape issue w b w1 :
  github.issue_Edits issue = [] →
  github.ensureIssue queryGhost issue w = (Ok b, w1) →
  ∃ author wa,
    github.ensurePerson queryGhost (github.issue_Author issue) w = (Ok author, wa) ∧
    cache.identities (repo w1) = cache.identities (repo wa) ∧
    cache.ResolveBugCreateMetadata (repo w1) github.keyGithubUrl (github.issue_Url issue)
      = (b, None).
Proof.
  unfold github.ensureIssue. intros Hedits. rewrite Hedits.
  cbv zeta. rewrite (bool_decide_eq_true_2 (length (@nil github.userContentEdit) = 0%nat))
    by done.
  intros Hfirst. unfold bind at 1 in Hfirst.
  destruct (github.ensurePerson _ _ w) as [[author|?|?] wa] eqn:Hperson; [| done | done].
  exists author, wa. split; [done |].
  unfold bind at 1 in Hfirst. unfold ResolveBugCreateMetadata, readRepo in Hfirst.
  destruct (cache.ResolveBugCreateMetadata (repo wa) _ _) as [b0 err] eqn:Hbug.
  destruct (ResolveBugCreateMetadata_cases (repo wa) github.keyGithubUrl
              (github.issue_Url issue)) as [[j Hj] | Hj]; rewrite Hj in Hbug;
    injection Hbug as <- <-; simpl in Hfirst.
  - assert (b = Some j ∧ w1 = sent wa (core.NewImportNothing "" "bug already imported"))
      as [-> ->] by (revert Hfirst; unfold bind, emit, ret; by intros [= <- <-]).
    done.
  - unfold bind at 1 in Hfirst. unfold Cleanup in Hfirst.
    destruct (cache.text_Cleanup _) as [?|cleanText]; [done |].
    unfold ret at 1 in Hfirst. unfold bind at 1 in Hfirst.
    unfold NewBugRaw, onRepo, cache.NewBugRaw in Hfirst.
    destruct (cache.opValidate _) eqn:Hvalid; [done |].
    simpl in Hfirst.
    unfold bind at 1, BugCache_Id, onBug in Hfirst. simpl in Hfirst.
    rewrite lookup_app_r in Hfirst by done.
    rewrite Nat.sub_diag in Hfirst. simpl in Hfirst.
    unfold bind, emit, incrImportedIssues, ret in Hfirst. simpl in Hfirst.
    injection Hfirst as <- <-. simpl. split; [done |].
    erewrite resolveBug_created; [done | exact Hj |].
    simpl. rewrite !lookup_insert_ne by done. apply lookup_singleton_eq.
Qed.

(** [ensureIssue] on an issue without edits whose bug is there already:
    the author is resolved, the one result is sent, the bug returned. *)
Lemma github_ensureIssue_known issue w author w2 b :
  github.issue_Edits issue = [] →
  github.ensurePerson queryGhost (github.issue_Author issue) w = (Ok author, w2) →
  cache.ResolveBugCreateMetadata (repo w2) github.keyGithubUrl (github.issue_Url issue)
    = (b, None) →
  github.ensureIssue queryGhost issue w
    = (Ok b, sent w2 (core.NewImportNothing "" "bug already imported")).
Proof.
  intros Hedits Hperson Hbug. unfold github.ensureIssue. rewrite Hedits.
  cbv zeta. rewrite (bool_decide_eq_true_2 (length (@nil github.userContentEdit) = 0%nat))
    by done.
  unfold bind at 1. rewrite Hperson.
  unfold bind at 1. unfold ResolveBugCreateMetadata, readRepo. by rewrite Hbug.
Qed.

Lemma github_ensureIssue_again issue w b w1 :
  github.issue_Edits issue = [] →
  github.ensureIssue queryGhost issue w = (Ok b, w1) →
  (github.issue_Author issue = None →
   holders (repo w1) github.keyGithubLogin "ghost" ≠ []) →
  github.ensureIssue queryGhost issue w1
    = (Ok b, sent w1 (core.NewImportNothing "" "bug already imported")).
Proof.
  intros Hedits Hfirst Hghost.
  destruct (github_ensureIssue_shape _ _ _ _ Hedits Hfirst)
    as (author & wa & Hperson & Hids & Hbug).
  apply (github_ensureIssue_known _ _ author); [done | | done].
  destruct (github.issue_Author issue) as [actor|].
  - apply github_ensurePerson_found.
    rewrite (resolve_same_identities (repo wa) (repo w1)) by done.
    by eapply github_ensurePerson_resolves.
  - apply github_getGhost_found.
    rewrite (resolve_same_identities (repo wa) (repo w1)) by done.
    eapply github_getGhost_resolves; [done |].
    eapply github_getGhost_holds; [done |].
    rewrite <- (holders_same_identities _ _ _ _ Hids). by apply Hghost.
Qed.

(** The issue of a deleted user, when no identity holds the login
    "ghost": the second call makes one more identity before it finds the
    bug. *)
Lemma github_ensureIssue_ghost_again issue w b w1 :
  github.issue_Edits issue = [] →
  github.ensureIssue queryGhost issue w = (Ok b, w1) →
  github.issue_Author issue = None →
  holders (repo w1) github.keyGithubLogin "ghost" = [] →
  ∃ i, github.ensureIssue queryGhost issue w1
       = (Ok b,
          sent (setRepo w1 (cache.setIdentities (repo w1)
                              (cache.identities (repo w1) ++ [i])))
            (core.NewImportNothing "" "bug already imported")).
Proof.
  intros Hedits Hfirst Hauthor Hnone.
  destruct (github_ensureIssue_shape _ _ _ _ Hedits Hfirst)
    as (author & wa & Hperson & Hids & Hbug).
  exists author.
  apply (github_ensureIssue_known _ _ author); [done | | done].
  rewrite Hauthor in Hperson |- *.
  apply (github_getGhost_missing _ w author wa); [done | | done].
  by rewrite <- (holders_same_identities _ _ _ _ Hids).
Qed.

End IssueAgain.

(** ** Messages and label events seen again *)

Section SeenAgain.
Context `{cache.Externals}.

Lemma resolveOperation_held l key value op :
  op ∈ l → bug.Metadata op !! key = Some value →
  ∃ h, cache.resolveOperation l key value = (h, None).
Proof.
  intros Hin Hop. unfold cache.resolveOperation.
  destruct (list_find_elem_of (λ o, cache.holds key value (bug.Metadata o)) l op)
    as [[j x] E]; [done | exact Hop |].
  rewrite E. by eexists.
Qed.

(** Messages whose ids the log already holds are passed over: nothing is
    appended and nothing is sent. *)
Lemma launchpad_messages_seen parseUnix w i bg lpBugID messages :
  cache.bugs (repo w) !! i = Some bg →
  Forall (λ m, ∃ op, op ∈ cache.ops bg ∧
                     bug.Metadata op !! launchpad.keyLaunchpadID
                       = Some (launchpad.message_ID m)) messages →
  launchpad.messageLoop parseUnix (Some i) lpBugID messages w = (Ok Continue, w).
Proof.
  intros Hbug. induction 1 as [|m rest (op & Hin & Hop) _ IH]; [done |].
  simpl. unfold bind at 1. unfold ResolveOperationWithMetadata, onBug.
  rewrite Hbug. simpl.
  destruct (resolveOperation_held _ _ _ _ Hin Hop) as [h ->].
  rewrite setRepo_same. simpl. exact IH.
Qed.

Lemma gitlab_label_event_twice GetUser w i labelEvent w1 :
  gitlab.ensureLabelEvent GetUser (Some i) labelEvent w = (Ok tt, w1) →
  gitlab.ensureLabelEvent GetUser (Some i) labelEvent w1 = (Ok tt, w1).
Proof.
  unfold gitlab.ensureLabelEvent. intros Hfirst. unfold bind at 1 in Hfirst.
  destruct (ResolveOperationWithMetadata _ _ _ w) as [[[h err]|?|?] w0] eqn:Hres;
    [| done | done].
  destruct (lookup_world _ _ _ _ _ _ Hres) as [-> (i' & bg & [= <-] & Hbug)].
  destruct err as [e|].
  - case_bool_decide as Hne; [by destruct e |].
    unfold bind at 1 in Hfirst.
    destruct (gitlab.ensurePerson _ _ w) as [[author|?|?] wa] eqn:Hperson;
      [| done | done].
    apply gitlab_ensurePerson_bugs in Hperson.
    assert (∃ p op, rawOp (Some i) author (gitlab.event_CreatedAt labelEvent) p
                      {[ gitlab.keyGitlabId
                           := gitlab.parseID (gitlab.event_ID labelEvent) ]} wa
                    = (Ok (inr op), w1)) as (p & op & Hop).
    { destruct (String.eqb (gitlab.Action labelEvent) "add");
        [| destruct (String.eqb (gitlab.Action labelEvent) "remove"); [| done]];
        unfold bind at 1, ForceChangeLabelsRaw in Hfirst;
        match type of Hfirst with
        | context [rawOp ?b ?a ?t ?p ?m wa] =>
            destruct (rawOp b a t p m wa) as [[[?|op]|?|?] wb] eqn:Hop;
              [done | | done | done];
            injection Hfirst as <-; by exists p, op
        end. }
    destruct (lookup_after_rawOp _ _ _ _ _ _ _ _ _ _ _ Hbug Hperson Hop) as [h' Hlook].
    unfold bind. by rewrite Hlook.
  - simpl in Hfirst. injection Hfirst as <-.
    unfold bind. by rewrite Hres.
Qed.

End SeenAgain.

(** ** Runs that are cancelled *)

Section Cancelled.
Context `{cache.Externals}.

(** The loop over a list in two parts is the loop over the first part
    and, if it has not returned, the loop over the second. *)
Lemma github_issueLoop_app queryGhost ctx l1 l2 : ∀ n w,
  github.issueLoop queryGhost ctx n (l1 ++ l2) w
  = match github.issueLoop queryGhost ctx n l1 w with
    | (Ok Continue, w1) => github.issueLoop queryGhost ctx (n + length l1) l2 w1
    | other => other
    end.
Proof.
  induction l1 as [|issue l1 IH]; intros n w; simpl.
  - by rewrite Nat.add_0_r.
  - destruct (context.Done ctx n); [done |].
    unfold bind.
    destruct (github.importIssue _ _ w) as [[[]|?|?] w1]; [| done | done | done].
    rewrite IH. by rewrite Nat.add_succ_comm.
Qed.

Lemma gitlab_issueLoop_app conf GetNoteType NoteType_String GetUser ctx l1 l2 : ∀ n w,
  gitlab.issueLoop conf GetNoteType NoteType_String GetUser ctx n (l1 ++ l2) w
  = match gitlab.issueLoop conf GetNoteType NoteType_String GetUser ctx n l1 w with
    | (Ok Continue, w1) =>
        gitlab.issueLoop conf GetNoteType NoteType_String GetUser ctx
          (n + length l1) l2 w1
    | other => other
    end.
Proof.
  induction l1 as [|c l1 IH]; intros n w; simpl.
  - by rewrite Nat.add_0_r.
  - destruct (context.Done ctx n); [done |].
    unfold bind.
    destruct (gitlab.importIssue _ _ _ _ _ w) as [[[]|?|?] w1]; [| done | done | done].
    rewrite IH. by rewrite Nat.add_succ_comm.
Qed.

Lemma launchpad_bugLoop_app parseUnix ctx l1 l2 : ∀ n w,
  launchpad.bugLoop parseUnix ctx n (l1 ++ l2) w
  = match launchpad.bugLoop parseUnix ctx n l1 w with
    | (Ok Continue, w1) => launchpad.bugLoop parseUnix ctx (n + length l1) l2 w1
    | other => other
    end.
Proof.
  induction l1 as [|lpBug l1 IH]; intros n w; simpl.
  - by rewrite Nat.add_0_r.
  - destruct (context.Done ctx n); [done |].
    unfold bind.
    destruct (launchpad.importBug _ _ w) as [[[]|?|?] w1]; [| done | done | done].
    rewrite IH. by rewrite Nat.add_succ_comm.
Qed.

End Cancelled.

(** ** Statements on the importers *)

Lemma runs_only_append_witness :
  ∃ run,
    scenario.launchpadRun scenario.background fixtures.lpRepo
      [fixtures.lpBugCommented] = inr run ∧
    extends fixtures.lpRepo (repo run.2).
Proof.
  eexists. split; [vm_compute; reflexivity |].
  apply (proj2 (proj2 (@runs_only_append scenario.externals scenario.background
                         fixtures.lpRepo))
           ∅ None (λ _, inr [fixtures.lpBugCommented]) (λ _, 0)).
  vm_compute. reflexivity.
Defined.

Lemma launchpad_never_creates_bug_witness :
  ∃ run,
    scenario.launchpadRun scenario.background scenario.emptyRepo
      [fixtures.lpBugCommented] = inr run ∧
    length (cache.bugs (repo run.2)) = length (cache.bugs scenario.emptyRepo) ∧
    Forall (λ result, core.Event result ≠ core.ImportEventBug) (out run.2).
Proof.
  eexists. split; [vm_compute; reflexivity |].
  apply (@launchpad_never_creates_bug scenario.externals scenario.background
           scenario.emptyRepo ∅ None (λ _, inr [fixtures.lpBugCommented]) (λ _, 0)).
  vm_compute. reflexivity.
Defined.




(** X6. A GitHub issue without body edits is imported once: when
    [ensureIssue] has returned its bug (found or just created), a second
    call in the world the first one left returns the same bug and sends
    the one result "bug already imported".  It writes nothing when the
    author is an actor, or a deleted user and some identity holds the
    login "ghost".  For a deleted user with no identity under that login
    (the query for the ghost answered another login) the second call
    adds one more identity before it finds the bug. *)
Theorem github_issue_imported_once `{cache.Externals}
    queryGhost (issue : github.issueTimeline) (w w1 : World) b :
  github.issue_Edits issue = [] →
  github.ensureIssue queryGhost issue w = (Ok b, w1) →
  ((github.issue_Author issue = None →
    holders (repo w1) github.keyGithubLogin "ghost" ≠ []) →
   github.ensureIssue queryGhost issue w1
     = (Ok b, sent w1 (core.NewImportNothing "" "bug already imported"))) ∧
  (github.issue_Author issue = None →
   holders (repo w1) github.keyGithubLogin "ghost" = [] →
   ∃ i, github.ensureIssue queryGhost issue w1
        = (Ok b,
           sent (setRepo w1 (cache.setIdentities (repo w1)
                               (cache.identities (repo w1) ++ [i])))
             (core.NewImportNothing "" "bug already imported"))).
Proof.
  intros Hedits Hfirst. split.
  - intros Hghost. by apply (github_ensureIssue_again queryGhost issue w).
  - intros Hauthor Hnone. by apply (github_ensureIssue_ghost_again queryGhost issue w).
Qed.

Lemma github_issue_imported_once_witness :
  (∃ w1,
     fixtures.ensureIssue fixtures.plainIssue (fixtures.world scenario.emptyRepo)
       = (Ok (Some 0%nat), w1) ∧
     scenario.logs w1 = [[scenario.githubCreateOp]] ∧
     fixtures.ensureIssue fixtures.plainIssue w1
       = (Ok (Some 0%nat),
          sent w1 (core.NewImportNothing "" "bug already imported"))) ∧
  (∃ w1,
     fixtures.ensureGhostIssue fixtures.ghostAnswer (fixtures.world scenario.emptyRepo)
       = (Ok (Some 0%nat), w1) ∧
     fixtures.ensureGhostIssue fixtures.ghostAnswer w1
       = (Ok (Some 0%nat),
          sent w1 (core.NewImportNothing "" "bug already imported"))) ∧
  (∃ w1 i,
     fixtures.ensureGhostIssue fixtures.strayAnswer (fixtures.world scenario.emptyRepo)
       = (Ok (Some 0%nat), w1) ∧
     length (cache.identities (repo w1)) = 1%nat ∧
     fixtures.ensureGhostIssue fixtures.strayAnswer w1
       = (Ok (Some 0%nat),
          sent (setRepo w1 (cache.setIdentities (repo w1)
                              (cache.identities (repo w1) ++ [i])))
            (core.NewImportNothing "" "bug already imported"))).
Proof.
  split; [| split].
  - eexists. split; [vm_compute; reflexivity |].
    split; [vm_compute; reflexivity |].
    match goal with
    | |- fixtures.ensureIssue _ ?w1 = _ =>
        apply (proj1 (@github_issue_imported_once scenario.externals
                        (inl (ErrOther "no ghost")) fixtures.plainIssue
                        (fixtures.world scenario.emptyRepo) w1 (Some 0%nat)
                        eq_refl ltac:(vm_compute; reflexivity)))
    end.
    discriminate.
  - eexists. split; [vm_compute; reflexivity |].
    match goal with
    | |- fixtures.ensureGhostIssue _ ?w1 = _ =>
        apply (proj1 (@github_issue_imported_once scenario.externals
                        (inr fixtures.ghostAnswer) fixtures.ghostIssue
                        (fixtures.world scenario.emptyRepo) w1 (Some 0%nat)
                        eq_refl ltac:(vm_compute; reflexivity)))
    end.
    intros _. vm_compute. discriminate.
  - eexists.
    match goal with
    | |- ∃ i, _ = (_, ?w1) ∧ _ =>
        destruct (proj2 (@github_issue_imported_once scenario.externals
                           (inr fixtures.strayAnswer) fixtures.ghostIssue
                           (fixtures.world scenario.emptyRepo) w1 (Some 0%nat)
                           eq_refl ltac:(vm_compute; reflexivity))
                    eq_refl ltac:(vm_compute; reflexivity)) as [i Hsecond]
    end.
    exists i. split; [vm_compute; reflexivity |].
    split; [vm_compute; reflexivity |]. exact Hsecond.
Defined.

(** X7. A GitLab issue is imported once: when [ensureIssue] has returned
    its bug (found or just created), a second call in the world the first
    one left returns the same bug, sends the one result "bug already
    imported", and writes nothing. *)
Theorem gitlab_issue_imported_once `{cache.Externals}
    conf GetUser (issue : gitlab.Issue) (w w1 : World) b :
  gitlab.ensureIssue conf GetUser issue w = (Ok b, w1) →
  gitlab.ensureIssue conf GetUser issue w1
    = (Ok b, sent w1 (core.NewImportNothing "" "bug already imported")).
Proof. apply gitlab_ensureIssue_twice. Qed.

Lemma gitlab_issue_imported_once_witness :
  ∃ w1,
    fixtures.gitlabEnsureIssue scenario.gitlabIssue (fixtures.world scenario.emptyRepo)
      = (Ok (Some 0%nat), w1) ∧
    scenario.logs w1 = [[scenario.gitlabCreateOp]] ∧
    fixtures.gitlabEnsureIssue scenario.gitlabIssue w1
      = (Ok (Some 0%nat),
         sent w1 (core.NewImportNothing "" "bug already imported")).
Proof.
  eexists.
  split; [vm_compute; reflexivity |].
  split; [vm_compute; reflexivity |].
  apply (@gitlab_issue_imported_once scenario.externals ∅ scenario.gitlabUser
           scenario.gitlabIssue (fixtures.world scenario.emptyRepo)).
  vm_compute. reflexivity.
Defined.

(** X8. No GitLab label event is imported twice: when [ensureLabelEvent]
    has processed an event without error, processing it again in the
    world it left changes nothing and sends nothing. *)
Theorem gitlab_label_event_processed_twice `{cache.Externals}
    GetUser (w w1 : World) (i : nat) (labelEvent : gitlab.LabelEvent) :
  gitlab.ensureLabelEvent GetUser (Some i) labelEvent w = (Ok tt, w1) →
  gitlab.ensureLabelEvent GetUser (Some i) labelEvent w1 = (Ok tt, w1).
Proof. apply gitlab_label_event_twice. Qed.

Lemma gitlab_label_event_processed_twice_witness :
  ∃ w1,
    fixtures.gitlabEnsureLabelEvent (Some 0%nat) fixtures.addLabel fixtures.gitlabWorld
      = (Ok tt, w1) ∧
    map (λ l, length l) (scenario.logs w1) = [2%nat] ∧
    fixtures.gitlabEnsureLabelEvent (Some 0%nat) fixtures.addLabel w1 = (Ok tt, w1).
Proof.
  eexists.
  split; [vm_compute; reflexivity |].
  split; [vm_compute; reflexivity |].
  apply (@gitlab_label_event_processed_twice scenario.externals scenario.gitlabUser
           fixtures.gitlabWorld).
  vm_compute. reflexivity.
Defined.

(** X9. Re-importing a Launchpad bug changes nothing: when the bug and
    its owner are known locally, the first message is passed over without
    a lookup (it is the description), every later message whose id the
    log already holds is skipped, and, the commit succeeding, the world
    is left exactly as it was: nothing appended, nothing sent. *)
Theorem launchpad_bug_seen_again `{cache.Externals}
    parseUnix (lpBug : launchpad.LPBug) (w : World) i bg owner first rest :
  cache.ResolveBugCreateMetadata (repo w) launchpad.keyLaunchpadID
    (pretty (launchpad.ID lpBug)) = (Some i, None) →
  cache.bugs (repo w) !! i = Some bg →
  cache.ResolveIdentityImmutableMetadata (repo w) launchpad.keyLaunchpadLogin
    (launchpad.Login (launchpad.Owner lpBug)) = inr owner →
  launchpad.Messages lpBug = first :: rest →
  Forall (λ m, ∃ op, op ∈ cache.ops bg ∧
                     bug.Metadata op !! launchpad.keyLaunchpadID
                       = Some (launchpad.message_ID m)) rest →
  cache.commitError (cache.ops bg) = None →
  launchpad.importBug parseUnix lpBug w = (Ok Continue, w).
Proof.
  intros Hres Hbug Howner Hmsgs Hseen Hcommit.
  unfold launchpad.importBug. cbv zeta.
  unfold bind at 1. unfold ResolveBugCreateMetadata, readRepo. rewrite Hres. simpl.
  unfold bind at 1. unfold try.
  rewrite (launchpad_ensurePerson_found _ _ _ Howner).
  simpl.
  unfold launchpad.handleMessages. rewrite Hmsgs. simpl.
  unfold bind at 1.
  rewrite (launchpad_messages_seen parseUnix w i bg _ rest Hbug Hseen).
  unfold bind, CommitAsNeeded, onBug. rewrite Hbug. simpl. rewrite Hcommit.
  by rewrite setRepo_same.
Qed.

Lemma launchpad_bug_seen_again_witness :
  fixtures.importBug fixtures.lpBugCommented (fixtures.world fixtures.lpRepo)
    = (Ok Continue,
       mkWorld fixtures.lpRepoCommented
         [core.NewImportComment (scenario.hashOf fixtures.lpCommentOp)] 0 0) ∧
  fixtures.importBug fixtures.lpBugCommented (fixtures.world fixtures.lpRepoCommented)
    = (Ok Continue, fixtures.world fixtures.lpRepoCommented).
Proof.
  split; [vm_compute; reflexivity |].
  apply (@launchpad_bug_seen_again scenario.externals (λ _, 0) fixtures.lpBugCommented
           (fixtures.world fixtures.lpRepoCommented) 0%nat
           (cache.mkBug "lp9" [fixtures.lpCreateOp; fixtures.lpCommentOp])
           fixtures.bobIdentity fixtures.lpDescription [fixtures.lpComment]).
  - vm_compute. reflexivity.
  - reflexivity.
  - vm_compute. reflexivity.
  - reflexivity.
  - constructor; [| constructor].
    exists fixtures.lpCommentOp. split; [| vm_compute; reflexivity].
    right. left.
  - reflexivity.
Defined.

(** X10. A run cancelled when an item is reached has processed exactly
    the items before it.  If the items [before] are processed without
    the goroutine returning and the poll that follows them observes the
    cancellation, then whatever the remaining items are, the run ends
    there: the GitHub and GitLab importers add the error result carrying
    [ctx.Err()] to the results of [before], the Launchpad importer adds
    nothing. *)
Theorem cancelled_run_stops_at_poll `{cache.Externals}
    (ctx : context.Context) (r : cache.RepoCache) (w1 : World) :
  (∀ queryGhost before issue rest iterErr,
     github.issueLoop queryGhost ctx 0 before (mkWorld r [] 0 0) = (Ok Continue, w1) →
     context.Done ctx (length before) = true →
     github.ImportAll queryGhost ctx r
       (github.mkIterator (before ++ issue :: rest) iterErr)
     = (Ok Return, sent w1 (core.NewImportError (Some (context.Err ctx)) ""))) ∧
  (∀ conf GetNoteType NoteType_String GetUser before c rest,
     gitlab.issueLoop conf GetNoteType NoteType_String GetUser ctx 0 before
       (mkWorld r [] 0 0) = (Ok Continue, w1) →
     context.Done ctx (length before) = true →
     gitlab.ImportAll conf GetNoteType NoteType_String GetUser ctx r
       (before ++ c :: rest)
     = (Ok Return, sent w1 (core.NewImportError (Some (context.Err ctx)) ""))) ∧
  (∀ conf SearchTasks parseUnix before lpBug rest,
     SearchTasks (launchpad.confValue conf "project") = inr (before ++ lpBug :: rest) →
     launchpad.bugLoop parseUnix ctx 0 before (mkWorld r [] 0 0) = (Ok Continue, w1) →
     context.Done ctx (length before) = true →
     launchpad.ImportAll conf None SearchTasks parseUnix ctx r
     = inr (Ok Return, w1)).
Proof.
  split; [| split].
  - intros queryGhost before issue rest iterErr Hbefore Hdone.
    unfold github.ImportAll, github.goroutine. simpl.
    unfold bind. rewrite github_issueLoop_app, Hbefore. simpl.
    by rewrite Hdone.
  - intros conf GetNoteType NoteType_String GetUser before c rest Hbefore Hdone.
    unfold gitlab.ImportAll. rewrite gitlab_issueLoop_app, Hbefore. simpl.
    by rewrite Hdone.
  - intros conf SearchTasks parseUnix before lpBug rest Htasks Hbefore Hdone.
    unfold launchpad.ImportAll. rewrite Htasks.
    rewrite launchpad_bugLoop_app, Hbefore. simpl.
    by rewrite Hdone.
Qed.

Lemma cancelled_run_stops_at_poll_witness :
  ∃ w1,
    @github.issueLoop scenario.externals (inl (ErrOther "no ghost"))
      fixtures.cancelledAtSecond 0 [fixtures.plainIssue]
      (mkWorld scenario.emptyRepo [] 0 0) = (Ok Continue, w1) ∧
    out w1 = [core.NewImportIdentity "id-alice";
              core.NewImportBug "create/id-alice/1000"] ∧
    scenario.githubRun fixtures.cancelledAtSecond scenario.emptyRepo
      (github.mkIterator [fixtures.plainIssue; fixtures.otherIssue] None)
    = (Ok Return,
       sent w1 (core.NewImportError (Some (ErrContext "context canceled")) "")).
Proof.
  eexists.
  split; [vm_compute; reflexivity |].
  split; [vm_compute; reflexivity |].
  apply (proj1 (@cancelled_run_stops_at_poll scenario.externals
                  fixtures.cancelledAtSecond scenario.emptyRepo _)
           (inl (ErrOther "no ghost")) [fixtures.plainIssue] fixtures.otherIssue []
           None).
  - vm_compute. reflexivity.
  - reflexivity.
Defined.

(** ** Further statements on the snapshot *)

Lemma searchTimeline_found items hash it :
  bug.searchTimeline items hash = inr it → it ∈ items ∧ bug.itemHash it = hash.
Proof.
  induction items as [|x items IH]; simpl; [done |].
  destruct (String.eqb_spec (bug.itemHash x) hash) as [Heq|Hne].
  - intros [= <-]. split; [left | done].
  - intros Hfound. destruct (IH Hfound). split; [by right | done].
Qed.

Lemma searchTimeline_missing items hash :
  (∃ e, bug.searchTimeline items hash = inl e) ↔
  Forall (λ it, bug.itemHash it ≠ hash) items.
Proof.
  induction items as [|x items IH]; simpl.
  - split; [by constructor | intros _; by eexists].
  - destruct (String.eqb_spec (bug.itemHash x) hash) as [Heq|Hne].
    + split; [by intros [e [=]] | intros Hall; by inversion Hall].
    + rewrite IH. split; [by constructor | by inversion 1].
Qed.

(** X11. [SearchTimelineItem] finds an item exactly when the timeline has
    one with the given hash: a result is an item of the timeline with
    that hash, the error is "timeline item not found", and it is returned
    if and only if no item of the timeline has the hash. *)
Theorem SearchTimelineItem_finds (snap : bug.Snapshot) (hash : Hash) :
  (∀ it, bug.SearchTimelineItem snap hash = inr it →
         it ∈ bug.Timeline snap ∧ bug.itemHash it = hash) ∧
  (∀ e, bug.SearchTimelineItem snap hash = inl e →
        e = ErrOther "timeline item not found") ∧
  ((∃ e, bug.SearchTimelineItem snap hash = inl e) ↔
   ∀ it, it ∈ bug.Timeline snap → bug.itemHash it ≠ hash).
Proof.
  unfold bug.SearchTimelineItem. split; [| split].
  - intros it. apply searchTimeline_found.
  - intros e. induction (bug.Timeline snap) as [|x items IH]; simpl.
    + by intros [= <-].
    + destruct (String.eqb _ _); [done | exact IH].
  - rewrite searchTimeline_missing. apply Forall_forall.
Qed.

Lemma SearchTimelineItem_finds_witness :
  bug.SearchTimelineItem fixtures.timelineSnapshot "h2" = inr (bug.mkTimelineItem "h2") ∧
  bug.mkTimelineItem "h2" ∈ bug.Timeline fixtures.timelineSnapshot ∧
  bug.SearchTimelineItem fixtures.timelineSnapshot "h3"
    = inl (ErrOther "timeline item not found").
Proof.
  destruct (SearchTimelineItem_finds fixtures.timelineSnapshot "h2") as (Hfound & _).
  destruct (SearchTimelineItem_finds fixtures.timelineSnapshot "h3") as (_ & Herr & _).
  assert (H2 : bug.SearchTimelineItem fixtures.timelineSnapshot "h2"
               = inr (bug.mkTimelineItem "h2")) by reflexivity.
  split; [exact H2 |]. split; [exact (proj1 (Hfound _ H2)) |].
  destruct (bug.SearchTimelineItem fixtures.timelineSnapshot "h3") as [e|it] eqn:E.
  - by rewrite (Herr e eq_refl).
  - discriminate E.
Defined.

Lemma HasAnyParticipant_loop_spec snap l :
  bug.HasAnyParticipant_loop snap l = true ↔
  ∃ i, i ∈ l ∧ bug.HasParticipant snap i = true.
Proof.
  induction l as [|x l IH]; simpl.
  - split; [done | intros (i & Hin & _); by apply elem_of_nil in Hin].
  - destruct (bug.HasParticipant snap x) eqn:Hx.
    + split; [intros _; exists x; split; [left | done] | done].
    + rewrite IH. split.
      * intros (i & Hin & Hi). exists i. split; [by right | done].
      * intros (i & Hin & Hi). apply elem_of_cons in Hin as [-> | Hin];
          [congruence | by exists i].
Qed.

(** X12. [HasAnyParticipant ids] is true exactly when one of the given
    ids is the id of a participant; with no id given it is false. *)
Theorem HasAnyParticipant_exists (snap : bug.Snapshot) (l : list string) :
  (bug.HasAnyParticipant snap l = true ↔
   ∃ i p, i ∈ l ∧ p ∈ bug.Participants snap ∧ identity.Id p = i) ∧
  bug.HasAnyParticipant snap [] = false.
Proof.
  split; [| done].
  unfold bug.HasAnyParticipant. case_bool_decide as Hlen.
  - destruct l; [| done]. split; [done |].
    intros (i & p & Hin & _). by apply elem_of_nil in Hin.
  - rewrite HasAnyParticipant_loop_spec. unfold bug.HasParticipant. split.
    + intros (i & Hin & Hi). apply HasParticipant_loop_spec in Hi as (p & Hp & Hid).
      by exists i, p.
    + intros (i & p & Hin & Hp & Hid). exists i. split; [done |].
      apply HasParticipant_loop_spec. by exists p.
Qed.

Lemma HasAnyParticipant_exists_witness :
  bug.HasAnyParticipant fixtures.timelineSnapshot ["id-carol"; "id-alice"] = true ∧
  bug.HasAnyParticipant fixtures.timelineSnapshot ["id-carol"] = false.
Proof.
  destruct (HasAnyParticipant_exists fixtures.timelineSnapshot ["id-carol"; "id-alice"])
    as [[_ Hyes] _].
  split; [| reflexivity].
  apply Hyes. exists "id-alice", scenario.aliceIdentity.
  split; [right; left |]. split; [left | reflexivity].
Defined.

(** X13. On a snapshot with operations, [LastEditUnix] is the timestamp
    of the last operation and [LastEditTime] is that operation's time,
    whatever the operations before it. *)
Theorem LastEdit_is_last_operation (snap : bug.Snapshot) :
  ∀ l op, bug.Operations snap = l ++ [op] →
          bug.LastEditUnix snap = bug.GetUnixTime op ∧
          bug.LastEditTime snap = bug.OpTime op.
Proof.
  unfold bug.LastEditUnix, bug.LastEditTime.
  intros l op ->. rewrite length_app. simpl.
  rewrite bool_decide_eq_false_2 by lia.
  replace (length l + 1 - 1)%nat with (length l + 0)%nat by lia.
  by rewrite lookup_app_r, Nat.add_0_r, Nat.sub_diag by lia.
Qed.

Lemma LastEdit_is_last_operation_witness :
  bug.Operations fixtures.timelineSnapshot = [scenario.createOp] ++ [fixtures.lpCommentOp] ∧
  bug.LastEditUnix fixtures.timelineSnapshot = 0 ∧
  bug.LastEditUnix scenario.createdSnapshot = 1000.
Proof.
  split; [reflexivity |]. split.
  - apply (LastEdit_is_last_operation fixtures.timelineSnapshot
             [scenario.createOp] fixtures.lpCommentOp).
    reflexivity.
  - apply (LastEdit_is_last_operation scenario.createdSnapshot
             [] scenario.createOp).
    reflexivity.
Defined.

Lemma addActor_prefix snap a : bug.Actors snap `prefix_of` bug.Actors (bug.addActor snap a).
Proof.
  unfold bug.addActor. destruct (bug.hasId _ _); [done |]. simpl. by apply prefix_app_r.
Qed.

Lemma addParticipant_prefix snap p :
  bug.Participants snap `prefix_of` bug.Participants (bug.addParticipant snap p).
Proof.
  unfold bug.addParticipant. destruct (bug.hasId _ _); [done |]. simpl.
  by apply prefix_app_r.
Qed.

Lemma addActor_ids snap a i :
  i ∈ bug.ids (bug.Actors (bug.addActor snap a)) ↔
  i ∈ bug.ids (bug.Actors snap) ∨ identity.Id a = i.
Proof.
  unfold bug.addActor. destruct (bug.hasId _ _) eqn:Hhas.
  - apply hasId_spec in Hhas. split; [by left | by intros [? | <-]].
  - simpl. unfold bug.ids. rewrite map_app, elem_of_app. simpl.
    rewrite list_elem_of_singleton. split; intros [? | ?]; auto.
Qed.

Lemma addParticipant_ids snap p i :
  i ∈ bug.ids (bug.Participants (bug.addParticipant snap p)) ↔
  i ∈ bug.ids (bug.Participants snap) ∨ identity.Id p = i.
Proof.
  unfold bug.addParticipant. destruct (bug.hasId _ _) eqn:Hhas.
  - apply hasId_spec in Hhas. split; [by left | by intros [? | <-]].
  - simpl. unfold bug.ids. rewrite map_app, elem_of_app. simpl.
    rewrite list_elem_of_singleton. split; intros [? | ?]; auto.
Qed.

Lemma addActor_other snap a :
  bug.Operations (bug.addActor snap a) = bug.Operations snap ∧
  bug.Comments (bug.addActor snap a) = bug.Comments snap ∧
  bug.Title (bug.addActor snap a) = bug.Title snap.
Proof. unfold bug.addActor. by destruct (bug.hasId _ _). Qed.

Lemma addParticipant_other snap p :
  bug.Operations (bug.addParticipant snap p) = bug.Operations snap ∧
  bug.Comments (bug.addParticipant snap p) = bug.Comments snap ∧
  bug.Title (bug.addParticipant snap p) = bug.Title snap.
Proof. unfold bug.addParticipant. by destruct (bug.hasId _ _). Qed.

(** X14. What a sequence of [addActor] and [addParticipant] calls does to
    a snapshot: the actors and participants already there stay where they
    are, at the beginning of their list; afterwards the ids among the
    actors are the ids already there and the ids of the identities passed
    to [addActor], and likewise for the participants; the operations, the
    comments and the title are untouched. *)
Theorem calls_extend_the_lists (snap : bug.Snapshot) (cs : list bug.Call) :
  bug.Actors snap `prefix_of` bug.Actors (bug.calls snap cs) ∧
  bug.Participants snap `prefix_of` bug.Participants (bug.calls snap cs) ∧
  (∀ i, i ∈ bug.ids (bug.Actors (bug.calls snap cs)) ↔
        i ∈ bug.ids (bug.Actors snap) ∨
        ∃ a, bug.CallAddActor a ∈ cs ∧ identity.Id a = i) ∧
  (∀ i, i ∈ bug.ids (bug.Participants (bug.calls snap cs)) ↔
        i ∈ bug.ids (bug.Participants snap) ∨
        ∃ p, bug.CallAddParticipant p ∈ cs ∧ identity.Id p = i) ∧
  bug.Operations (bug.calls snap cs) = bug.Operations snap ∧
  bug.Comments (bug.calls snap cs) = bug.Comments snap ∧
  bug.Title (bug.calls snap cs) = bug.Title snap.
Proof.
  revert snap. induction cs as [|c cs IH]; intros snap.
  - simpl. repeat split; try done.
    + by left.
    + intros [? | (a & Hin & _)]; [done | by apply elem_of_nil in Hin].
    + by left.
    + intros [? | (a & Hin & _)]; [done | by apply elem_of_nil in Hin].
  - simpl.
    destruct (IH (bug.call snap c)) as (HA & HP & HiA & HiP & HO & HC & HT).
    destruct c as [a | p]; simpl in *.
    + rewrite addActor_Participants in *.
      destruct (addActor_other snap a) as (HO' & HC' & HT').
      split; [by etrans; [apply addActor_prefix |] |]. split; [done |].
      split; [| split; [| by rewrite HO, HC, HT]].
      * intros i. rewrite HiA, addActor_ids. split.
        -- intros [[? | <-] | (a' & Hin & Hid)]; [by left | right | right].
           ++ exists a. split; [left | done].
           ++ exists a'. split; [by right | done].
        -- intros [? | (a' & Hin & Hid)]; [by left; left |].
           apply elem_of_cons in Hin as [[= ->] | Hin]; [left; by right |].
           right. by exists a'.
      * intros i. rewrite HiP. split.
        -- intros [? | (p & Hin & Hid)]; [by left | right].
           exists p. split; [by right | done].
        -- intros [? | (p & Hin & Hid)]; [by left |].
           apply elem_of_cons in Hin as [[=] | Hin]. right. by exists p.
    + rewrite addParticipant_Actors in *.
      destruct (addParticipant_other snap p) as (HO' & HC' & HT').
      split; [done |]. split; [by etrans; [apply addParticipant_prefix |] |].
      split; [| split; [| by rewrite HO, HC, HT]].
      * intros i. rewrite HiA. split.
        -- intros [? | (a & Hin & Hid)]; [by left | right].
           exists a. split; [by right | done].
        -- intros [? | (a & Hin & Hid)]; [by left |].
           apply elem_of_cons in Hin as [[=] | Hin]. right. by exists a.
      * intros i. rewrite HiP, addParticipant_ids. split.
        -- intros [[? | <-] | (p' & Hin & Hid)]; [by left | right | right].
           ++ exists p. split; [left | done].
           ++ exists p'. split; [by right | done].
        -- intros [? | (p' & Hin & Hid)]; [by left; left |].
           apply elem_of_cons in Hin as [[= ->] | Hin]; [left; by right |].
           right. by exists p'.
Qed.

Lemma calls_extend_the_lists_witness :
  let snap' :=
    bug.calls fixtures.timelineSnapshot
      [bug.CallAddParticipant scenario.otherAlice;
       bug.CallAddActor scenario.aliceIdentity] in
  bug.Participants snap' = [scenario.aliceIdentity; scenario.otherAlice] ∧
  "id-alice" ∈ bug.ids (bug.Actors snap') ∧
  bug.Operations snap' = bug.Operations fixtures.timelineSnapshot.
Proof.
  intros snap'.
  destruct (calls_extend_the_lists fixtures.timelineSnapshot
              [bug.CallAddParticipant scenario.otherAlice;
               bug.CallAddActor scenario.aliceIdentity])
    as (_ & _ & HiA & _ & HO & _).
  split; [reflexivity |]. split; [| exact HO].
  apply HiA. right. exists scenario.aliceIdentity.
  split; [right; left | reflexivity].
Defined.

(** ** GitHub comments and their edits seen again *)

Section CommentsTwice.
Context `{cache.Externals}.
Variable queryGhost : error + github.ghostUser.

Lemma lookup_after_append w wa i bg author unixTime p metadata key value op w1 :
  cache.bugs (repo w) !! i = Some bg →
  cache.bugs (repo wa) = cache.bugs (repo w) →
  metadata !! key = Some value →
  rawOp (Some i) author unixTime p metadata wa = (Ok (inr op), w1) →
  cache.identities (repo w1) = cache.identities (repo wa) ∧
  ∃ h, ResolveOperationWithMetadata (Some i) key value w1 = (Ok (h, None), w1).
Proof.
  intros Hbug Hsame Hmeta. unfold rawOp, ResolveOperationWithMetadata, onBug.
  rewrite Hsame, Hbug. unfold cache.appendOp.
  destruct (cache.opValidate _); [done |].
  simpl. intros [= <- <-]. simpl. split; [done |].
  rewrite list_lookup_insert_eq by (rewrite Hsame; by eapply lookup_lt_Some).
  simpl.
  edestruct resolveOperation_appended as [h' ->]; [exact Hmeta |].
  exists h'. by rewrite setRepo_same.
Qed.

Lemma github_comment_twice w b item actor w1 :
  github.comment_Author item = Some actor →
  github.ensureTimelineComment queryGhost b item [] w = (Ok tt, w1) →
  github.ensureTimelineComment queryGhost b item [] w1
    = (Ok tt,
       sent (sent w1 (core.NewImportNothing "" "comment already imported"))
         (core.NewImportNothing "" "comment already imported")).
Proof.
  unfold github.ensureTimelineComment. intros Hauthor. rewrite Hauthor.
  rewrite (bool_decide_eq_true_2 (length (@nil github.userContentEdit) = 0%nat))
    by done.
  intros Hfirst. unfold bind at 1 in Hfirst.
  destruct (github.ensurePerson _ _ w) as [[author|?|?] wa] eqn:Hperson; [| done | done].
  pose proof (github_ensurePerson_bugs _ _ _ _ _ Hperson) as Hbugs.
  apply github_ensurePerson_resolves in Hperson.
  unfold bind at 1 in Hfirst.
  destruct (ResolveOperationWithMetadata _ _ _ wa) as [[[h err]|?|?] w0] eqn:Hres;
    [| done | done].
  destruct (lookup_world _ _ _ _ _ _ Hres) as [-> (i & bg & -> & Hbug)].
  assert (Hsecond : ∀ w2 h2,
            cache.identities (repo w2) = cache.identities (repo wa) →
            ResolveOperationWithMetadata (Some i) github.keyGithubId
              (github.parseId (github.comment_Id item)) w2 = (Ok (h2, None), w2) →
            (let* author := github.ensurePerson queryGhost (Some actor) in
             let* (target, err) :=
               ResolveOperationWithMetadata (Some i) github.keyGithubId
                 (github.parseId (github.comment_Id item)) in
             (if bool_decide (err = None)
              then emit (core.NewImportNothing "" "comment already imported")
              else ret tt) ;;
             if bool_decide (err ≠ None) && bool_decide (err ≠ Some ErrNoMatchingOp)
             then match err with Some e => fail e | None => ret tt end
             else
               if bool_decide (err = Some ErrNoMatchingOp) then
                 let* cleanText := Cleanup (github.comment_Body item) in
                 let* r := AddCommentRaw (Some i) author (github.comment_CreatedAt item)
                             cleanText
                             (<[ github.keyGithubId := github.parseId (github.comment_Id item) ]>
                                {[ github.keyGithubUrl
                                     := github.parseId (github.comment_Url item) ]}) in
                 match r with
                 | inl err => fail err
                 | inr op =>
                     let* hash := HashOf op in
                     emit (core.NewImportComment hash) ;; ret tt
                 end
               else
                 emit (core.NewImportNothing "" "comment already imported") ;; ret tt) w2
            = (Ok tt,
               sent (sent w2 (core.NewImportNothing "" "comment already imported"))
                 (core.NewImportNothing "" "comment already imported"))).
  { intros w2 h2 Hids Hlook. unfold bind at 1.
    rewrite (github_ensurePerson_found queryGhost _ w2 author)
      by (by rewrite (resolve_same_identities (repo wa))).
    unfold bind at 1. rewrite Hlook. done. }
  destruct err as [e|].
  - rewrite (bool_decide_eq_false_2 (Some e = None)) in Hfirst by done.
    unfold bind at 1, ret at 1 in Hfirst.
    rewrite (bool_decide_eq_true_2 (Some e ≠ None)) in Hfirst by done.
    case_bool_decide as Hne; [done |]. simpl in Hfirst.
    rewrite bool_decide_eq_true_2 in Hfirst by done.
    unfold bind at 1, Cleanup in Hfirst.
    destruct (cache.text_Cleanup _) as [?|cleanText]; [done |].
    unfold ret at 1 in Hfirst. unfold bind at 1, AddCommentRaw in Hfirst.
    destruct (rawOp _ _ _ _ _ wa) as [[[?|op]|?|?] wb] eqn:Hop; [done | | done | done].
    destruct (lookup_after_append wa wa i bg _ _ _ _ github.keyGithubId
                (github.parseId (github.comment_Id item)) op wb Hbug eq_refl
                (lookup_insert_eq _ _ _) Hop) as [Hids [h' Hlook]].
    assert (w1 = sent wb (core.NewImportComment (cache.opHash op))) as ->
      by (revert Hfirst; unfold HashOf, cache.Operation_Hash, bind, ret, emit;
          by intros [= <-]).
    apply (Hsecond _ h'); [done |].
    by apply lookup_unchanged_by_emit.
  - assert (w1 = sent (sent wa (core.NewImportNothing "" "comment already imported"))
                   (core.NewImportNothing "" "comment already imported")) as ->
      by (revert Hfirst; unfold bind, ret, emit; simpl; by intros [= <-]).
    apply (Hsecond _ h); [done |].
    by do 2 apply lookup_unchanged_by_emit.
Qed.

Lemma github_edit_twice w b target edit w1 :
  github.DeletedAt edit = None →
  github.ensureCommentEdit queryGhost b target edit w = (Ok tt, w1) →
  github.ensureCommentEdit queryGhost b target edit w1
    = (Ok tt, sent w1 (core.NewImportNothing "" "edition already imported")).
Proof.
  unfold github.ensureCommentEdit. intros Hdeleted. rewrite Hdeleted.
  intros Hfirst. unfold bind at 1 in Hfirst.
  destruct (ResolveOperationWithMetadata _ _ _ w) as [[[h err]|?|?] w0] eqn:Hres;
    [| done | done].
  destruct (lookup_world _ _ _ _ _ _ Hres) as [-> (i & bg & -> & Hbug)].
  destruct err as [e|].
  - case_bool_decide as Hne; [done |].
    unfold bind at 1 in Hfirst.
    destruct (github.ensurePerson _ _ w) as [[editor|?|?] wa] eqn:Hperson;
      [| done | done].
    apply github_ensurePerson_bugs in Hperson.
    unfold bind at 1, deref in Hfirst.
    destruct (github.Diff edit) as [diff|]; [| done].
    unfold ret at 1 in Hfirst. unfold bind at 1, Cleanup in Hfirst.
    destruct (cache.text_Cleanup _) as [?|cleanText]; [done |].
    unfold ret at 1 in Hfirst. unfold bind at 1, EditCommentRaw in Hfirst.
    destruct (rawOp _ _ _ _ _ wa) as [[[?|op]|?|?] wb] eqn:Hop; [done | | done | done].
    destruct (lookup_after_rawOp _ _ _ _ _ _ _ _ _ _ _ Hbug Hperson Hop) as [h' Hlook].
    assert (w1 = sent wb (core.NewImportCommentEdition (cache.opHash op))) as ->
      by (revert Hfirst; unfold HashOf, cache.Operation_Hash, bind, ret, emit;
          by intros [= <-]).
    unfold bind at 1. erewrite lookup_unchanged_by_emit; [| exact Hlook].
    done.
  - assert (w1 = sent w (core.NewImportNothing "" "edition already imported")) as ->
      by (revert Hfirst; unfold bind, ret, emit; by intros [= <-]).
    unfold bind at 1. erewrite lookup_unchanged_by_emit; [| exact Hres].
    done.
Qed.

End CommentsTwice.

(** X15. A GitHub comment without edits is imported once: when
    [ensureTimelineComment] has processed it without error (its author
    being a known kind of actor), processing it again in the world it
    left appends nothing and sends the result "comment already imported"
    twice, once after the lookup and once in the branch for a comment
    without edits. *)
Theorem github_comment_imported_once `{cache.Externals}
    queryGhost (w w1 : World) b (item : github.issueComment) actor :
  github.comment_Author item = Some actor →
  github.ensureTimelineComment queryGhost b item [] w = (Ok tt, w1) →
  github.ensureTimelineComment queryGhost b item [] w1
    = (Ok tt,
       sent (sent w1 (core.NewImportNothing "" "comment already imported"))
         (core.NewImportNothing "" "comment already imported")).
Proof. apply github_comment_twice. Qed.

Lemma github_comment_imported_once_witness :
  ∃ w1,
    fixtures.ensureTimelineComment (Some 0%nat) fixtures.firstComment []
      fixtures.importedWorld = (Ok tt, w1) ∧
    map (λ l, length l) (scenario.logs w1) = [2%nat] ∧
    fixtures.ensureTimelineComment (Some 0%nat) fixtures.firstComment [] w1
      = (Ok tt,
         sent (sent w1 (core.NewImportNothing "" "comment already imported"))
           (core.NewImportNothing "" "comment already imported")).
Proof.
  eexists.
  split; [vm_compute; reflexivity |].
  split; [vm_compute; reflexivity |].
  apply (@github_comment_imported_once scenario.externals (inl (ErrOther "no ghost"))
           fixtures.importedWorld _ (Some 0%nat) fixtures.firstComment scenario.alice).
  - reflexivity.
  - vm_compute. reflexivity.
Defined.

(** X16. An edit of a GitHub comment is imported once: when
    [ensureCommentEdit] has processed an edit that is not a deletion
    without error, processing it again in the world it left appends
    nothing and sends the one result "edition already imported". *)
Theorem github_edit_imported_once `{cache.Externals}
    queryGhost (w w1 : World) b (target : Hash) (edit : github.userContentEdit) :
  github.DeletedAt edit = None →
  github.ensureCommentEdit queryGhost b target edit w = (Ok tt, w1) →
  github.ensureCommentEdit queryGhost b target edit w1
    = (Ok tt, sent w1 (core.NewImportNothing "" "edition already imported")).
Proof. apply github_edit_twice. Qed.

Lemma github_edit_imported_once_witness :
  ∃ w1,
    fixtures.ensureCommentEdit (Some 0%nat) "create/id-alice/1000" fixtures.bodyEdit
      fixtures.importedWorld = (Ok tt, w1) ∧
    scenario.logs w1 = [[scenario.githubCreateOp; scenario.githubEditOp]] ∧
    fixtures.ensureCommentEdit (Some 0%nat) "create/id-alice/1000" fixtures.bodyEdit w1
      = (Ok tt, sent w1 (core.NewImportNothing "" "edition already imported")).
Proof.
  eexists.
  split; [vm_compute; reflexivity |].
  split; [vm_compute; reflexivity |].
  apply (@github_edit_imported_once scenario.externals (inl (ErrOther "no ghost"))
           fixtures.importedWorld).
  - reflexivity.
  - vm_compute. reflexivity.
Defined.

(** ** A lookup that fails stops the run *)

Section RefusedGithub.
Context `{cache.Externals}.
Variable queryGhost : error + github.ghostUser.

Lemma github_ensureIssue_refused issue w e w' :
  github.ensurePerson queryGhost (github.issue_Author issue) w = (Fail e, w') →
  github.ensureIssue queryGhost issue w = (Fail e, w').
Proof. intros Hperson. unfold github.ensureIssue, bind. by rewrite Hperson. Qed.

Lemma github_ensureTimelineComment_refused b item edits w e w' :
  github.ensurePerson queryGhost (github.comment_Author item) w = (Fail e, w') →
  github.ensureTimelineComment queryGhost b item edits w = (Fail e, w').
Proof. intros Hperson. unfold github.ensureTimelineComment, bind. by rewrite Hperson. Qed.

Lemma github_ensureCommentEdit_refused b target edit w h e w' :
  ResolveOperationWithMetadata b github.keyGithubId
    (github.parseId (github.edit_Id edit)) w = (Ok (h, Some ErrNoMatchingOp), w) →
  github.ensurePerson queryGhost (github.Editor edit) w = (Fail e, w') →
  github.ensureCommentEdit queryGhost b target edit w = (Fail e, w').
Proof.
  intros Hlook Hperson. unfold github.ensureCommentEdit. unfold bind at 1.
  rewrite Hlook. rewrite bool_decide_eq_false_2 by (by intros []).
  unfold bind. by rewrite Hperson.
Qed.

Lemma github_ensureTimelineComment_edits_refused b item i edit rest target w e w' :
  i ≠ 0%nat ∨ target = "" →
  github.ensurePerson queryGhost (github.Editor edit) w = (Fail e, w') →
  github.ensureTimelineComment_edits queryGhost b item i (edit :: rest) target w
    = (Fail e, w').
Proof.
  intros Hnew Hperson. cbn [github.ensureTimelineComment_edits].
  case_bool_decide as Hi; [case_bool_decide as Htarget |]; simpl.
  - by destruct Hnew.
  - unfold bind. by rewrite Hperson.
  - unfold bind. by rewrite Hperson.
Qed.

Lemma github_comment_item_refused b item w e w' :
  github.item_Typename item = "IssueComment" →
  github.ensurePerson queryGhost
    (github.comment_Author (github.IssueComment item)) w = (Fail e, w') →
  github.ensureTimelineItem queryGhost b item w
    = (Fail (Errorf "timeline comment creation: %v" e), w').
Proof.
  intros Htype Hperson. unfold github.ensureTimelineItem. rewrite Htype. simpl.
  unfold bind, try. by rewrite (github_ensureTimelineComment_refused _ _ _ _ _ _ Hperson).
Qed.

Lemma github_labeled_event_refused b item w h e w' :
  github.item_Typename item = "LabeledEvent" →
  ResolveOperationWithMetadata b github.keyGithubId
    (github.parseId (github.event_Id (github.label_Event (github.LabeledEvent item)))) w
    = (Ok (h, Some ErrNoMatchingOp), w) →
  github.ensurePerson queryGhost
    (github.Actor (github.label_Event (github.LabeledEvent item))) w = (Fail e, w') →
  github.ensureTimelineItem queryGhost b item w = (Fail e, w').
Proof.
  intros Htype Hlook Hperson. unfold github.ensureTimelineItem. rewrite Htype. simpl.
  unfold bind at 1. rewrite Hlook. simpl.
  unfold bind. by rewrite Hperson.
Qed.

Lemma github_unlabeled_event_refused b item w h e w' :
  github.item_Typename item = "UnlabeledEvent" →
  ResolveOperationWithMetadata b github.keyGithubId
    (github.parseId (github.event_Id (github.label_Event (github.UnlabeledEvent item)))) w
    = (Ok (h, Some ErrNoMatchingOp), w) →
  github.ensurePerson queryGhost
    (github.Actor (github.label_Event (github.UnlabeledEvent item))) w = (Fail e, w') →
  github.ensureTimelineItem queryGhost b item w = (Fail e, w').
Proof.
  intros Htype Hlook Hperson. unfold github.ensureTimelineItem. rewrite Htype. simpl.
  unfold bind at 1. rewrite Hlook. simpl.
  unfold bind. by rewrite Hperson.
Qed.

Lemma github_closed_event_refused b item w h e w' :
  github.item_Typename item = "ClosedEvent" →
  ResolveOperationWithMetadata b github.keyGithubId
    (github.parseId (github.event_Id (github.ClosedEvent item))) w
    = (Ok (h, Some ErrNoMatchingOp), w) →
  github.ensurePerson queryGhost (github.Actor (github.ClosedEvent item)) w
    = (Fail e, w') →
  github.ensureTimelineItem queryGhost b item w = (Fail e, w').
Proof.
  intros Htype Hlook Hperson. unfold github.ensureTimelineItem. rewrite Htype. simpl.
  unfold bind at 1. rewrite Hlook. simpl.
  unfold bind. by rewrite Hperson.
Qed.

Lemma github_reopened_event_refused b item w h e w' :
  github.item_Typename item = "ReopenedEvent" →
  ResolveOperationWithMetadata b github.keyGithubId
    (github.parseId (github.event_Id (github.ReopenedEvent item))) w
    = (Ok (h, Some ErrNoMatchingOp), w) →
  github.ensurePerson queryGhost (github.Actor (github.ReopenedEvent item)) w
    = (Fail e, w') →
  github.ensureTimelineItem queryGhost b item w = (Fail e, w').
Proof.
  intros Htype Hlook Hperson. unfold github.ensureTimelineItem. rewrite Htype. simpl.
  unfold bind at 1. rewrite Hlook. simpl.
  unfold bind. by rewrite Hperson.
Qed.

Lemma github_renamed_event_refused b item w h e w' :
  github.item_Typename item = "RenamedTitleEvent" →
  ResolveOperationWithMetadata b github.keyGithubId
    (github.parseId (github.event_Id (github.renamed_Event
                                        (github.RenamedTitleEvent item)))) w
    = (Ok (h, Some ErrNoMatchingOp), w) →
  github.ensurePerson queryGhost
    (github.Actor (github.renamed_Event (github.RenamedTitleEvent item))) w
    = (Fail e, w') →
  github.ensureTimelineItem queryGhost b item w = (Fail e, w').
Proof.
  intros Htype Hlook Hperson. unfold github.ensureTimelineItem. rewrite Htype. simpl.
  unfold bind at 1. rewrite Hlook. simpl.
  unfold bind. by rewrite Hperson.
Qed.

(** The loops: a call that returns an error, at whatever place of the
    list, is answered by one error result, and the goroutine returns. *)
Lemma github_timelineLoop_refused b before item rest : ∀ w w1 e w2,
  github.timelineLoop queryGhost b before w = (Ok Continue, w1) →
  github.ensureTimelineItem queryGhost b item w1 = (Fail e, w2) →
  github.timelineLoop queryGhost b (before ++ item :: rest) w
    = (Ok Return,
       sent w2 (core.NewImportError
                  (Some (Errorf "timeline item creation: %v" e)) "")).
Proof.
  induction before as [|x before IH]; intros w w1 e w2 Hbefore Hitem; simpl in *.
  - injection Hbefore as <-. unfold bind, try. by rewrite Hitem.
  - unfold bind at 1 in Hbefore. unfold bind at 1. unfold try in Hbefore |- *.
    destruct (github.ensureTimelineItem queryGhost b x w) as [[[]|?|?] wx];
      [| done | done].
    by eapply IH.
Qed.

Lemma github_importIssue_refused issue w e w' :
  github.ensureIssue queryGhost issue w = (Fail e, w') →
  github.importIssue queryGhost issue w
    = (Ok Return,
       sent w' (core.NewImportError (Some (Errorf "issue creation: %v" e)) "")).
Proof. intros Hissue. unfold github.importIssue, bind, try. by rewrite Hissue. Qed.

Lemma github_importIssue_item_refused issue before item rest w b w1 w2 e w3 :
  github.Timeline issue = before ++ item :: rest →
  github.ensureIssue queryGhost issue w = (Ok b, w1) →
  github.timelineLoop queryGhost b before w1 = (Ok Continue, w2) →
  github.ensureTimelineItem queryGhost b item w2 = (Fail e, w3) →
  github.importIssue queryGhost issue w
    = (Ok Return,
       sent w3 (core.NewImportError
                  (Some (Errorf "timeline item creation: %v" e)) "")).
Proof.
  intros Htimeline Hissue Hbefore Hitem. unfold github.importIssue.
  unfold bind at 1. unfold try. rewrite Hissue, Htimeline.
  unfold bind. by rewrite (github_timelineLoop_refused _ _ _ _ _ _ _ _ Hbefore Hitem).
Qed.

(** A run: the issues before the one at hand went through, the context
    is not done, and the issue at hand ends with an error result; that
    result is the last one of the run. *)
Lemma github_run_stops ctx r before issue rest iterErr w1 w2 :
  github.issueLoop queryGhost ctx 0 before (mkWorld r [] 0 0) = (Ok Continue, w1) →
  context.Done ctx (length before) = false →
  github.importIssue queryGhost issue w1 = (Ok Return, w2) →
  github.ImportAll queryGhost ctx r (github.mkIterator (before ++ issue :: rest) iterErr)
    = (Ok Return, w2).
Proof.
  intros Hbefore Hctx Hissue.
  unfold github.ImportAll, github.goroutine. simpl.
  unfold bind at 1. rewrite github_issueLoop_app, Hbefore. simpl.
  rewrite Hctx. unfold bind. by rewrite Hissue.
Qed.

End RefusedGithub.

Section RefusedGithubEdits.
Context `{cache.Externals}.
Variable queryGhost : error + github.ghostUser.

Lemma github_ensureIssue_edits_refused issue author i edit rest b w diff clean target
    e w' :
  i ≠ 0%nat → b ≠ None →
  github.Diff edit = Some diff → cache.text_Cleanup diff = inr clean →
  ResolveOperationWithMetadata b github.keyGithubUrl (github.issue_Url issue) w
    = (Ok (target, None), w) →
  github.ensureCommentEdit queryGhost b target edit w = (Fail e, w') →
  github.ensureIssue_edits queryGhost issue author i (edit :: rest) b w = (Fail e, w').
Proof.
  intros Hi Hb Hdiff Hclean Hlook Hedit. cbn [github.ensureIssue_edits].
  rewrite (bool_decide_eq_false_2 (i = 0%nat)) by done. simpl.
  rewrite Hdiff. unfold bind at 1. simpl. unfold bind at 1, Cleanup. rewrite Hclean.
  simpl. rewrite (bool_decide_eq_false_2 (b = None)) by done.
  unfold bind at 1. rewrite Hlook. unfold bind. by rewrite Hedit.
Qed.

End RefusedGithubEdits.

Section RefusedGitlab.
Context `{cache.Externals}.
Variable conf : gmap string string.
Variable GetNoteType : gitlab.Note → gitlab.NoteType * string.
Variable NoteType_String : gitlab.NoteType → string.
Variable GetUser : Z → error + gitlab.User.

Lemma gitlab_ensureIssue_refused issue w e w' :
  gitlab.ensurePerson GetUser (gitlab.issue_AuthorID issue) w = (Fail e, w') →
  gitlab.ensureIssue conf GetUser issue w = (Fail e, w').
Proof. intros Hperson. unfold gitlab.ensureIssue, bind. by rewrite Hperson. Qed.

Lemma gitlab_ensureNote_refused issue b note w e w' :
  gitlab.ensurePerson GetUser (gitlab.note_AuthorID note) w = (Fail e, w') →
  gitlab.ensureNote GetNoteType NoteType_String GetUser issue b note w = (Fail e, w').
Proof. intros Hperson. unfold gitlab.ensureNote, bind. by rewrite Hperson. Qed.

Lemma gitlab_ensureLabelEvent_refused b labelEvent w h e w' :
  ResolveOperationWithMetadata b gitlab.keyGitlabId
    (gitlab.parseID (gitlab.event_ID labelEvent)) w
    = (Ok (h, Some ErrNoMatchingOp), w) →
  gitlab.ensurePerson GetUser (gitlab.event_UserID labelEvent) w = (Fail e, w') →
  gitlab.ensureLabelEvent GetUser b labelEvent w = (Fail e, w').
Proof.
  intros Hlook Hperson. unfold gitlab.ensureLabelEvent. unfold bind at 1.
  rewrite Hlook. simpl. unfold bind. by rewrite Hperson.
Qed.

Lemma gitlab_noteLoop_refused issue b before note rest : ∀ w w1 e w2,
  gitlab.noteLoop GetNoteType NoteType_String GetUser issue b before w
    = (Ok Continue, w1) →
  gitlab.ensureNote GetNoteType NoteType_String GetUser issue b note w1 = (Fail e, w2) →
  gitlab.noteLoop GetNoteType NoteType_String GetUser issue b (before ++ note :: rest) w
    = (Ok Return,
       sent w2 (core.NewImportError (Some (Errorf "note creation: %v" e))
                  (pretty (gitlab.note_ID note)))).
Proof.
  induction before as [|x before IH]; intros w w1 e w2 Hbefore Hnote; simpl in *.
  - injection Hbefore as <-. unfold bind, try. by rewrite Hnote.
  - unfold bind at 1 in Hbefore. unfold bind at 1. unfold try in Hbefore |- *.
    destruct (gitlab.ensureNote _ _ _ issue b x w) as [[[]|?|?] wx]; [| done | done].
    by eapply IH.
Qed.

Lemma gitlab_labelEventLoop_refused b before labelEvent rest : ∀ w w1 e w2,
  gitlab.labelEventLoop GetUser b before w = (Ok Continue, w1) →
  gitlab.ensureLabelEvent GetUser b labelEvent w1 = (Fail e, w2) →
  gitlab.labelEventLoop GetUser b (before ++ labelEvent :: rest) w
    = (Ok Return,
       sent w2 (core.NewImportError (Some (Errorf "label event creation: %v" e))
                  (pretty (gitlab.event_ID labelEvent)))).
Proof.
  induction before as [|x before IH]; intros w w1 e w2 Hbefore Hevent; simpl in *.
  - injection Hbefore as <-. unfold bind, try. by rewrite Hevent.
  - unfold bind at 1 in Hbefore. unfold bind at 1. unfold try in Hbefore |- *.
    destruct (gitlab.ensureLabelEvent _ b x w) as [[[]|?|?] wx]; [| done | done].
    by eapply IH.
Qed.

(** The failure of [ensureIssue] is not answered by a result: the id of
    the error result is read from the nil bug. *)
Lemma gitlab_importIssue_refused c w e w' :
  gitlab.ensureIssue conf GetUser (gitlab.IssueValue c) w = (Fail e, w') →
  gitlab.importIssue conf GetNoteType NoteType_String GetUser c w
    = (Panic "nil pointer dereference", w').
Proof. intros Hissue. unfold gitlab.importIssue, bind, try. by rewrite Hissue. Qed.

Lemma gitlab_importIssue_note_refused c before note rest w b w1 w2 e w3 :
  gitlab.Notes c = before ++ note :: rest →
  gitlab.ensureIssue conf GetUser (gitlab.IssueValue c) w = (Ok b, w1) →
  gitlab.noteLoop GetNoteType NoteType_String GetUser (gitlab.IssueValue c) b before w1
    = (Ok Continue, w2) →
  gitlab.ensureNote GetNoteType NoteType_String GetUser (gitlab.IssueValue c) b note w2
    = (Fail e, w3) →
  gitlab.importIssue conf GetNoteType NoteType_String GetUser c w
    = (Ok Return,
       sent w3 (core.NewImportError (Some (Errorf "note creation: %v" e))
                  (pretty (gitlab.note_ID note)))).
Proof.
  intros Hnotes Hissue Hbefore Hnote. unfold gitlab.importIssue.
  unfold bind at 1. unfold try. rewrite Hissue, Hnotes.
  unfold bind. by rewrite (gitlab_noteLoop_refused _ _ _ _ _ _ _ _ _ Hbefore Hnote).
Qed.

Lemma gitlab_importIssue_event_refused c before labelEvent rest w b w1 w2 w3 e w4 :
  gitlab.LabelEvents c = before ++ labelEvent :: rest →
  gitlab.ensureIssue conf GetUser (gitlab.IssueValue c) w = (Ok b, w1) →
  gitlab.noteLoop GetNoteType NoteType_String GetUser (gitlab.IssueValue c) b
    (gitlab.Notes c) w1 = (Ok Continue, w2) →
  gitlab.labelEventLoop GetUser b before w2 = (Ok Continue, w3) →
  gitlab.ensureLabelEvent GetUser b labelEvent w3 = (Fail e, w4) →
  gitlab.importIssue conf GetNoteType NoteType_String GetUser c w
    = (Ok Return,
       sent w4 (core.NewImportError (Some (Errorf "label event creation: %v" e))
                  (pretty (gitlab.event_ID labelEvent)))).
Proof.
  intros Hevents Hissue Hnotes Hbefore Hevent. unfold gitlab.importIssue.
  unfold bind at 1. unfold try. rewrite Hissue.
  unfold bind at 1. rewrite Hnotes, Hevents.
  unfold bind. by rewrite (gitlab_labelEventLoop_refused _ _ _ _ _ _ _ _ Hbefore Hevent).
Qed.

(** A run: the issues before the one at hand went through, the context
    is not done; the run ends as the issue at hand does. *)
Lemma gitlab_run_stops ctx r before c rest w1 o w2 :
  gitlab.issueLoop conf GetNoteType NoteType_String GetUser ctx 0 before
    (mkWorld r [] 0 0) = (Ok Continue, w1) →
  context.Done ctx (length before) = false →
  gitlab.importIssue conf GetNoteType NoteType_String GetUser c w1 = (o, w2) →
  o ≠ Ok Continue →
  gitlab.ImportAll conf GetNoteType NoteType_String GetUser ctx r (before ++ c :: rest)
    = (o, w2).
Proof.
  intros Hbefore Hctx Hissue Ho.
  unfold gitlab.ImportAll. rewrite gitlab_issueLoop_app, Hbefore. simpl.
  rewrite Hctx. unfold bind. rewrite Hissue.
  by destruct o as [[]|?|?].
Qed.

End RefusedGitlab.

Section RefusedLaunchpad.
Context `{cache.Externals}.
Variable parseUnix : string → Z.

Lemma launchpad_importBug_refused lpBug w e w' :
  launchpad.ensurePerson (launchpad.Owner lpBug) w = (Fail e, w') →
  launchpad.importBug parseUnix lpBug w
    = (Ok Return,
       sent w' (core.NewImportError (Some e) (pretty (launchpad.ID lpBug)))).
Proof.
  intros Hperson. unfold launchpad.importBug.
  unfold bind at 1. unfold ResolveBugCreateMetadata, readRepo.
  destruct (ResolveBugCreateMetadata_cases (repo w) launchpad.keyLaunchpadID
              (pretty (launchpad.ID lpBug))) as [[i Hres] | Hres];
    simpl; rewrite Hres; simpl;
    unfold bind at 1; unfold try; by rewrite Hperson.
Qed.

(** A computation followed by a continuation that runs only after
    [Continue]. *)
Lemma bind_then {A} (m : M A) (k k' : A → M Flow)
    (next : World → Outcome Flow * World) w :
  (∀ a w', k' a w' = match k a w' with
                     | (Ok Continue, w1) => next w1
                     | other => other
                     end) →
  bind m k' w = match bind m k w with
                | (Ok Continue, w1) => next w1
                | other => other
                end.
Proof. intros Hk. unfold bind. destruct (m w) as [[a|?|?] w']; [apply Hk | done | done]. Qed.

Lemma launchpad_messageLoop_app b lpBugID l1 l2 : ∀ w,
  launchpad.messageLoop parseUnix b lpBugID (l1 ++ l2) w
  = match launchpad.messageLoop parseUnix b lpBugID l1 w with
    | (Ok Continue, w1) => launchpad.messageLoop parseUnix b lpBugID l2 w1
    | other => other
    end.
Proof.
  induction l1 as [|x l1 IH]; intros w; [done |].
  simpl. apply bind_then. intros [h err] w0.
  destruct (bool_decide (err ≠ None) && bool_decide (err ≠ Some ErrNoMatchingOp));
    [reflexivity |].
  destruct (bool_decide (err = None)); [apply IH |].
  apply bind_then. intros [e|owner] wp; [reflexivity |].
  apply bind_then. intros [e|op] wc; [reflexivity |].
  apply bind_then. intros _ w'. apply IH.
Qed.

Lemma launchpad_messageLoop_refused b lpBugID before lpMessage rest w w1 h e w2 :
  launchpad.messageLoop parseUnix b lpBugID before w = (Ok Continue, w1) →
  ResolveOperationWithMetadata b launchpad.keyLaunchpadID
    (launchpad.message_ID lpMessage) w1 = (Ok (h, Some ErrNoMatchingOp), w1) →
  launchpad.ensurePerson (launchpad.message_Owner lpMessage) w1 = (Fail e, w2) →
  launchpad.messageLoop parseUnix b lpBugID (before ++ lpMessage :: rest) w
    = (Ok Return, sent w2 (core.NewImportError (Some e) "")).
Proof.
  intros Hbefore Hlook Hperson.
  rewrite launchpad_messageLoop_app, Hbefore. simpl.
  unfold bind at 1. rewrite Hlook. simpl.
  unfold bind, try. by rewrite Hperson.
Qed.

Lemma launchpad_importBug_message_refused lpBug i first before lpMessage rest
    w owner w1 w2 h e w3 :
  cache.ResolveBugCreateMetadata (repo w) launchpad.keyLaunchpadID
    (pretty (launchpad.ID lpBug)) = (Some i, None) →
  launchpad.ensurePerson (launchpad.Owner lpBug) w = (Ok owner, w1) →
  launchpad.Messages lpBug = first :: before ++ lpMessage :: rest →
  launchpad.messageLoop parseUnix (Some i) (pretty (launchpad.ID lpBug)) before w1
    = (Ok Continue, w2) →
  ResolveOperationWithMetadata (Some i) launchpad.keyLaunchpadID
    (launchpad.message_ID lpMessage) w2 = (Ok (h, Some ErrNoMatchingOp), w2) →
  launchpad.ensurePerson (launchpad.message_Owner lpMessage) w2 = (Fail e, w3) →
  launchpad.importBug parseUnix lpBug w
    = (Ok Return, sent w3 (core.NewImportError (Some e) "")).
Proof.
  intros Hbug Howner Hmessages Hbefore Hlook Hperson. unfold launchpad.importBug.
  unfold bind at 1. unfold ResolveBugCreateMetadata, readRepo. rewrite Hbug. simpl.
  unfold bind at 1. unfold try. rewrite Howner. simpl.
  unfold launchpad.handleMessages. rewrite Hmessages. simpl.
  unfold bind at 1.
  by rewrite (launchpad_messageLoop_refused _ _ _ _ _ _ _ _ _ _ Hbefore Hlook Hperson).
Qed.

(** A run: the bugs before the one at hand went through, the context is
    not done, and the bug at hand ends with an error result; that result
    is the last one of the run. *)
Lemma launchpad_run_stops conf SearchTasks ctx r before lpBug rest w1 w2 :
  SearchTasks (launchpad.confValue conf "project") = inr (before ++ lpBug :: rest) →
  launchpad.bugLoop parseUnix ctx 0 before (mkWorld r [] 0 0) = (Ok Continue, w1) →
  context.Done ctx (length before) = false →
  launchpad.importBug parseUnix lpBug w1 = (Ok Return, w2) →
  launchpad.ImportAll conf None SearchTasks parseUnix ctx r = inr (Ok Return, w2).
Proof.
  intros Htasks Hbefore Hctx Hbug.
  unfold launchpad.ImportAll. rewrite Htasks. f_equal.
  rewrite launchpad_bugLoop_app, Hbefore. simpl.
  rewrite Hctx. unfold bind. by rewrite Hbug.
Qed.

End RefusedLaunchpad.

(** ** Ambiguity met at any place of a run *)

Section AmbiguousAnywhere.
Context `{cache.Externals}.

(** GitHub: the error is the last result of the run. *)
Lemma github_run_ambiguous_at queryGhost ctx r before issue rest iterErr actor w1 :
  github.issueLoop queryGhost ctx 0 before (mkWorld r [] 0 0) = (Ok Continue, w1) →
  context.Done ctx (length before) = false →
  github.issue_Author issue = Some actor →
  (1 < length (holders (repo w1) github.keyGithubLogin (github.Login actor)))%nat →
  github.ImportAll queryGhost ctx r (github.mkIterator (before ++ issue :: rest) iterErr)
    = (Ok Return,
       sent w1
         (core.NewImportError
            (Some (Errorf "issue creation: %v"
                     (ErrMultipleMatch
                        (map identity.Id
                           (holders (repo w1) github.keyGithubLogin
                              (github.Login actor))))))
            "")).
Proof.
  intros Hbefore Hctx Hauthor Hlen.
  eapply github_run_stops; [done | done |].
  eapply github_importIssue_refused, github_ensureIssue_refused.
  rewrite Hauthor. by apply github_ensurePerson_ambiguous.
Qed.

(** GitLab: the error of the issue's author is lost in a panic, at
    whatever issue of the run; the error of a note's author is the last
    result of the run. *)
Lemma gitlab_run_ambiguous_at conf GetNoteType NoteType_String GetUser ctx r
    before c rest w1 :
  gitlab.issueLoop conf GetNoteType NoteType_String GetUser ctx 0 before
    (mkWorld r [] 0 0) = (Ok Continue, w1) →
  context.Done ctx (length before) = false →
  (1 < length (holders (repo w1) gitlab.keyGitlabId
                 (pretty (gitlab.issue_AuthorID (gitlab.IssueValue c)))))%nat →
  gitlab.ImportAll conf GetNoteType NoteType_String GetUser ctx r (before ++ c :: rest)
    = (Panic "nil pointer dereference", w1).
Proof.
  intros Hbefore Hctx Hlen.
  eapply gitlab_run_stops; [done | done | | done].
  eapply gitlab_importIssue_refused, gitlab_ensureIssue_refused.
  by apply gitlab_ensurePerson_ambiguous.
Qed.

Lemma gitlab_run_ambiguous_note conf GetNoteType NoteType_String GetUser ctx r
    before c rest notesBefore note notesRest w1 b w2 w3 :
  gitlab.issueLoop conf GetNoteType NoteType_String GetUser ctx 0 before
    (mkWorld r [] 0 0) = (Ok Continue, w1) →
  context.Done ctx (length before) = false →
  gitlab.Notes c = notesBefore ++ note :: notesRest →
  gitlab.ensureIssue conf GetUser (gitlab.IssueValue c) w1 = (Ok b, w2) →
  gitlab.noteLoop GetNoteType NoteType_String GetUser (gitlab.IssueValue c) b
    notesBefore w2 = (Ok Continue, w3) →
  (1 < length (holders (repo w3) gitlab.keyGitlabId
                 (pretty (gitlab.note_AuthorID note))))%nat →
  gitlab.ImportAll conf GetNoteType NoteType_String GetUser ctx r (before ++ c :: rest)
    = (Ok Return,
       sent w3
         (core.NewImportError
            (Some (Errorf "note creation: %v"
                     (ErrMultipleMatch
                        (map identity.Id
                           (holders (repo w3) gitlab.keyGitlabId
                              (pretty (gitlab.note_AuthorID note)))))))
            (pretty (gitlab.note_ID note)))).
Proof.
  intros Hbefore Hctx Hnotes Hissue Hloop Hlen.
  eapply gitlab_run_stops; [done | done | | done].
  eapply gitlab_importIssue_note_refused; [done | done | done |].
  apply gitlab_ensureNote_refused. by apply gitlab_ensurePerson_ambiguous.
Qed.

(** Launchpad: the error of a bug's owner and the error of the owner of
    a message not seen before are the last result of the run. *)
Lemma launchpad_run_ambiguous_at conf SearchTasks parseUnix ctx r before lpBug rest w1 :
  SearchTasks (launchpad.confValue conf "project") = inr (before ++ lpBug :: rest) →
  launchpad.bugLoop parseUnix ctx 0 before (mkWorld r [] 0 0) = (Ok Continue, w1) →
  context.Done ctx (length before) = false →
  (1 < length (holders (repo w1) launchpad.keyLaunchpadLogin
                 (launchpad.Login (launchpad.Owner lpBug))))%nat →
  launchpad.ImportAll conf None SearchTasks parseUnix ctx r
    = inr (Ok Return,
           sent w1
             (core.NewImportError
                (Some (ErrMultipleMatch
                         (map identity.Id
                            (holders (repo w1) launchpad.keyLaunchpadLogin
                               (launchpad.Login (launchpad.Owner lpBug))))))
                (pretty (launchpad.ID lpBug)))).
Proof.
  intros Htasks Hbefore Hctx Hlen.
  eapply launchpad_run_stops; [done | done | done |].
  apply launchpad_importBug_refused. by apply launchpad_ensurePerson_ambiguous.
Qed.

Lemma launchpad_run_ambiguous_message conf SearchTasks parseUnix ctx r before lpBug rest
    i first messagesBefore lpMessage messagesRest w1 owner w2 w3 h :
  SearchTasks (launchpad.confValue conf "project") = inr (before ++ lpBug :: rest) →
  launchpad.bugLoop parseUnix ctx 0 before (mkWorld r [] 0 0) = (Ok Continue, w1) →
  context.Done ctx (length before) = false →
  cache.ResolveBugCreateMetadata (repo w1) launchpad.keyLaunchpadID
    (pretty (launchpad.ID lpBug)) = (Some i, None) →
  launchpad.ensurePerson (launchpad.Owner lpBug) w1 = (Ok owner, w2) →
  launchpad.Messages lpBug = first :: messagesBefore ++ lpMessage :: messagesRest →
  launchpad.messageLoop parseUnix (Some i) (pretty (launchpad.ID lpBug))
    messagesBefore w2 = (Ok Continue, w3) →
  ResolveOperationWithMetadata (Some i) launchpad.keyLaunchpadID
    (launchpad.message_ID lpMessage) w3 = (Ok (h, Some ErrNoMatchingOp), w3) →
  (1 < length (holders (repo w3) launchpad.keyLaunchpadLogin
                 (launchpad.Login (launchpad.message_Owner lpMessage))))%nat →
  launchpad.ImportAll conf None SearchTasks parseUnix ctx r
    = inr (Ok Return,
           sent w3
             (core.NewImportError
                (Some (ErrMultipleMatch
                         (map identity.Id
                            (holders (repo w3) launchpad.keyLaunchpadLogin
                               (launchpad.Login (launchpad.message_Owner lpMessage))))))
                "")).
Proof.
  intros Htasks Hbefore Hctx Hbug Howner Hmessages Hloop Hlook Hlen.
  eapply launchpad_run_stops; [done | done | done |].
  eapply launchpad_importBug_message_refused; [done | done | done | done | done |].
  by apply launchpad_ensurePerson_ambiguous.
Qed.

End AmbiguousAnywhere.

